(** * Auditable item graph: mutation, change tracking and verification

    A shallow embedding of [AuditableItemGraphService]
    (packages/auditable-item-graph-service/src/auditableItemGraphService.ts)
    together with the properties of its hash chain, its sub-element
    reconcilers, its read path and its verifier.

    Conventions of the embedding.
    - A TypeScript [string] is a Rocq [string], read as its UTF-8 bytes, so
      [Converter.utf8ToBytes] is [list_byte_of_string].
    - An optional property ([x?: T]) is an [option T]; [undefined] is [None].
    - Epochs ([Date.now()]) are natural numbers in [N].
    - Objects that the source mutates in place ([alias.deleted = now],
      [existing.metadata = ...], [changeSets.push]) are updated functionally
      at the position where the source holds the reference.
    - The collaborators of the service (vault, identity, immutable storage,
      the helpers of the core library) are the fields of the class
      [Collaborators]; their calls are total, an exception raised inside
      one of them is outside this model.  The exceptions the service raises
      itself (guards, namespace mismatch, vertex not found) are modelled by
      the error type [ServiceError]. *)

From Stdlib Require Import NArith ZArith Lia.
From Stdlib Require Import Strings.String Strings.Ascii Strings.Byte.
From Stdlib Require Import Numbers.DecimalString.
From stdpp Require Import base option list gmap strings.

Local Open Scope N_scope.

(** ** Structured values and patch operations *)

#[local] Set Warnings "-register-all".

(** Metadata is opaque structured data: a tagged value tree. *)
Inductive Json : Type :=
| JNull
| JBool (b : bool)
| JNumber (n : Z)
| JString (s : string)
| JArray (items : list Json)
| JObject (members : list (string * Json)).

(** [IPatchOperation] of the core library: one RFC 6902 operation. *)
Record IPatchOperation := mkPatch {
  op : string;
  path : string;
  value : option Json
}.

(** ** The data model *)

(** The items of an alias or a resource update list:
    [{ id: string; metadataSchema?: string; metadata?: unknown }]. *)
Record ElementInput := mkElementInput {
  in_id : string;
  in_metadataSchema : option string;
  in_metadata : option Json
}.

(** The items of an edge update list, with the extra [relationship]. *)
Record EdgeInput := mkEdgeInput {
  ein_id : string;
  ein_relationship : string;
  ein_metadataSchema : option string;
  ein_metadata : option Json
}.

(** [IAuditableItemGraphAlias] (model). *)
Record IAuditableItemGraphAlias := mkAlias {
  alias_id : string;
  alias_created : N;
  alias_updated : option N;
  alias_deleted : option N;
  alias_metadataSchema : option string;
  alias_metadata : option Json
}.

(** [IAuditableItemGraphResource] (model). *)
Record IAuditableItemGraphResource := mkResource {
  resource_id : string;
  resource_created : N;
  resource_updated : option N;
  resource_deleted : option N;
  resource_metadataSchema : option string;
  resource_metadata : option Json
}.

(** [IAuditableItemGraphEdge] (model). *)
Record IAuditableItemGraphEdge := mkEdge {
  edge_id : string;
  edge_created : N;
  edge_updated : option N;
  edge_deleted : option N;
  edge_relationship : string;
  edge_metadataSchema : option string;
  edge_metadata : option Json
}.

(** A changeset; the model and the entity carry the same five fields. *)
Record IAuditableItemGraphChangeset := mkChangeset {
  cs_created : N;
  cs_userIdentity : string;
  cs_patches : list IPatchOperation;
  cs_hash : string;
  cs_immutableStorageId : option string
}.

(** [IAuditableItemGraphVertex] (model). *)
Record IAuditableItemGraphVertex := mkVertex {
  v_id : string;
  v_nodeIdentity : string;
  v_created : N;
  v_updated : N;
  v_metadataSchema : option string;
  v_metadata : option Json;
  v_aliases : option (list IAuditableItemGraphAlias);
  v_resources : option (list IAuditableItemGraphResource);
  v_edges : option (list IAuditableItemGraphEdge);
  v_changesets : option (list IAuditableItemGraphChangeset)
}.

(** The storage entities.  The element entities are the object literals
    built by [vertexModelToEntity]: they have no [updated] property. *)
Record AuditableItemGraphAlias := mkAliasEntity {
  ae_id : string;
  ae_created : N;
  ae_deleted : option N;
  ae_metadataSchema : option string;
  ae_metadata : option Json
}.

Record AuditableItemGraphResource := mkResourceEntity {
  re_id : string;
  re_created : N;
  re_deleted : option N;
  re_metadataSchema : option string;
  re_metadata : option Json
}.

Record AuditableItemGraphEdge := mkEdgeEntity {
  ee_id : string;
  ee_created : N;
  ee_deleted : option N;
  ee_relationship : string;
  ee_metadataSchema : option string;
  ee_metadata : option Json
}.

Record AuditableItemGraphVertex := mkVertexEntity {
  e_id : string;
  e_created : N;
  e_updated : N;
  e_nodeIdentity : string;
  e_metadataSchema : option string;
  e_metadata : option Json;
  e_aliasIndex : option string;
  e_aliases : option (list AuditableItemGraphAlias);
  e_resources : option (list AuditableItemGraphResource);
  e_edges : option (list AuditableItemGraphEdge);
  e_changesets : option (list IAuditableItemGraphChangeset)
}.

(** [IAuditableItemGraphServiceContext]. *)
Record IAuditableItemGraphServiceContext := mkContext {
  now : N;
  userIdentity : string;
  nodeIdentity : string
}.

(** [IAuditableItemGraphIntegrity]: the payload embedded in the credential. *)
Record IAuditableItemGraphIntegrity := mkIntegrity {
  int_created : N;
  int_userIdentity : string;
  int_patches : list IPatchOperation
}.

(** [IAuditableItemGraphCredential]: the subject of the credential. *)
Record IAuditableItemGraphCredential := mkCredential {
  cred_signature : string;
  cred_integrity : option string
}.

(** [VerifyDepth]. *)
Inductive VerifyDepth := VerifyNone | VerifyCurrent | VerifyAll.

(** [IAuditableItemGraphServiceConfig] and the three fields the constructor
    derives from it. *)
Record IAuditableItemGraphServiceConfig := mkConfig {
  cfg_vaultKeyId : option string;
  cfg_assertionMethodId : option string;
  cfg_enableIntegrityCheck : option bool
}.

Record Service := mkService {
  _vaultKeyId : string;
  _assertionMethodId : string;
  _enableIntegrityCheck : bool
}.

Definition newService (config : option IAuditableItemGraphServiceConfig) : Service :=
  let c := default (mkConfig None None None) config in
  {| _vaultKeyId := default "auditable-item-graph" (cfg_vaultKeyId c);
     _assertionMethodId := default "auditable-item-graph" (cfg_assertionMethodId c);
     _enableIntegrityCheck := default false (cfg_enableIntegrityCheck c) |}.

Definition NAMESPACE : string := "aig".

(** ** Errors raised by the service *)

Inductive ServiceError :=
| guardViolation (property : string)
| invalidUrn
| namespaceMismatch
| vertexNotFound
| createFailed (cause : ServiceError)
| getFailed (cause : ServiceError)
| updateFailed (cause : ServiceError)
| removeImmutableFailed (cause : ServiceError).

Inductive Result (A : Type) :=
| Ok (a : A)
| Err (e : ServiceError).
Arguments Ok {A} a.
Arguments Err {A} e.

#[global] Instance result_ret : MRet Result := fun A a => Ok a.

#[global] Instance result_bind : MBind Result := fun A B k r =>
  match r with
  | Ok a => k a
  | Err e => Err e
  end.

(** [try { ... } catch (error) { throw new GeneralError(..., error) }]. *)
Definition catchWith {A} (wrap : ServiceError -> ServiceError) (r : Result A) : Result A :=
  match r with
  | Ok a => Ok a
  | Err e => Err (wrap e)
  end.

(** ** Helpers of the core library that the service relies on *)

(** [Is.stringValue]: a string with at least one character. *)
Definition Is_stringValue (s : option string) : bool :=
  match s with
  | Some s => bool_decide (s ≠ "")
  | None => false
  end.

(** [Is.arrayValue]: an array with at least one item. *)
Definition Is_arrayValue {A} (l : option (list A)) : bool :=
  match l with
  | Some (_ :: _) => true
  | _ => false
  end.

(** [Is.empty] and [Is.undefined] on an optional value. *)
Definition Is_empty {A} (x : option A) : bool :=
  match x with None => true | Some _ => false end.

Definition Is_undefined {A} (x : option A) : bool :=
  match x with None => true | Some _ => false end.

(** JavaScript truthiness of an optional number, as in [existing?.deleted]. *)
Definition truthy (x : option N) : bool :=
  match x with
  | Some n => bool_decide (n ≠ 0)
  | None => false
  end.

(** [Guards.stringValue]. *)
Definition Guards_stringValue (property : string) (s : option string) : Result string :=
  match s with
  | Some s => if bool_decide (s = "") then Err (guardViolation property) else Ok s
  | None => Err (guardViolation property)
  end.

(** [Number.prototype.toString] on an epoch: the decimal digits. *)
Definition toString (n : N) : string := NilEmpty.string_of_uint (N.to_uint n).

Definition utf8ToBytes (s : string) : list byte := list_byte_of_string s.
Definition bytesToUtf8 (b : list byte) : string := string_of_list_byte b.

(** [Array.prototype.join]. *)
Fixpoint join (sep : string) (l : list string) : string :=
  match l with
  | [] => ""
  | [x] => x
  | x :: rest => x +:+ sep +:+ join sep rest
  end.

(** The incremental [Blake2b] object: [update] appends to what has been fed
    so far, [digest] hashes it. *)
Record Blake2b := mkBlake2b { b2b_input : list byte }.

Definition Blake2b_new : Blake2b := mkBlake2b [].
Definition b2b_update (b : Blake2b) (data : list byte) : Blake2b :=
  mkBlake2b (b2b_input b ++ data).

(** ** The collaborators

    Everything the service calls but does not define: the hash function,
    the converters and JSON helpers of the core library, the URN parser,
    the vault, the identity connector and the immutable storage.  The
    immutable storage keeps a state of its own ([ImmutableStorage]), which
    the service threads through [store] and [remove]. *)
Class Collaborators := {
  (* Blake2b.SIZE_256 digest of everything fed to the object *)
  blake2b256 : list byte -> list byte;
  (* Converter.bytesToBase64 / Converter.base64ToBytes *)
  bytesToBase64 : list byte -> string;
  base64ToBytes : string -> list byte;
  (* ObjectHelper.toBytes on a patch list *)
  toBytes : list IPatchOperation -> list byte;
  (* JsonHelper.canonicalize on a metadata value and on an integrity payload *)
  canonicalize : option Json -> string;
  canonicalizeIntegrity : IAuditableItemGraphIntegrity -> string;
  (* JSON.parse on the decrypted integrity payload *)
  parseIntegrity : string -> IAuditableItemGraphIntegrity;
  (* JsonHelper.diff *)
  diff : IAuditableItemGraphVertex -> IAuditableItemGraphVertex -> list IPatchOperation;
  (* String.prototype.toLowerCase *)
  toLowerCase : string -> string;
  (* Urn.fromValidString, giving namespaceIdentifier() and namespaceSpecific(0);
     new Urn(namespace, id).toString() *)
  Urn_fromValidString : string -> option (string * string);
  Urn_toString : string -> string -> string;
  (* IVaultConnector *)
  vault_sign : string -> list byte -> list byte;
  vault_encrypt : string -> list byte -> list byte;
  vault_decrypt : string -> list byte -> list byte;
  (* IIdentityConnector: the jwt of a new credential; for a jwt, whether it is
     revoked and its credential subject (the first one of an array) *)
  createVerifiableCredential :
    string -> string -> string -> IAuditableItemGraphCredential -> string;
  checkVerifiableCredential : string -> bool * option IAuditableItemGraphCredential;
  (* DocumentHelper.parse(Jwt.decode(jwt).header?.kid ?? "").id *)
  jwtKidIdentity : string -> string;
  (* IImmutableStorageConnector *)
  ImmutableStorage : Type;
  imm_store : ImmutableStorage -> string -> list byte -> ImmutableStorage * string;
  imm_get : ImmutableStorage -> string -> list byte;
  imm_remove : ImmutableStorage -> string -> string -> ImmutableStorage
}.

Definition b2b_digest `{Collaborators} (b : Blake2b) : list byte :=
  blake2b256 (b2b_input b).

(** ** Sub-element reconcilers

    [updateAliasList]/[updateAlias], [updateResourceList]/[updateResource]
    and [updateEdgeList]/[updateEdge] are the same two functions written
    three times, over three element types.  [Reconcilable] names what
    differs between the copies: the fields the code reads, the guards at the
    head of [updateX], the object literal it pushes, the condition of its
    [else if] and the assignments below it.  The equations in the class say
    which fields each of these operations leaves alone. *)
Class Reconcilable (E U : Type) := {
  elem_id : E -> string;
  elem_deleted : E -> option N;
  (* x.deleted = context.now *)
  elem_markDeleted : N -> E -> E;
  input_id : U -> string;
  (* Guards.object, Guards.stringValue(id) [, Guards.stringValue(relationship)] *)
  input_guard : U -> Result unit;
  (* the model pushed when there is no match, or the match is deleted *)
  elem_new : N -> U -> E;
  (* the condition of the else-if: some compared field differs *)
  elem_differs : E -> U -> bool;
  (* existing.updated = context.now; existing.<field> = <input>.<field> *)
  elem_write : N -> U -> E -> E;
  elem_id_markDeleted : forall n e, elem_id (elem_markDeleted n e) = elem_id e;
  elem_deleted_markDeleted : forall n e, elem_deleted (elem_markDeleted n e) = Some n;
  elem_id_new : forall n u, elem_id (elem_new n u) = input_id u;
  elem_deleted_new : forall n u, elem_deleted (elem_new n u) = None;
  elem_id_write : forall n u e, elem_id (elem_write n u e) = elem_id e;
  elem_deleted_write : forall n u e, elem_deleted (elem_write n u e) = elem_deleted e
}.

(** [for (const x of xs) { s = f(s, x) }] where [f] may throw. *)
Fixpoint forEachM {S U : Type} (f : S -> U -> Result S) (s : S) (xs : list U) : Result S :=
  match xs with
  | [] => Ok s
  | x :: rest => s' ← f s x; forEachM f s' rest
  end.

Section Reconciler.
Context {E U : Type} `{Reconcilable E U}.

(** [xs?.find(a => a.id === x.id)] is an object, hence truthy, exactly when
    the list is passed and holds an item with that id. *)
Definition inUpdateList (upd : option (list U)) (id : string) : bool :=
  match upd with
  | Some l => existsb (fun a => bool_decide (input_id a = id)) l
  | None => false
  end.

(** The first loop of [updateXList]: [active] holds the elements with an
    empty [deleted]; those whose id the update list does not hold get
    [deleted = context.now].  [active] shares its objects with the vertex,
    so the assignment lands in the vertex's own array. *)
Definition markMissing (now : N) (upd : option (list U)) (e : E) : E :=
  if Is_empty (elem_deleted e) && negb (inUpdateList upd (elem_id e))
  then elem_markDeleted now e
  else e.

Definition tombstoneMissing (now : N) (elems : option (list E))
    (upd : option (list U)) : option (list E) :=
  (fun l : list E => markMissing now upd <$> l) <$> elems.

(** The body of [updateX], on the collection alone: [find] returns the first
    element with the id. *)
Definition updateElement (now : N) (elems : option (list E)) (u : U)
    : Result (option (list E)) :=
  _ ← input_guard u;
  let l := default [] elems in
  match list_find (fun a => elem_id a = input_id u) l with
  | Some (i, existing) =>
      if truthy (elem_deleted existing)
      then Ok (Some (l ++ [elem_new now u]))
      else if elem_differs existing u
      then Ok (Some (<[i := elem_write now u existing]> l))
      else Ok elems
  | None => Ok (Some (l ++ [elem_new now u]))
  end.

(** The two loops of [updateXList], on the collection alone. *)
Definition updateList (now : N) (elems : option (list E))
    (upd : option (list U)) : Result (option (list E)) :=
  let elems := tombstoneMissing now elems upd in
  if Is_arrayValue upd
  then forEachM (updateElement now) elems (default [] upd)
  else Ok elems.
End Reconciler.

(** ** The three element kinds *)

Section Elements.
Context `{Collaborators}.

#[global] Instance aliasReconcilable :
    Reconcilable IAuditableItemGraphAlias ElementInput := {|
  elem_id := alias_id;
  elem_deleted := alias_deleted;
  elem_markDeleted n a :=
    mkAlias (alias_id a) (alias_created a) (alias_updated a) (Some n)
            (alias_metadataSchema a) (alias_metadata a);
  input_id := in_id;
  input_guard u := _ ← Guards_stringValue "alias.id" (Some (in_id u)); Ok tt;
  elem_new n u := mkAlias (in_id u) n None None (in_metadataSchema u) (in_metadata u);
  elem_differs a u :=
    bool_decide (alias_metadataSchema a ≠ in_metadataSchema u)
    || bool_decide (canonicalize (alias_metadata a) ≠ canonicalize (in_metadata u));
  elem_write n u a :=
    mkAlias (alias_id a) (alias_created a) (Some n) (alias_deleted a)
            (in_metadataSchema u) (in_metadata u);
  elem_id_markDeleted _ _ := eq_refl;
  elem_deleted_markDeleted _ _ := eq_refl;
  elem_id_new _ _ := eq_refl;
  elem_deleted_new _ _ := eq_refl;
  elem_id_write _ _ _ := eq_refl;
  elem_deleted_write _ _ _ := eq_refl
|}.

#[global] Instance resourceReconcilable :
    Reconcilable IAuditableItemGraphResource ElementInput := {|
  elem_id := resource_id;
  elem_deleted := resource_deleted;
  elem_markDeleted n r :=
    mkResource (resource_id r) (resource_created r) (resource_updated r) (Some n)
               (resource_metadataSchema r) (resource_metadata r);
  input_id := in_id;
  input_guard u := _ ← Guards_stringValue "resource.id" (Some (in_id u)); Ok tt;
  elem_new n u := mkResource (in_id u) n None None (in_metadataSchema u) (in_metadata u);
  elem_differs r u :=
    bool_decide (resource_metadataSchema r ≠ in_metadataSchema u)
    || bool_decide (canonicalize (resource_metadata r) ≠ canonicalize (in_metadata u));
  elem_write n u r :=
    mkResource (resource_id r) (resource_created r) (Some n) (resource_deleted r)
               (in_metadataSchema u) (in_metadata u);
  elem_id_markDeleted _ _ := eq_refl;
  elem_deleted_markDeleted _ _ := eq_refl;
  elem_id_new _ _ := eq_refl;
  elem_deleted_new _ _ := eq_refl;
  elem_id_write _ _ _ := eq_refl;
  elem_deleted_write _ _ _ := eq_refl
|}.

#[global] Instance edgeReconcilable :
    Reconcilable IAuditableItemGraphEdge EdgeInput := {|
  elem_id := edge_id;
  elem_deleted := edge_deleted;
  elem_markDeleted n e :=
    mkEdge (edge_id e) (edge_created e) (edge_updated e) (Some n)
           (edge_relationship e) (edge_metadataSchema e) (edge_metadata e);
  input_id := ein_id;
  input_guard u :=
    _ ← Guards_stringValue "edge.id" (Some (ein_id u));
    _ ← Guards_stringValue "edge.relationship" (Some (ein_relationship u));
    Ok tt;
  elem_new n u :=
    mkEdge (ein_id u) n None None (ein_relationship u)
           (ein_metadataSchema u) (ein_metadata u);
  elem_differs e u :=
    bool_decide (edge_relationship e ≠ ein_relationship u)
    || bool_decide (edge_metadataSchema e ≠ ein_metadataSchema u)
    || bool_decide (canonicalize (edge_metadata e) ≠ canonicalize (ein_metadata u));
  elem_write n u e :=
    mkEdge (edge_id e) (edge_created e) (Some n) (edge_deleted e)
           (ein_relationship u) (ein_metadataSchema u) (ein_metadata u);
  elem_id_markDeleted _ _ := eq_refl;
  elem_deleted_markDeleted _ _ := eq_refl;
  elem_id_new _ _ := eq_refl;
  elem_deleted_new _ _ := eq_refl;
  elem_id_write _ _ _ := eq_refl;
  elem_deleted_write _ _ _ := eq_refl
|}.
End Elements.

(** Assignments to the properties of a vertex model. *)
Definition set_metadata (ms : option string) (m : option Json)
    (v : IAuditableItemGraphVertex) : IAuditableItemGraphVertex :=
  mkVertex (v_id v) (v_nodeIdentity v) (v_created v) (v_updated v) ms m
           (v_aliases v) (v_resources v) (v_edges v) (v_changesets v).

Definition set_aliases (l : option (list IAuditableItemGraphAlias))
    (v : IAuditableItemGraphVertex) : IAuditableItemGraphVertex :=
  mkVertex (v_id v) (v_nodeIdentity v) (v_created v) (v_updated v)
           (v_metadataSchema v) (v_metadata v)
           l (v_resources v) (v_edges v) (v_changesets v).

Definition set_resources (l : option (list IAuditableItemGraphResource))
    (v : IAuditableItemGraphVertex) : IAuditableItemGraphVertex :=
  mkVertex (v_id v) (v_nodeIdentity v) (v_created v) (v_updated v)
           (v_metadataSchema v) (v_metadata v)
           (v_aliases v) l (v_edges v) (v_changesets v).

Definition set_edges (l : option (list IAuditableItemGraphEdge))
    (v : IAuditableItemGraphVertex) : IAuditableItemGraphVertex :=
  mkVertex (v_id v) (v_nodeIdentity v) (v_created v) (v_updated v)
           (v_metadataSchema v) (v_metadata v)
           (v_aliases v) (v_resources v) l (v_changesets v).

Definition set_changesets (l : option (list IAuditableItemGraphChangeset))
    (v : IAuditableItemGraphVertex) : IAuditableItemGraphVertex :=
  mkVertex (v_id v) (v_nodeIdentity v) (v_created v) (v_updated v)
           (v_metadataSchema v) (v_metadata v)
           (v_aliases v) (v_resources v) (v_edges v) l.

Definition set_updated (n : N)
    (v : IAuditableItemGraphVertex) : IAuditableItemGraphVertex :=
  mkVertex (v_id v) (v_nodeIdentity v) (v_created v) n
           (v_metadataSchema v) (v_metadata v)
           (v_aliases v) (v_resources v) (v_edges v) (v_changesets v).

(** An out-of-band write of the [hash] of a stored changeset. *)
Definition set_hash (h : string)
    (c : IAuditableItemGraphChangeset) : IAuditableItemGraphChangeset :=
  mkChangeset (cs_created c) (cs_userIdentity c) (cs_patches c) h
              (cs_immutableStorageId c).

(** [changeset.immutableStorageId = id] and [delete changeset.immutableStorageId]. *)
Definition set_immutableStorageId (id : option string)
    (c : IAuditableItemGraphChangeset) : IAuditableItemGraphChangeset :=
  mkChangeset (cs_created c) (cs_userIdentity c) (cs_patches c) (cs_hash c) id.

(** ** Verification results *)

Record FailureProperties := mkFailureProperties {
  fp_hash : string;
  fp_epoch : N;
  fp_calculatedChangeset : IAuditableItemGraphChangeset;
  fp_integrityChangeset : option (list IPatchOperation);
  fp_integrityNodeIdentity : option string;
  fp_integrityUserIdentity : option string
}.

Record Verification := mkVerification {
  ver_created : N;
  ver_patches : list IPatchOperation;
  ver_failure : option string;
  ver_failureProperties : option FailureProperties
}.

(** The options and the result of [get]. *)
Record GetOptions := mkGetOptions {
  includeDeleted : option bool;
  includeChangesets : option bool;
  verifySignatureDepth : option VerifyDepth
}.

Record GetResult := mkGetResult {
  verified : option bool;
  verification : option (list Verification);
  vertex : IAuditableItemGraphVertex
}.

(** ** The service *)

Section ServiceOperations.
Context `{Collaborators}.

(** What the service reads and writes: the entity storage of the vertices,
    keyed by the vertex id, and the immutable storage. *)
Record World := mkWorld {
  _vertexStorage : gmap string AuditableItemGraphVertex;
  _integrityImmutableStorage : ImmutableStorage
}.

(** *** Reconcilers on the vertex model *)

(** [updateAlias]: [updateElement] on the aliases of the vertex. *)
Definition updateAlias (context : IAuditableItemGraphServiceContext)
    (vertexModel : IAuditableItemGraphVertex)
    (alias : ElementInput) : Result IAuditableItemGraphVertex :=
  aliases ← updateElement (now context) (v_aliases vertexModel) alias;
  Ok (set_aliases aliases vertexModel).

(** [updateAliasList]: the active aliases missing from the update list are
    marked deleted, then each item of the list goes through [updateAlias]. *)
Definition updateAliasList (context : IAuditableItemGraphServiceContext)
    (vertexModel : IAuditableItemGraphVertex)
    (aliases : option (list ElementInput)) : Result IAuditableItemGraphVertex :=
  let vertexModel :=
    set_aliases (tombstoneMissing (now context) (v_aliases vertexModel) aliases)
                vertexModel in
  if Is_arrayValue aliases
  then forEachM (updateAlias context) vertexModel (default [] aliases)
  else Ok vertexModel.

(** [updateResource]. *)
Definition updateResource (context : IAuditableItemGraphServiceContext)
    (vertexModel : IAuditableItemGraphVertex)
    (resource : ElementInput) : Result IAuditableItemGraphVertex :=
  resources ← updateElement (now context) (v_resources vertexModel) resource;
  Ok (set_resources resources vertexModel).

(** [updateResourceList]. *)
Definition updateResourceList (context : IAuditableItemGraphServiceContext)
    (vertexModel : IAuditableItemGraphVertex)
    (resources : option (list ElementInput)) : Result IAuditableItemGraphVertex :=
  let vertexModel :=
    set_resources (tombstoneMissing (now context) (v_resources vertexModel) resources)
                  vertexModel in
  if Is_arrayValue resources
  then forEachM (updateResource context) vertexModel (default [] resources)
  else Ok vertexModel.

(** [updateEdge]. *)
Definition updateEdge (context : IAuditableItemGraphServiceContext)
    (vertexModel : IAuditableItemGraphVertex)
    (edge : EdgeInput) : Result IAuditableItemGraphVertex :=
  edges ← updateElement (now context) (v_edges vertexModel) edge;
  Ok (set_edges edges vertexModel).

(** [updateEdgeList]. *)
Definition updateEdgeList (context : IAuditableItemGraphServiceContext)
    (vertexModel : IAuditableItemGraphVertex)
    (edges : option (list EdgeInput)) : Result IAuditableItemGraphVertex :=
  let vertexModel :=
    set_edges (tombstoneMissing (now context) (v_edges vertexModel) edges)
              vertexModel in
  if Is_arrayValue edges
  then forEachM (updateEdge context) vertexModel (default [] edges)
  else Ok vertexModel.

(** *** Model and entity *)

Definition aliasModelToEntity (a : IAuditableItemGraphAlias) : AuditableItemGraphAlias :=
  mkAliasEntity (alias_id a) (alias_created a) (alias_deleted a)
                (alias_metadataSchema a) (alias_metadata a).

Definition resourceModelToEntity (r : IAuditableItemGraphResource)
    : AuditableItemGraphResource :=
  mkResourceEntity (resource_id r) (resource_created r) (resource_deleted r)
                   (resource_metadataSchema r) (resource_metadata r).

Definition edgeModelToEntity (e : IAuditableItemGraphEdge) : AuditableItemGraphEdge :=
  mkEdgeEntity (edge_id e) (edge_created e) (edge_deleted e) (edge_relationship e)
               (edge_metadataSchema e) (edge_metadata e).

(** [if (Is.arrayValue(xs)) { out ??= []; for (x of xs) out.push(f(x)) }]. *)
Definition copyArray {A B} (f : A -> B) (xs : option (list A)) : option (list B) :=
  if Is_arrayValue xs then Some (f <$> default [] xs) else None.

Definition vertexModelToEntity (vertexModel : IAuditableItemGraphVertex)
    : AuditableItemGraphVertex :=
  {| e_id := v_id vertexModel;
     e_created := v_created vertexModel;
     e_updated := v_updated vertexModel;
     e_nodeIdentity := v_nodeIdentity vertexModel;
     e_metadataSchema := v_metadataSchema vertexModel;
     e_metadata := v_metadata vertexModel;
     e_aliasIndex :=
       if Is_arrayValue (v_aliases vertexModel)
       then Some (toLowerCase (join "||" (alias_id <$> default [] (v_aliases vertexModel))))
       else None;
     e_aliases := copyArray aliasModelToEntity (v_aliases vertexModel);
     e_resources := copyArray resourceModelToEntity (v_resources vertexModel);
     e_edges := copyArray edgeModelToEntity (v_edges vertexModel);
     e_changesets := copyArray id (v_changesets vertexModel) |}.

Definition aliasEntityToModel (a : AuditableItemGraphAlias) : IAuditableItemGraphAlias :=
  mkAlias (ae_id a) (ae_created a) None (ae_deleted a) (ae_metadataSchema a) (ae_metadata a).

Definition resourceEntityToModel (r : AuditableItemGraphResource)
    : IAuditableItemGraphResource :=
  mkResource (re_id r) (re_created r) None (re_deleted r)
             (re_metadataSchema r) (re_metadata r).

Definition edgeEntityToModel (e : AuditableItemGraphEdge) : IAuditableItemGraphEdge :=
  mkEdge (ee_id e) (ee_created e) None (ee_deleted e) (ee_relationship e)
         (ee_metadataSchema e) (ee_metadata e).

Definition vertexEntityToModel (vertexEntity : AuditableItemGraphVertex)
    : IAuditableItemGraphVertex :=
  {| v_id := e_id vertexEntity;
     v_created := e_created vertexEntity;
     v_updated := e_updated vertexEntity;
     v_nodeIdentity := e_nodeIdentity vertexEntity;
     v_metadataSchema := e_metadataSchema vertexEntity;
     v_metadata := e_metadata vertexEntity;
     v_aliases := copyArray aliasEntityToModel (e_aliases vertexEntity);
     v_resources := copyArray resourceEntityToModel (e_resources vertexEntity);
     v_edges := copyArray edgeEntityToModel (e_edges vertexEntity);
     v_changesets := copyArray id (e_changesets vertexEntity) |}.

(** *** The hash chain *)

(** The digest of one changeset: the previous raw digest when there is
    one, then the epoch in decimal, the user identity and the bytes of the
    patches, fed to one Blake2b object in this order. *)
Definition changesetDigest (previous : option (list byte)) (created : N)
    (user : string) (patches : list IPatchOperation) : list byte :=
  let b2b := Blake2b_new in
  let b2b := match previous with
             | Some h => b2b_update b2b h
             | None => b2b
             end in
  let b2b := b2b_update b2b (utf8ToBytes (toString created)) in
  let b2b := b2b_update b2b (utf8ToBytes user) in
  let b2b := b2b_update b2b (toBytes patches) in
  b2b_digest b2b.

(** The credential data anchored for a changeset. *)
Definition credentialData (svc : Service) (context : IAuditableItemGraphServiceContext)
    (patches : list IPatchOperation) (changeSetHash : list byte)
    : IAuditableItemGraphCredential :=
  let signature :=
    vault_sign (nodeIdentity context +:+ "/" +:+ _vaultKeyId svc) changeSetHash in
  {| cred_signature := bytesToBase64 signature;
     cred_integrity :=
       if _enableIntegrityCheck svc
       then
         let integrityData :=
           {| int_created := now context;
              int_userIdentity := userIdentity context;
              int_patches := patches |} in
         let canonical := canonicalizeIntegrity integrityData in
         let encrypted :=
           vault_encrypt (nodeIdentity context +:+ "/" +:+ _vaultKeyId svc)
                         (utf8ToBytes canonical) in
         Some (bytesToBase64 encrypted)
       else None |}.

(** [addChangeset]: the immutable storage after the call, the updated
    model and whether there were changes. *)
Definition addChangeset (svc : Service) (imm : ImmutableStorage)
    (context : IAuditableItemGraphServiceContext)
    (originalModel updatedModel : IAuditableItemGraphVertex)
    : ImmutableStorage * IAuditableItemGraphVertex * bool :=
  let patches := diff originalModel updatedModel in
  let changeSets := default [] (v_changesets originalModel) in
  if bool_decide (0 < length patches)%nat || bool_decide (length changeSets = 0%nat)
  then
    let changeSetHash :=
      changesetDigest ((fun c => base64ToBytes (cs_hash c)) <$> last changeSets)
                      (now context) (userIdentity context) patches in
    let verifiableCredential :=
      createVerifiableCredential
        (nodeIdentity context)
        (nodeIdentity context +:+ "#" +:+ _assertionMethodId svc)
        "AuditableItemGraphIntegrity"
        (credentialData svc context patches changeSetHash) in
    let '(imm', immutableStorageId) :=
      imm_store imm (nodeIdentity context) (utf8ToBytes verifiableCredential) in
    let changeSets :=
      changeSets ++ [ {| cs_created := now context;
                         cs_userIdentity := userIdentity context;
                         cs_patches := patches;
                         cs_hash := bytesToBase64 changeSetHash;
                         cs_immutableStorageId := Some immutableStorageId |} ] in
    (imm', set_changesets (Some changeSets) updatedModel, true)
  else (imm, updatedModel, false).

(** *** The verifier *)

(** The check of a credential against the local changeset: the failure, if
    any, and the three values reported with it.  [JSON.parse(canonical)]
    runs whether or not the payload is the canonical one; it is the total
    [parseIntegrity] here, so a payload that is not JSON, on which the
    source throws (and [get] fails with [getFailed]), is outside this
    model, like every exception of a collaborator. *)
Definition checkCredential (svc : Service) (imm : ImmutableStorage)
    (vertex : IAuditableItemGraphVertex)
    (calculatedChangeset : IAuditableItemGraphChangeset)
    (changesetSignature : list byte) (immutableStorageId : string)
    : option string * option (list IPatchOperation) * option string * option string :=
  let verifiableCredentialBytes := imm_get imm immutableStorageId in
  let verifiableCredentialJwt := bytesToUtf8 verifiableCredentialBytes in
  let verificationResult := checkVerifiableCredential verifiableCredentialJwt in
  if verificationResult.1
  then (Some "changesetCredentialRevoked", None, None, None)
  else
    let credentialData := default (mkCredential "" None) verificationResult.2 in
    let integrityNodeIdentity := Some (jwtKidIdentity verifiableCredentialJwt) in
    if bool_decide (cred_signature credentialData ≠ bytesToBase64 changesetSignature)
    then (Some "invalidChangesetSignature", None, integrityNodeIdentity, None)
    else if Is_stringValue (cred_integrity credentialData)
    then
      let decrypted :=
        vault_decrypt (v_nodeIdentity vertex +:+ "/" +:+ _vaultKeyId svc)
                      (base64ToBytes (default "" (cred_integrity credentialData))) in
      let canonical := bytesToUtf8 decrypted in
      let calculatedIntegrity :=
        {| int_created := cs_created calculatedChangeset;
           int_userIdentity := cs_userIdentity calculatedChangeset;
           int_patches := cs_patches calculatedChangeset |} in
      let failure :=
        if bool_decide (canonical ≠ canonicalizeIntegrity calculatedIntegrity)
        then Some "invalidChangesetCanonical"
        else None in
      let changesAndIdentity := parseIntegrity canonical in
      (failure, Some (int_patches changesAndIdentity), integrityNodeIdentity,
       Some (int_userIdentity changesAndIdentity))
    else (None, None, integrityNodeIdentity, None).

(** One turn of the loop of [verifyChangesets], for the changeset at index
    [i] of [len]: the recomputed digest (the next [lastHash]), the entry
    pushed on [verification], and whether the turn executes
    [verified = false]. *)
Definition verifyChangeset (svc : Service) (imm : ImmutableStorage)
    (vertex : IAuditableItemGraphVertex) (depth : VerifyDepth)
    (len i : nat) (lastHash : option (list byte))
    (calculatedChangeset : IAuditableItemGraphChangeset)
    : list byte * Verification * bool :=
  let verify := mkVerification (cs_created calculatedChangeset)
                               (cs_patches calculatedChangeset) None None in
  let verifyHash :=
    changesetDigest lastHash (cs_created calculatedChangeset)
                    (cs_userIdentity calculatedChangeset)
                    (cs_patches calculatedChangeset) in
  if bool_decide (bytesToBase64 verifyHash ≠ cs_hash calculatedChangeset)
  then
    (verifyHash,
     mkVerification (ver_created verify) (ver_patches verify)
                    (Some "invalidChangesetHash") None,
     false)
  else if match depth with
          | VerifyAll => true
          | VerifyCurrent => bool_decide (i = (len - 1)%nat)
          | VerifyNone => false
          end
  then
    let changesetSignature :=
      vault_sign (v_nodeIdentity vertex +:+ "/" +:+ _vaultKeyId svc) verifyHash in
    let '(failure, integrityPatches, integrityNodeIdentity, integrityUserIdentity) :=
      if Is_stringValue (cs_immutableStorageId calculatedChangeset)
      then checkCredential svc imm vertex calculatedChangeset changesetSignature
                           (default "" (cs_immutableStorageId calculatedChangeset))
      else (None, None, None, None) in
    if Is_stringValue failure
    then
      (verifyHash,
       mkVerification (ver_created verify) (ver_patches verify) failure
         (Some {| fp_hash := cs_hash calculatedChangeset;
                  fp_epoch := cs_created calculatedChangeset;
                  fp_calculatedChangeset := calculatedChangeset;
                  fp_integrityChangeset := integrityPatches;
                  fp_integrityNodeIdentity := integrityNodeIdentity;
                  fp_integrityUserIdentity := integrityUserIdentity |}),
       true)
    else (verifyHash, verify, false)
  else (verifyHash, verify, false).

(** The loop of [verifyChangesets] from index [i] on. *)
Fixpoint verifyLoop (svc : Service) (imm : ImmutableStorage)
    (vertex : IAuditableItemGraphVertex) (depth : VerifyDepth)
    (len i : nat) (lastHash : option (list byte)) (verified : bool)
    (changesets : list IAuditableItemGraphChangeset)
    : bool * list Verification :=
  match changesets with
  | [] => (verified, [])
  | c :: rest =>
      let '(verifyHash, verify, failed) :=
        verifyChangeset svc imm vertex depth len i lastHash c in
      let '(verified', verification) :=
        verifyLoop svc imm vertex depth len (S i) (Some verifyHash)
                   (if failed then false else verified) rest in
      (verified', verify :: verification)
  end.

Definition verifyChangesets (svc : Service) (imm : ImmutableStorage)
    (vertex : IAuditableItemGraphVertex) (verifySignatureDepth : VerifyDepth)
    : bool * list Verification :=
  if Is_arrayValue (v_changesets vertex)
  then
    let changesets := default [] (v_changesets vertex) in
    verifyLoop svc imm vertex verifySignatureDepth (length changesets) 0 None true
               changesets
  else (true, []).
End ServiceOperations.

Arguments updateAliasList : simpl never.
Arguments updateResourceList : simpl never.
Arguments updateEdgeList : simpl never.

Section Operations.
Context `{Collaborators}.

(** *** create *)

(** [now] is the value of [Date.now()] and [id] the lowercase hex
    rendering of the 32 random bytes drawn by the call. *)
Definition create (svc : Service) (w : World) (now : N) (id : string)
    (metadataSchema : option string) (metadata : option Json)
    (aliases resources : option (list ElementInput))
    (edges : option (list EdgeInput))
    (identity nodeIdentity : option string) : Result (World * string) :=
  identity ← Guards_stringValue "identity" identity;
  nodeIdentity ← Guards_stringValue "nodeIdentity" nodeIdentity;
  catchWith createFailed (
    let context := {| now := now; userIdentity := identity; nodeIdentity := nodeIdentity |} in
    let vertexModel :=
      {| v_id := id; v_nodeIdentity := nodeIdentity;
         v_created := now; v_updated := now;
         v_metadataSchema := None; v_metadata := None;
         v_aliases := None; v_resources := None; v_edges := None;
         v_changesets := None |} in
    let originalModel := vertexModel in
    let vertexModel := set_metadata metadataSchema metadata vertexModel in
    vertexModel ← updateAliasList context vertexModel aliases;
    vertexModel ← updateResourceList context vertexModel resources;
    vertexModel ← updateEdgeList context vertexModel edges;
    let '(imm, vertexModel, _) :=
      addChangeset svc (_integrityImmutableStorage w) context originalModel vertexModel in
    let entity := vertexModelToEntity vertexModel in
    Ok ({| _vertexStorage := <[e_id entity := entity]> (_vertexStorage w);
           _integrityImmutableStorage := imm |},
        Urn_toString NAMESPACE id)).

(** *** get *)

(** [xs = xs.filter(x => Is.undefined(x.deleted)); if (xs.length === 0) delete xs],
    under [Is.arrayValue(xs)]. *)
Definition dropDeleted {A} (deleted : A -> option N) (xs : option (list A))
    : option (list A) :=
  if Is_arrayValue xs
  then
    let l := List.filter (fun a => Is_undefined (deleted a)) (default [] xs) in
    if bool_decide (length l = 0%nat) then None else Some l
  else xs.

(** The URN checks shared by [get], [update] and [removeImmutable]: the id
    of the vertex inside the [aig] namespace. *)
Definition vertexIdOfUrn (id : string) : Result string :=
  match Urn_fromValidString id with
  | None => Err invalidUrn
  | Some (namespaceIdentifier, namespaceSpecific) =>
      if bool_decide (namespaceIdentifier ≠ NAMESPACE)
      then Err namespaceMismatch
      else Ok namespaceSpecific
  end.

Definition get (svc : Service) (w : World) (id : string)
    (options : option GetOptions) : Result GetResult :=
  id ← Guards_stringValue "id" (Some id);
  vertexId ← vertexIdOfUrn id;
  catchWith getFailed (
    match _vertexStorage w !! vertexId with
    | None => Err vertexNotFound
    | Some vertexEntity =>
        let vertexModel := vertexEntityToModel vertexEntity in
        let '(verified, verification) :=
          match options ≫= verifySignatureDepth with
          | Some VerifyCurrent =>
              let verifyResult :=
                verifyChangesets svc (_integrityImmutableStorage w) vertexModel VerifyCurrent in
              (Some verifyResult.1, Some verifyResult.2)
          | Some VerifyAll =>
              let verifyResult :=
                verifyChangesets svc (_integrityImmutableStorage w) vertexModel VerifyAll in
              (Some verifyResult.1, Some verifyResult.2)
          | _ => (None, None)
          end in
        let vertexModel :=
          if negb (default false (options ≫= includeDeleted))
          then
            set_edges (dropDeleted edge_deleted (v_edges vertexModel))
              (set_resources (dropDeleted resource_deleted (v_resources vertexModel))
                 (set_aliases (dropDeleted alias_deleted (v_aliases vertexModel))
                    vertexModel))
          else vertexModel in
        let vertexModel :=
          if negb (default false (options ≫= includeChangesets))
          then set_changesets None vertexModel
          else vertexModel in
        Ok {| verified := verified; verification := verification; vertex := vertexModel |}
    end).

(** *** update *)

Definition update (svc : Service) (w : World) (now : N) (id : string)
    (metadataSchema : option string) (metadata : option Json)
    (aliases resources : option (list ElementInput))
    (edges : option (list EdgeInput))
    (identity nodeIdentity : option string) : Result World :=
  id ← Guards_stringValue "id" (Some id);
  identity ← Guards_stringValue "identity" identity;
  nodeIdentity ← Guards_stringValue "nodeIdentity" nodeIdentity;
  vertexId ← vertexIdOfUrn id;
  catchWith updateFailed (
    match _vertexStorage w !! vertexId with
    | None => Err vertexNotFound
    | Some vertexEntity =>
        let context :=
          {| now := now; userIdentity := identity; nodeIdentity := nodeIdentity |} in
        let vertexModel := vertexEntityToModel vertexEntity in
        let originalModel := vertexModel in
        let vertexModel := set_metadata metadataSchema metadata vertexModel in
        vertexModel ← updateAliasList context vertexModel aliases;
        vertexModel ← updateResourceList context vertexModel resources;
        vertexModel ← updateEdgeList context vertexModel edges;
        let '(imm, vertexModel, changes) :=
          addChangeset svc (_integrityImmutableStorage w) context originalModel vertexModel in
        if changes
        then
          let entity := vertexModelToEntity (set_updated now vertexModel) in
          Ok {| _vertexStorage := <[e_id entity := entity]> (_vertexStorage w);
                _integrityImmutableStorage := imm |}
        else
          Ok {| _vertexStorage := _vertexStorage w;
                _integrityImmutableStorage := imm |}
    end).

(** *** removeImmutable *)

(** The loop over the changesets of the entity: the immutable storage after
    the [remove] calls, the changesets after the [delete]s, [hasChanged]. *)
Fixpoint removeImmutableLoop (imm : ImmutableStorage) (nodeIdentity : string)
    (changesets : list IAuditableItemGraphChangeset)
    : ImmutableStorage * list IAuditableItemGraphChangeset * bool :=
  match changesets with
  | [] => (imm, [], false)
  | changeset :: rest =>
      if Is_stringValue (cs_immutableStorageId changeset)
      then
        let imm :=
          imm_remove imm nodeIdentity (default "" (cs_immutableStorageId changeset)) in
        let '(imm, rest, _) := removeImmutableLoop imm nodeIdentity rest in
        (imm, set_immutableStorageId None changeset :: rest, true)
      else
        let '(imm, rest, hasChanged) := removeImmutableLoop imm nodeIdentity rest in
        (imm, changeset :: rest, hasChanged)
  end.

Definition set_e_changesets (l : option (list IAuditableItemGraphChangeset))
    (e : AuditableItemGraphVertex) : AuditableItemGraphVertex :=
  mkVertexEntity (e_id e) (e_created e) (e_updated e) (e_nodeIdentity e)
                 (e_metadataSchema e) (e_metadata e) (e_aliasIndex e)
                 (e_aliases e) (e_resources e) (e_edges e) l.

Definition removeImmutable (w : World) (id : string) (nodeIdentity : option string)
    : Result World :=
  id ← Guards_stringValue "id" (Some id);
  nodeIdentity ← Guards_stringValue "nodeIdentity" nodeIdentity;
  vertexId ← vertexIdOfUrn id;
  catchWith removeImmutableFailed (
    match _vertexStorage w !! vertexId with
    | None => Err vertexNotFound
    | Some vertexEntity =>
        if Is_arrayValue (e_changesets vertexEntity)
        then
          let '(imm, changesets, hasChanged) :=
            removeImmutableLoop (_integrityImmutableStorage w) nodeIdentity
                                (default [] (e_changesets vertexEntity)) in
          if hasChanged
          then
            let vertexEntity := set_e_changesets (Some changesets) vertexEntity in
            Ok {| _vertexStorage := <[e_id vertexEntity := vertexEntity]> (_vertexStorage w);
                  _integrityImmutableStorage := imm |}
          else Ok w
        else Ok w
    end).

(** *** Worlds the service can reach

    From an empty vertex storage, by any sequence of successful [create],
    [update] and [removeImmutable] calls. *)
Inductive reachable (svc : Service) : World -> Prop :=
| reachable_empty imm :
    reachable svc {| _vertexStorage := ∅; _integrityImmutableStorage := imm |}
| reachable_create w now id metadataSchema metadata aliases resources edges
                   identity nodeIdentity w' urn :
    reachable svc w ->
    create svc w now id metadataSchema metadata aliases resources edges
           identity nodeIdentity = Ok (w', urn) ->
    reachable svc w'
| reachable_update w now id metadataSchema metadata aliases resources edges
                   identity nodeIdentity w' :
    reachable svc w ->
    update svc w now id metadataSchema metadata aliases resources edges
           identity nodeIdentity = Ok w' ->
    reachable svc w'
| reachable_removeImmutable w id nodeIdentity w' :
    reachable svc w ->
    removeImmutable w id nodeIdentity = Ok w' ->
    reachable svc w'.
End Operations.

(** ** A concrete set of collaborators

    Small executable stand-ins, used to run the service on concrete inputs:
    an in-memory immutable storage, an injective digest, reversible
    encodings, a printer for structured values, and a difference over the
    top-level properties of a vertex. *)
Module TestEnv.

Definition quote : string := String "034"%char EmptyString.

Fixpoint printJson (j : Json) : string :=
  match j with
  | JNull => "null"
  | JBool true => "true"
  | JBool false => "false"
  | JNumber n => NilEmpty.string_of_int (Z.to_int n)
  | JString s => quote +:+ s +:+ quote
  | JArray items => "[" +:+ join "," (map printJson items) +:+ "]"
  | JObject members =>
      "{" +:+ join "," (map (fun kv => quote +:+ kv.1 +:+ quote +:+ ":" +:+ printJson kv.2)
                            members) +:+ "}"
  end.

Definition printOption (o : option Json) : string :=
  match o with
  | Some j => printJson j
  | None => "undefined"
  end.

Definition patchToJson (p : IPatchOperation) : Json :=
  JObject ([("op", JString (op p)); ("path", JString (path p))]
           ++ match value p with Some v => [("value", v)] | None => [] end).

Definition integrityToJson (i : IAuditableItemGraphIntegrity) : Json :=
  JObject [("created", JNumber (Z.of_N (int_created i)));
           ("patches", JArray (map patchToJson (int_patches i)));
           ("userIdentity", JString (int_userIdentity i))].

Definition optionalMember (k : string) (f : N -> Json) (o : option N)
    : list (string * Json) :=
  match o with Some n => [(k, f n)] | None => [] end.

Definition epochToJson (n : N) : Json := JNumber (Z.of_N n).

Definition metadataMembers (ms : option string) (m : option Json) : list (string * Json) :=
  match ms with Some s => [("metadataSchema", JString s)] | None => [] end
  ++ match m with Some j => [("metadata", j)] | None => [] end.

Definition aliasToJson (a : IAuditableItemGraphAlias) : Json :=
  JObject ([("id", JString (alias_id a)); ("created", epochToJson (alias_created a))]
           ++ optionalMember "updated" epochToJson (alias_updated a)
           ++ optionalMember "deleted" epochToJson (alias_deleted a)
           ++ metadataMembers (alias_metadataSchema a) (alias_metadata a)).

Definition resourceToJson (r : IAuditableItemGraphResource) : Json :=
  JObject ([("id", JString (resource_id r)); ("created", epochToJson (resource_created r))]
           ++ optionalMember "updated" epochToJson (resource_updated r)
           ++ optionalMember "deleted" epochToJson (resource_deleted r)
           ++ metadataMembers (resource_metadataSchema r) (resource_metadata r)).

Definition edgeToJson (e : IAuditableItemGraphEdge) : Json :=
  JObject ([("id", JString (edge_id e)); ("created", epochToJson (edge_created e))]
           ++ optionalMember "updated" epochToJson (edge_updated e)
           ++ optionalMember "deleted" epochToJson (edge_deleted e)
           ++ [("relationship", JString (edge_relationship e))]
           ++ metadataMembers (edge_metadataSchema e) (edge_metadata e)).

(** The difference at one top-level property: add, replace or remove. *)
Definition diffProperty (path : string) (old new : option Json) : list IPatchOperation :=
  match old, new with
  | None, None => []
  | None, Some v => [mkPatch "add" path (Some v)]
  | Some _, None => [mkPatch "remove" path None]
  | Some a, Some b =>
      if bool_decide (printJson a = printJson b) then []
      else [mkPatch "replace" path (Some b)]
  end.

Definition arrayToJson {A} (f : A -> Json) (xs : option (list A)) : option Json :=
  (fun l => JArray (map f l)) <$> xs.

Definition diffVertex (P U : IAuditableItemGraphVertex) : list IPatchOperation :=
  diffProperty "/metadataSchema" (JString <$> v_metadataSchema P) (JString <$> v_metadataSchema U)
  ++ diffProperty "/metadata" (v_metadata P) (v_metadata U)
  ++ diffProperty "/aliases" (arrayToJson aliasToJson (v_aliases P))
                             (arrayToJson aliasToJson (v_aliases U))
  ++ diffProperty "/resources" (arrayToJson resourceToJson (v_resources P))
                               (arrayToJson resourceToJson (v_resources U))
  ++ diffProperty "/edges" (arrayToJson edgeToJson (v_edges P))
                           (arrayToJson edgeToJson (v_edges U)).

Definition lowerAscii (c : ascii) : ascii :=
  let n := nat_of_ascii c in
  if (Nat.leb 65 n && Nat.leb n 90)%bool then ascii_of_nat (n + 32) else c.

Fixpoint lowerString (s : string) : string :=
  match s with
  | EmptyString => EmptyString
  | String c rest => String (lowerAscii c) (lowerString rest)
  end.

(** The text before and after the first occurrence of [sep]. *)
Fixpoint splitAt (sep : ascii) (s : string) : option (string * string) :=
  match s with
  | EmptyString => None
  | String c rest =>
      if Ascii.eqb c sep then Some (EmptyString, rest)
      else match splitAt sep rest with
           | Some (a, b) => Some (String c a, b)
           | None => None
           end
  end.

(** A credential as text: the signature, a dot, the integrity if any. *)
Definition printCredential (c : IAuditableItemGraphCredential) : string :=
  cred_signature c +:+ "." +:+ default "" (cred_integrity c).

Definition parseCredential (jwt : string) : option IAuditableItemGraphCredential :=
  match splitAt "."%char jwt with
  | Some (signature, integrity) =>
      Some (mkCredential signature
              (if bool_decide (integrity = "") then None else Some integrity))
  | None => None
  end.

(** The in-memory immutable storage: a counter for the ids and the items. *)
Record MemoryImmutableStorage := mkMemory {
  mem_next : N;
  mem_items : list (string * list byte)
}.

Definition memoryStore (m : MemoryImmutableStorage) (controller : string)
    (data : list byte) : MemoryImmutableStorage * string :=
  let id := "immutable:" +:+ toString (mem_next m) in
  (mkMemory (mem_next m + 1) (mem_items m ++ [(id, data)]), id).

Definition memoryGet (m : MemoryImmutableStorage) (id : string) : list byte :=
  match List.find (fun kv => bool_decide (kv.1 = id)) (mem_items m) with
  | Some kv => kv.2
  | None => []
  end.

Definition memoryRemove (m : MemoryImmutableStorage) (controller id : string)
    : MemoryImmutableStorage :=
  mkMemory (mem_next m) (List.filter (fun kv => negb (bool_decide (kv.1 = id))) (mem_items m)).

#[export] Instance collaborators : Collaborators := {|
  blake2b256 b := b;
  bytesToBase64 := string_of_list_byte;
  base64ToBytes := list_byte_of_string;
  toBytes patches := utf8ToBytes (printJson (JArray (map patchToJson patches)));
  canonicalize := printOption;
  canonicalizeIntegrity i := printJson (integrityToJson i);
  parseIntegrity s := mkIntegrity 0 s [];
  diff := diffVertex;
  toLowerCase := lowerString;
  Urn_fromValidString := splitAt ":"%char;
  Urn_toString ns id := ns +:+ ":" +:+ id;
  vault_sign key data := utf8ToBytes key ++ data;
  vault_encrypt key data := data;
  vault_decrypt key data := data;
  createVerifiableCredential issuer method type subject := printCredential subject;
  checkVerifiableCredential jwt := (false, parseCredential jwt);
  jwtKidIdentity jwt := "";
  ImmutableStorage := MemoryImmutableStorage;
  imm_store := memoryStore;
  imm_get := memoryGet;
  imm_remove := memoryRemove
|}.

Definition service : Service := newService (Some (mkConfig None None (Some true))).

Definition emptyWorld : World :=
  {| _vertexStorage := ∅; _integrityImmutableStorage := mkMemory 0 [] |}.

Definition FIRST_TICK : N := 1724327716271.
Definition SECOND_TICK : N := 1724327816272.
Definition THIRD_TICK : N := 1724327916273.
Definition TEST_USER_IDENTITY : string := "did:test:user".
Definition TEST_NODE_IDENTITY : string := "did:test:node".
Definition VERTEX_ID : string :=
  "0101010101010101010101010101010101010101010101010101010101010101".

(** The world after a successful call, or the world before it. *)
Definition runCreate (r : Result (World * string)) (w : World) : World :=
  match r with Ok (w', _) => w' | Err _ => w end.

Definition runUpdate (r : Result World) (w : World) : World :=
  match r with Ok w' => w' | Err _ => w end.
End TestEnv.

(** ** Vocabulary of the properties *)

Section ReconcilerVocabulary.
Context {E U : Type} `{Reconcilable E U}.

(** Every live element gets [deleted = now]; tombstones stay as they are
    and nothing is added. *)
Definition tombstoneLive (now : N) (e : E) : E :=
  if Is_empty (elem_deleted e) then elem_markDeleted now e else e.

Definition tombstoneAll (now : N) (elems : option (list E)) : option (list E) :=
  (fun l : list E => tombstoneLive now <$> l) <$> elems.

(** The ids of a collection, in order. *)
Definition idsOf (elems : option (list E)) : list string :=
  elem_id <$> default [] elems.

(** No item of the update list carries the id of an element that is
    already soft-deleted (with a truthy [deleted], as [updateX] tests it). *)
Definition noTombstoneResupplied (elems : option (list E))
    (upd : option (list U)) : bool :=
  forallb (fun e => implb (truthy (elem_deleted e))
                          (negb (inUpdateList upd (elem_id e))))
          (default [] elems).
End ReconcilerVocabulary.

Section Vocabulary.
Context `{Collaborators}.

(** The raw digests of a list of changesets, each chained to the digest
    before it; the first one has no predecessor. *)
Fixpoint chainDigests (previous : option (list byte))
    (changesets : list IAuditableItemGraphChangeset) : list (list byte) :=
  match changesets with
  | [] => []
  | c :: rest =>
      let d := changesetDigest previous (cs_created c) (cs_userIdentity c)
                               (cs_patches c) in
      d :: chainDigests (Some d) rest
  end.

(** The digest chained into the changeset that follows [changesets]. *)
Definition lastDigest (previous : option (list byte))
    (changesets : list IAuditableItemGraphChangeset) : option (list byte) :=
  match last (chainDigests previous changesets) with
  | Some d => Some d
  | None => previous
  end.

(** The bytes chained into the digest of the changeset at index [i]: the
    raw digest of the changeset before it, nothing for the first one. *)
Definition previousDigest (changesets : list IAuditableItemGraphChangeset)
    (i : nat) : list byte :=
  match i with
  | O => []
  | S j => default [] (chainDigests None changesets !! j)
  end.

(** Every stored hash is the base64 of the digest of its changeset. *)
Definition chainValid (changesets : list IAuditableItemGraphChangeset) : Prop :=
  cs_hash <$> changesets = bytesToBase64 <$> chainDigests None changesets.

(** The digests of a list of changesets written out in full: each one is
    Blake2b-256 of the digest before it ([link], nothing for the first
    changeset), the decimal digits of [created], the bytes of
    [userIdentity] and the serialised patches.  No stored [hash] enters
    them. *)
Fixpoint linkedDigests (link : list byte)
    (changesets : list IAuditableItemGraphChangeset) : list (list byte) :=
  match changesets with
  | [] => []
  | c :: rest =>
      let digest :=
        blake2b256 (link ++ utf8ToBytes (toString (cs_created c))
                    ++ utf8ToBytes (cs_userIdentity c) ++ toBytes (cs_patches c)) in
      digest :: linkedDigests digest rest
  end.

(** The vertex storage keeps every entity under its own id. *)
Definition wellKeyed (w : World) : Prop :=
  ∀ k e, _vertexStorage w !! k = Some e -> e_id e = k.

(** The alias index computed from the aliases of an entity. *)
Definition aliasIndexOf (aliases : option (list AuditableItemGraphAlias))
    : option string :=
  match aliases with
  | Some (a :: rest) => Some (toLowerCase (join "||" (ae_id <$> a :: rest)))
  | _ => None
  end.

(** Ids are unique within each collection of an entity. *)
Definition uniqueIds (e : AuditableItemGraphVertex) : Prop :=
  NoDup (ae_id <$> default [] (e_aliases e))
  ∧ NoDup (re_id <$> default [] (e_resources e))
  ∧ NoDup (ee_id <$> default [] (e_edges e)).

(** The elements of a collection without a [deleted] epoch, in order; no
    collection at all when there is none. *)
Definition liveOnly {A} (deleted : A -> option N) (xs : option (list A))
    : option (list A) :=
  match List.filter (fun a => Is_undefined (deleted a)) (default [] xs) with
  | [] => None
  | l => Some l
  end.

Definition allUniqueIds (w : World) : Prop :=
  ∀ k e, _vertexStorage w !! k = Some e -> uniqueIds e.

(** A changeset after [delete changeset.immutableStorageId], when
    [Is.stringValue] holds of the id. *)
Definition detach (c : IAuditableItemGraphChangeset) : IAuditableItemGraphChangeset :=
  if Is_stringValue (cs_immutableStorageId c)
  then set_immutableStorageId None c
  else c.

(** The ids [removeImmutable] passes to [remove], in order. *)
Definition attachedIds (changesets : list IAuditableItemGraphChangeset) : list string :=
  omap (fun c => if Is_stringValue (cs_immutableStorageId c)
                 then cs_immutableStorageId c else None)
       changesets.

(** An update call whose lists supply no id of an element of the stored
    vertex that is already soft-deleted. *)
Definition suppliesNoTombstone (w : World) (id : string)
    (aliases resources : option (list ElementInput))
    (edges : option (list EdgeInput)) : bool :=
  match vertexIdOfUrn id with
  | Ok vertexId =>
      match _vertexStorage w !! vertexId with
      | Some e =>
          let v := vertexEntityToModel e in
          noTombstoneResupplied (v_aliases v) aliases
          && noTombstoneResupplied (v_resources v) resources
          && noTombstoneResupplied (v_edges v) edges
      | None => true
      end
  | Err _ => true
  end.

(** The worlds reached by calls among which no update supplies the id of a
    soft-deleted element again. *)
Inductive reachableWithoutResupply (svc : Service) : World -> Prop :=
| fresh_empty imm :
    reachableWithoutResupply svc
      {| _vertexStorage := ∅; _integrityImmutableStorage := imm |}
| fresh_create w now id metadataSchema metadata aliases resources edges
               identity nodeIdentity w' urn :
    reachableWithoutResupply svc w ->
    create svc w now id metadataSchema metadata aliases resources edges
           identity nodeIdentity = Ok (w', urn) ->
    reachableWithoutResupply svc w'
| fresh_update w now id metadataSchema metadata aliases resources edges
               identity nodeIdentity w' :
    reachableWithoutResupply svc w ->
    suppliesNoTombstone w id aliases resources edges = true ->
    update svc w now id metadataSchema metadata aliases resources edges
           identity nodeIdentity = Ok w' ->
    reachableWithoutResupply svc w'
| fresh_removeImmutable w id nodeIdentity w' :
    reachableWithoutResupply svc w ->
    removeImmutable w id nodeIdentity = Ok w' ->
    reachableWithoutResupply svc w'.

(** The guards at the head of [updateAlias], [updateResource] and
    [updateEdge] pass for every item of the lists. *)
Definition validElementInputs (l : option (list ElementInput)) : bool :=
  forallb (fun u => bool_decide (in_id u ≠ "")) (default [] l).

Definition validEdgeInputs (l : option (list EdgeInput)) : bool :=
  forallb (fun u => bool_decide (ein_id u ≠ "")
                    && bool_decide (ein_relationship u ≠ ""))
          (default [] l).

(** The model after the assignments and the three reconcilers that [create]
    and [update] run between cloning the snapshot and [addChangeset]. *)
Definition reconcile (context : IAuditableItemGraphServiceContext)
    (vertexModel : IAuditableItemGraphVertex)
    (metadataSchema : option string) (metadata : option Json)
    (aliases resources : option (list ElementInput))
    (edges : option (list EdgeInput)) : Result IAuditableItemGraphVertex :=
  let vertexModel := set_metadata metadataSchema metadata vertexModel in
  vertexModel ← updateAliasList context vertexModel aliases;
  vertexModel ← updateResourceList context vertexModel resources;
  updateEdgeList context vertexModel edges.

(** The zero-value vertex [create] starts from. *)
Definition zeroVertex (id nodeIdentity : string) (now : N) : IAuditableItemGraphVertex :=
  {| v_id := id; v_nodeIdentity := nodeIdentity;
     v_created := now; v_updated := now;
     v_metadataSchema := None; v_metadata := None;
     v_aliases := None; v_resources := None; v_edges := None;
     v_changesets := None |}.
End Vocabulary.

(** ** Scenarios

    Concrete runs of the service over the collaborators of [TestEnv]. *)
Module Scenarios.
Import TestEnv.

Definition VERTEX_URN : string := "aig:" +:+ VERTEX_ID.
Definition user : option string := Some TEST_USER_IDENTITY.
Definition node : option string := Some TEST_NODE_IDENTITY.

Definition foo123 : ElementInput := mkElementInput "foo123" None None.
Definition bar456 : ElementInput := mkElementInput "bar456" None None.

(** create with the aliases foo123 and bar456, at the first tick. *)
Definition created : World :=
  runCreate (create service emptyWorld FIRST_TICK VERTEX_ID None None
                    (Some [foo123; bar456]) None None user node) emptyWorld.

(** then update with every list absent, at the second tick. *)
Definition updatedAbsent : World :=
  runUpdate (update service created SECOND_TICK VERTEX_URN None None
                    None None None user node) created.

(** Alias swap: create with foo123 and bar456, then update to foo321 and
    bar456. *)
Definition foo321 : ElementInput := mkElementInput "foo321" None None.

Definition swapped : World :=
  runUpdate (update service created SECOND_TICK VERTEX_URN None None
                    (Some [foo321; bar456]) None None user node) created.

(** Re-creation: create with foo123 and bar456, update with an empty alias
    list, then update with foo123 again. *)
Definition emptied : World :=
  runUpdate (update service created SECOND_TICK VERTEX_URN None None
                    (Some []) None None user node) created.

Definition recreated : World :=
  runUpdate (update service emptied THIRD_TICK VERTEX_URN None None
                    (Some [foo123]) None None user node) emptied.

(** The same update once more. *)
Definition recreatedTwice : World :=
  runUpdate (update service recreated (THIRD_TICK + 1) VERTEX_URN None None
                    (Some [foo123]) None None user node) recreated.

(** create with a metadata schema and a metadata value. *)
Definition createdWithMetadata : World :=
  runCreate (create service emptyWorld FIRST_TICK VERTEX_ID
                    (Some "Note") (Some (JString "This is a simple note"))
                    None None None user node) emptyWorld.

(** The alias swap, with the stored hash of the first changeset overwritten
    behind the back of the service. *)
Definition tamperFirstHash (e : AuditableItemGraphVertex) : AuditableItemGraphVertex :=
  set_e_changesets
    ((fun l : list IAuditableItemGraphChangeset => alter (set_hash "tampered") 0%nat l)
       <$> e_changesets e) e.

Definition tampered : World :=
  {| _vertexStorage := alter tamperFirstHash VERTEX_ID (_vertexStorage swapped);
     _integrityImmutableStorage := _integrityImmutableStorage swapped |}.

Definition verifyAll : option GetOptions :=
  Some {| includeDeleted := Some true; includeChangesets := Some true;
          verifySignatureDepth := Some VerifyAll |}.

(** The failures reported by a [get] with full verification. *)
Definition reportedFailures (r : Result GetResult) : list (option string) :=
  match r with
  | Ok r => ver_failure <$> default [] (verification r)
  | Err _ => []
  end.

Definition reportedVerified (r : Result GetResult) : option bool :=
  match r with
  | Ok r => verified r
  | Err _ => None
  end.

(** The alias swap after [removeImmutable]. *)
Definition detached : World :=
  runUpdate (removeImmutable swapped VERTEX_URN node) swapped.

(** The [deleted] epochs of the stored aliases of the vertex. *)
Definition storedAliases (w : World) : list AuditableItemGraphAlias :=
  match _vertexStorage w !! VERTEX_ID with
  | Some e => default [] (e_aliases e)
  | None => []
  end.

Definition aliasDeletions (w : World) : list (option N) :=
  ae_deleted <$> storedAliases w.

Definition aliasIds (w : World) : list string :=
  ae_id <$> storedAliases w.
End Scenarios.

(** ** The collaborators of the repository's tests

    [TestEnv] with the hash function and the encodings of the deployed
    service in place of its stand-ins: Blake2b-256 (RFC 7693), base64
    (RFC 4648) and, for [JsonHelper.canonicalize], JSON with the members of
    every object sorted by key (RFC 8785).  The identities are those that
    setupTestEnv.ts obtains from its identity connector. *)
Module HashEnv.

(** Blake2b without a key, on 64-bit words. *)
Definition word (x : Z) : Z := Z.land x 0xFFFFFFFFFFFFFFFF.

Definition rotr (x n : Z) : Z :=
  Z.lor (Z.shiftr x n) (word (Z.shiftl x (64 - n))).

Definition IV : list Z :=
  [0x6A09E667F3BCC908; 0xBB67AE8584CAA73B; 0x3C6EF372FE94F82B; 0xA54FF53A5F1D36F1;
   0x510E527FADE682D1; 0x9B05688C2B3E6C1F; 0x1F83D9ABFB41BD6B; 0x5BE0CD19137E2179]%Z.

Definition SIGMA : list (list nat) :=
  [[0; 1; 2; 3; 4; 5; 6; 7; 8; 9; 10; 11; 12; 13; 14; 15];
   [14; 10; 4; 8; 9; 15; 13; 6; 1; 12; 0; 2; 11; 7; 5; 3];
   [11; 8; 12; 0; 5; 2; 15; 13; 10; 14; 3; 6; 7; 1; 9; 4];
   [7; 9; 3; 1; 13; 12; 11; 14; 2; 6; 5; 10; 4; 0; 15; 8];
   [9; 0; 5; 7; 2; 4; 10; 15; 14; 1; 11; 12; 6; 8; 3; 13];
   [2; 12; 6; 10; 0; 11; 8; 3; 4; 13; 7; 5; 15; 14; 1; 9];
   [12; 5; 1; 15; 14; 13; 4; 10; 0; 7; 6; 3; 9; 2; 8; 11];
   [13; 11; 7; 14; 12; 1; 3; 9; 5; 0; 15; 4; 8; 6; 2; 10];
   [6; 15; 14; 9; 11; 3; 0; 8; 12; 2; 13; 7; 1; 4; 10; 5];
   [10; 2; 8; 4; 7; 6; 1; 5; 15; 11; 9; 14; 3; 12; 13; 0]]%nat.

Definition wordAt (v : list Z) (i : nat) : Z := nth i v 0%Z.

(** The mixing function G on the working vector. *)
Definition G (a b c d : nat) (x y : Z) (v : list Z) : list Z :=
  let va := word (wordAt v a + wordAt v b + x) in
  let vd := rotr (Z.lxor (wordAt v d) va) 32 in
  let vc := word (wordAt v c + vd) in
  let vb := rotr (Z.lxor (wordAt v b) vc) 24 in
  let va := word (va + vb + y) in
  let vd := rotr (Z.lxor vd va) 16 in
  let vc := word (vc + vd) in
  let vb := rotr (Z.lxor vb vc) 63 in
  <[a := va]> (<[b := vb]> (<[c := vc]> (<[d := vd]> v))).

Definition mixRound (m : list Z) (s : list nat) (v : list Z) : list Z :=
  let mi (i : nat) := wordAt m (nth i s 0%nat) in
  let v := G 0 4 8 12 (mi 0%nat) (mi 1%nat) v in
  let v := G 1 5 9 13 (mi 2%nat) (mi 3%nat) v in
  let v := G 2 6 10 14 (mi 4%nat) (mi 5%nat) v in
  let v := G 3 7 11 15 (mi 6%nat) (mi 7%nat) v in
  let v := G 0 5 10 15 (mi 8%nat) (mi 9%nat) v in
  let v := G 1 6 11 12 (mi 10%nat) (mi 11%nat) v in
  let v := G 2 7 8 13 (mi 12%nat) (mi 13%nat) v in
  G 3 4 9 14 (mi 14%nat) (mi 15%nat) v.

(** The compression function F: twelve rounds over the block [m], with
    the byte counter [t] and the flag of the last block. *)
Definition compress (h m : list Z) (t : Z) (final : bool) : list Z :=
  let v := h ++ IV in
  let v := <[12%nat := Z.lxor (wordAt v 12) (word t)]> v in
  let v := <[13%nat := Z.lxor (wordAt v 13) (Z.shiftr t 64)]> v in
  let v := if final then <[14%nat := Z.lxor (wordAt v 14) 0xFFFFFFFFFFFFFFFF]> v else v in
  let v := foldl (fun v r => mixRound m (nth (r mod 10) SIGMA []) v) v (seq 0 12) in
  (fun i => Z.lxor (Z.lxor (wordAt h i) (wordAt v i)) (wordAt v (i + 8))) <$> seq 0 8.

(** Little-endian words and bytes. *)
Definition wordOfBytes (bs : list byte) : Z :=
  foldr (fun b acc => (Z.of_N (Byte.to_N b) + 256 * acc)%Z) 0%Z bs.

Fixpoint wordsOfBytes (n : nat) (bs : list byte) : list Z :=
  match n with
  | O => []
  | S n => wordOfBytes (take 8 bs) :: wordsOfBytes n (drop 8 bs)
  end.

Definition byteOfZ (z : Z) : byte :=
  default Byte.x00 (Byte.of_N (Z.to_N (Z.land z 255))).

Definition bytesOfWord (w : Z) : list byte :=
  (fun i => byteOfZ (Z.shiftr w (8 * Z.of_nat i))) <$> seq 0 8.

(** The blocks of 128 bytes, the last one padded with zeros and never
    empty unless the input is. *)
Fixpoint absorb (fuel : nat) (h : list Z) (t : Z) (data : list byte) : list Z :=
  match fuel with
  | O => h
  | S fuel =>
      if (length data <=? 128)%nat
      then compress h
             (wordsOfBytes 16 (data ++ replicate (128 - length data) Byte.x00))
             (t + Z.of_nat (length data)) true
      else absorb fuel (compress h (wordsOfBytes 16 (take 128 data)) (t + 128) false)
                  (t + 128) (drop 128 data)
  end.

(** [new Blake2b(Blake2b.SIZE_256)] ... [digest()]: 32 bytes. *)
Definition blake2b_256 (data : list byte) : list byte :=
  let h := <[0%nat := Z.lxor (wordAt IV 0) 0x01010020]> IV in
  take 32 (mjoin (bytesOfWord <$> absorb (S (length data)) h 0 data)).

(** Base64 with padding. *)
Definition base64Alphabet : string :=
  "ABCDEFGHIJKLMNOPQRSTUVWXYZabcdefghijklmnopqrstuvwxyz0123456789+/".

Definition base64Digit (n : Z) : ascii :=
  default "="%char (String.get (Z.to_nat (Z.land n 63)) base64Alphabet).

Definition zOfByte (b : byte) : Z := Z.of_N (Byte.to_N b).

Fixpoint base64Encode (bs : list byte) : string :=
  match bs with
  | [] => ""
  | [a] =>
      let n := Z.shiftl (zOfByte a) 16 in
      String (base64Digit (Z.shiftr n 18)) (String (base64Digit (Z.shiftr n 12)) "==")
  | [a; b] =>
      let n := Z.lor (Z.shiftl (zOfByte a) 16) (Z.shiftl (zOfByte b) 8) in
      String (base64Digit (Z.shiftr n 18))
        (String (base64Digit (Z.shiftr n 12)) (String (base64Digit (Z.shiftr n 6)) "="))
  | a :: b :: c :: rest =>
      let n := Z.lor (Z.lor (Z.shiftl (zOfByte a) 16) (Z.shiftl (zOfByte b) 8)) (zOfByte c) in
      String (base64Digit (Z.shiftr n 18))
        (String (base64Digit (Z.shiftr n 12))
           (String (base64Digit (Z.shiftr n 6))
              (String (base64Digit n) (base64Encode rest))))
  end.

Fixpoint indexOfChar (c : ascii) (s : string) : option Z :=
  match s with
  | EmptyString => None
  | String x rest =>
      if Ascii.eqb x c then Some 0%Z else Z.succ <$> indexOfChar c rest
  end.

Fixpoint base64Decode (s : string) : list byte :=
  match s with
  | String c1 (String c2 (String c3 (String c4 rest))) =>
      let v (c : ascii) := default 0%Z (indexOfChar c base64Alphabet) in
      let n := Z.lor (Z.lor (Z.shiftl (v c1) 18) (Z.shiftl (v c2) 12))
                     (Z.lor (Z.shiftl (v c3) 6) (v c4)) in
      let bytes := [byteOfZ (Z.shiftr n 16); byteOfZ (Z.shiftr n 8); byteOfZ n] in
      (if Ascii.eqb c3 "="%char then take 1 bytes
       else if Ascii.eqb c4 "="%char then take 2 bytes
       else bytes) ++ base64Decode rest
  | _ => []
  end.

(** JSON with the members of every object in the order of their keys. *)
Fixpoint insertMember (kv : string * string) (l : list (string * string))
    : list (string * string) :=
  match l with
  | [] => [kv]
  | x :: rest => if String.leb kv.1 x.1 then kv :: l else x :: insertMember kv rest
  end.

Fixpoint canonicalJson (j : Json) : string :=
  match j with
  | JArray items => "[" +:+ join "," (map canonicalJson items) +:+ "]"
  | JObject members =>
      "{" +:+ join ","
                (map (fun kv => TestEnv.quote +:+ kv.1 +:+ TestEnv.quote +:+ ":" +:+ kv.2)
                     (foldr insertMember []
                            (map (fun kv => (kv.1, canonicalJson kv.2)) members)))
          +:+ "}"
  | _ => TestEnv.printJson j
  end.

(** [JsonHelper.canonicalize(patches)] as bytes: the serialisation that the
    specification names for the digest. *)
Definition canonicalBytes (patches : list IPatchOperation) : list byte :=
  utf8ToBytes (canonicalJson (JArray (map TestEnv.patchToJson patches))).

#[export] Instance collaborators : Collaborators := {|
  blake2b256 := blake2b_256;
  bytesToBase64 := base64Encode;
  base64ToBytes := base64Decode;
  toBytes patches :=
    utf8ToBytes (TestEnv.printJson (JArray (map TestEnv.patchToJson patches)));
  canonicalize o := match o with Some j => canonicalJson j | None => "undefined" end;
  canonicalizeIntegrity i := canonicalJson (TestEnv.integrityToJson i);
  parseIntegrity s := mkIntegrity 0 s [];
  diff := TestEnv.diffVertex;
  toLowerCase := TestEnv.lowerString;
  Urn_fromValidString := TestEnv.splitAt ":"%char;
  Urn_toString ns id := ns +:+ ":" +:+ id;
  vault_sign key data := utf8ToBytes key ++ data;
  vault_encrypt key data := data;
  vault_decrypt key data := data;
  createVerifiableCredential issuer method type subject := TestEnv.printCredential subject;
  checkVerifiableCredential jwt := (false, TestEnv.parseCredential jwt);
  jwtKidIdentity jwt := "";
  ImmutableStorage := TestEnv.MemoryImmutableStorage;
  imm_store := TestEnv.memoryStore;
  imm_get := TestEnv.memoryGet;
  imm_remove := TestEnv.memoryRemove
|}.

Definition TEST_NODE_IDENTITY : string :=
  "did:entity-storage:0x6363636363636363636363636363636363636363636363636363636363636363".
Definition TEST_USER_IDENTITY : string :=
  "did:entity-storage:0x5858585858585858585858585858585858585858585858585858585858585858".

Definition service : Service := newService (Some (mkConfig None None (Some true))).

Definition emptyWorld : World :=
  {| _vertexStorage := ∅; _integrityImmutableStorage := TestEnv.mkMemory 0 [] |}.

(** The test "Can create a vertex with an alias": create with the aliases
    foo123 and bar456 at the first tick. *)
Definition createdWithAliases : World :=
  match create service emptyWorld TestEnv.FIRST_TICK TestEnv.VERTEX_ID None None
               (Some [mkElementInput "foo123" None None; mkElementInput "bar456" None None])
               None None (Some TEST_USER_IDENTITY) (Some TEST_NODE_IDENTITY) with
  | Ok (w, _) => w
  | Err _ => emptyWorld
  end.

(** The stored hashes of the vertex of the tests. *)
Definition storedHashes (w : World) : list string :=
  match _vertexStorage w !! TestEnv.VERTEX_ID with
  | Some e => cs_hash <$> default [] (e_changesets e)
  | None => []
  end.
End HashEnv.

(** ** Vocabulary of the further properties *)

(** A stored collection after an update, against the collection before
    it: the ids it held stay where they were, the ids after them are ids of
    the update list in the order of the list; every element keeps its
    [created] epoch; and every element with a truthy [deleted] is still
    there, at its index, as it was. *)
Definition growsBy {A} (id : A -> string) (created : A -> N) (deleted : A -> option N)
    (old new : option (list A)) (supplied : list string) : Prop :=
  (∃ added, sublist added supplied
            ∧ id <$> default [] new = (id <$> default [] old) ++ added)
  ∧ (∀ i a, default [] old !! i = Some a ->
            ∃ a', default [] new !! i = Some a' ∧ created a' = created a)
  ∧ (∀ i a, default [] old !! i = Some a -> truthy (deleted a) = true ->
            default [] new !! i = Some a).

(** The entry of the verification for a changeset whose credential is not
    consulted: the recomputed digest, chained to [previous], is compared
    with the stored hash and nothing else is looked at. *)
Definition hashOnlyEntry `{Collaborators} (previous : option (list byte))
    (c : IAuditableItemGraphChangeset) : Verification :=
  mkVerification (cs_created c) (cs_patches c)
    (if bool_decide (bytesToBase64 (changesetDigest previous (cs_created c)
                                      (cs_userIdentity c) (cs_patches c))
                     = cs_hash c)
     then None else Some "invalidChangesetHash")
    None.

(** ** query

    [query] builds a request for the entity storage of the vertices and
    maps the entities of the answer to models.  The storage is a parameter:
    [vertexStorageQuery] is its [query] method, the request gathers the
    five arguments of the call, and its call is total: the [catch] block
    of [query], which wraps an exception of the storage, is never entered.
    The comparison and logical operators and the sort directions are those
    of the entity library, as far as the service names them. *)
Inductive ComparisonOperator := Equals | Includes.
Inductive LogicalOperator := LogicalAnd | LogicalOr.
Inductive SortDirection := Ascending | Descending.

Record EntityCondition := mkCondition {
  cond_property : string;
  cond_comparison : ComparisonOperator;
  cond_value : string
}.

Record EntityConditions := mkConditions {
  ec_conditions : list EntityCondition;
  ec_logicalOperator : LogicalOperator
}.

Record SortProperty := mkSortProperty {
  sort_property : string;
  sort_sortDirection : SortDirection
}.

(** [idMode?: "id" | "alias" | "both"] and [orderBy?: "created" | "updated"]. *)
Inductive IdMode := IdModeId | IdModeAlias | IdModeBoth.
Inductive OrderBy := OrderByCreated | OrderByUpdated.

Definition orderByKey (o : OrderBy) : string :=
  match o with OrderByCreated => "created" | OrderByUpdated => "updated" end.

Record QueryOptions := mkQueryOptions {
  q_id : option string;
  q_idMode : option IdMode
}.

(** The arguments of [IEntityStorageConnector.query]. *)
Record StorageQuery := mkStorageQuery {
  sq_conditions : option EntityConditions;
  sq_sortProperties : list SortProperty;
  sq_properties : list string;
  sq_cursor : option string;
  sq_pageSize : option N
}.

(** An entity of the answer holds the properties that were asked for, and
    the model made of it holds what the entity holds. *)
Record PartialVertexEntity := mkPartialVertexEntity {
  pe_id : option string;
  pe_created : option N;
  pe_updated : option N;
  pe_nodeIdentity : option string;
  pe_metadataSchema : option string;
  pe_metadata : option Json;
  pe_aliasIndex : option string;
  pe_aliases : option (list AuditableItemGraphAlias);
  pe_resources : option (list AuditableItemGraphResource);
  pe_edges : option (list AuditableItemGraphEdge);
  pe_changesets : option (list IAuditableItemGraphChangeset)
}.

Record PartialVertex := mkPartialVertex {
  pv_id : option string;
  pv_created : option N;
  pv_updated : option N;
  pv_nodeIdentity : option string;
  pv_metadataSchema : option string;
  pv_metadata : option Json;
  pv_aliases : option (list IAuditableItemGraphAlias);
  pv_resources : option (list IAuditableItemGraphResource);
  pv_edges : option (list IAuditableItemGraphEdge);
  pv_changesets : option (list IAuditableItemGraphChangeset)
}.

Record StorageQueryResult := mkStorageQueryResult {
  sr_entities : list PartialVertexEntity;
  sr_cursor : option string;
  sr_pageSize : option N;
  sr_totalEntities : N
}.

Record QueryResult := mkQueryResult {
  qr_entities : list PartialVertex;
  qr_cursor : option string;
  qr_pageSize : option N;
  qr_totalEntities : N
}.

(** [vertexEntityToModel] on an entity of the answer. *)
Definition partialEntityToModel (vertexEntity : PartialVertexEntity) : PartialVertex :=
  {| pv_id := pe_id vertexEntity;
     pv_created := pe_created vertexEntity;
     pv_updated := pe_updated vertexEntity;
     pv_nodeIdentity := pe_nodeIdentity vertexEntity;
     pv_metadataSchema := pe_metadataSchema vertexEntity;
     pv_metadata := pe_metadata vertexEntity;
     pv_aliases := copyArray aliasEntityToModel (pe_aliases vertexEntity);
     pv_resources := copyArray resourceEntityToModel (pe_resources vertexEntity);
     pv_edges := copyArray edgeEntityToModel (pe_edges vertexEntity);
     pv_changesets := copyArray id (pe_changesets vertexEntity) |}.

Section QueryOperation.
Context `{Collaborators}.
Variable vertexStorageQuery :
  gmap string AuditableItemGraphVertex -> StorageQuery -> StorageQueryResult.

Definition query (w : World) (options : option QueryOptions)
    (orderBy : option OrderBy) (orderByDirection : option SortDirection)
    (properties : option (list string)) (cursor : option string)
    (pageSize : option N) : QueryResult :=
  let propertiesToReturn := default ["id"; "created"; "aliases"; "metadata"] properties in
  let orderProperty := default OrderByCreated orderBy in
  let orderDirection := default Descending orderByDirection in
  let idOrAlias := options ≫= q_id in
  let conditions :=
    if Is_stringValue idOrAlias
    then
      let idMode := default IdModeBoth (options ≫= q_idMode) in
      (match idMode with
       | IdModeId | IdModeBoth =>
           [mkCondition "id" Includes (default "" idOrAlias)]
       | IdModeAlias => []
       end)
      ++ (match idMode with
          | IdModeAlias | IdModeBoth =>
              [mkCondition "aliasIndex" Includes (toLowerCase (default "" idOrAlias))]
          | IdModeId => []
          end)
    else [] in
  let propertiesToReturn :=
    if bool_decide ("id" ∈ propertiesToReturn)
    then propertiesToReturn
    else "id" :: propertiesToReturn in
  let results :=
    vertexStorageQuery (_vertexStorage w)
      {| sq_conditions :=
           if bool_decide (0 < length conditions)%nat
           then Some (mkConditions conditions LogicalOr)
           else None;
         sq_sortProperties := [mkSortProperty (orderByKey orderProperty) orderDirection];
         sq_properties := propertiesToReturn;
         sq_cursor := cursor;
         sq_pageSize := pageSize |} in
  {| qr_entities := partialEntityToModel <$> sr_entities results;
     qr_cursor := sr_cursor results;
     qr_pageSize := sr_pageSize results;
     qr_totalEntities := sr_totalEntities results |}.
End QueryOperation.

(** One string inside another. *)
Definition includesString (s needle : string) : Prop :=
  ∃ before after, s = before +:+ needle +:+ after.

(** ** The REST route of get

    [auditableItemGraphGet] of auditableItemGraphRoutes.ts.  The component
    that [ComponentFactory.get] returns is a parameter: [component_get] is
    its [get] method. *)
Record GetRequestPathParams := mkGetRequestPathParams {
  pp_id : option string
}.

Record IAuditableItemGraphGetRequest := mkGetRequest {
  pathParams : option GetRequestPathParams;
  queryParams : option GetOptions
}.

Record IAuditableItemGraphGetResponse := mkGetResponse {
  body : GetResult
}.

(** [Guards.object]. *)
Definition Guards_object {A} (property : string) (x : option A) : Result A :=
  match x with
  | Some a => Ok a
  | None => Err (guardViolation property)
  end.

Section Routes.
Variable component_get : string -> option GetOptions -> Result GetResult.

Definition auditableItemGraphGet (request : option IAuditableItemGraphGetRequest)
    : Result IAuditableItemGraphGetResponse :=
  request ← Guards_object "request" request;
  pathParams ← Guards_object "request.pathParams" (pathParams request);
  id ← Guards_stringValue "request.pathParams.id" (pp_id pathParams);
  result ← component_get id
             (Some {| includeDeleted := queryParams request ≫= includeDeleted;
                      includeChangesets := queryParams request ≫= includeChangesets;
                      verifySignatureDepth :=
                        queryParams request ≫= verifySignatureDepth |});
  Ok {| body := result |}.
End Routes.

(** The failures the verifier reports from the check of a credential. *)
Definition credentialFailures : list string :=
  ["changesetCredentialRevoked"; "invalidChangesetSignature";
   "invalidChangesetCanonical"].

(** The ids of the stored elements of an entity are non-empty strings, and
    so are the relationships of its edges. *)
Definition namedElements (e : AuditableItemGraphVertex) : Prop :=
  Forall (fun a => ae_id a ≠ "") (default [] (e_aliases e))
  ∧ Forall (fun r => re_id r ≠ "") (default [] (e_resources e))
  ∧ Forall (fun x => ee_id x ≠ "" ∧ ee_relationship x ≠ "") (default [] (e_edges e)).

(** An element of a returned vertex, as an item of an update list. *)
Definition aliasInput (a : IAuditableItemGraphAlias) : ElementInput :=
  mkElementInput (alias_id a) (alias_metadataSchema a) (alias_metadata a).

Definition resourceInput (r : IAuditableItemGraphResource) : ElementInput :=
  mkElementInput (resource_id r) (resource_metadataSchema r) (resource_metadata r).

Definition edgeInput (e : IAuditableItemGraphEdge) : EdgeInput :=
  mkEdgeInput (edge_id e) (edge_relationship e) (edge_metadataSchema e) (edge_metadata e).

(** A collection of a returned vertex, as an update list. *)
Definition inputsOf {A B} (f : A -> B) (xs : option (list A)) : option (list B) :=
  (fun l : list A => f <$> l) <$> xs.

(** * Properties *)

(** ** The helpers on concrete values *)

Example toString_first_tick : toString 1724327716271 = "1724327716271".
Proof. reflexivity. Qed.

Example toString_zero : toString 0 = "0".
Proof. reflexivity. Qed.

Example join_two_ids : join "||" ["foo123"; "bar456"] = "foo123||bar456".
Proof. reflexivity. Qed.

Example join_no_id : join "||" [] = "".
Proof. reflexivity. Qed.

Example truthy_zero : truthy (Some 0) = false ∧ Is_empty (Some 0) = false.
Proof. split; reflexivity. Qed.

(** The alias index after the create call with foo123 and bar456. *)
Example created_aliasIndex :
  e_aliasIndex <$> (_vertexStorage Scenarios.created !! TestEnv.VERTEX_ID)
  = Some (Some "foo123||bar456").
Proof. vm_compute. reflexivity. Qed.

(** The alias swap verifies in full: two entries, no failure. *)
Example swapped_verifies :
  Scenarios.reportedVerified
    (get TestEnv.service Scenarios.swapped Scenarios.VERTEX_URN Scenarios.verifyAll)
  = Some true
  ∧ Scenarios.reportedFailures
      (get TestEnv.service Scenarios.swapped Scenarios.VERTEX_URN Scenarios.verifyAll)
    = [None; None].
Proof. split; vm_compute; reflexivity. Qed.

(** The alias swap tombstones foo123 and appends foo321. *)
Example swapped_aliases :
  Scenarios.aliasIds Scenarios.swapped = ["foo123"; "bar456"; "foo321"]
  ∧ Scenarios.aliasDeletions Scenarios.swapped
    = [Some TestEnv.SECOND_TICK; None; None].
Proof. split; vm_compute; reflexivity. Qed.

(** [find] returns the first element with the id, here the tombstone: each
    further update that supplies foo123 appends one more element. *)
Example recreatedTwice_aliases :
  Scenarios.aliasIds Scenarios.recreatedTwice
  = ["foo123"; "bar456"; "foo123"; "foo123"]
  ∧ Scenarios.aliasDeletions Scenarios.recreatedTwice
    = [Some TestEnv.SECOND_TICK; Some TestEnv.SECOND_TICK; None; None].
Proof. split; vm_compute; reflexivity. Qed.

(** ** The reconcilers *)

Section ReconcilerFacts.
Context {E U : Type} `{Reconcilable E U}.

Lemma inUpdateList_nil (id : string) : inUpdateList (Some ([] : list U)) id = false.
Proof. reflexivity. Qed.

Lemma markMissing_absent (now : N) (e : E) :
  markMissing now (None : option (list U)) e = tombstoneLive now e.
Proof. unfold markMissing, tombstoneLive. simpl. by rewrite andb_true_r. Qed.

Lemma markMissing_empty (now : N) (e : E) :
  markMissing now (Some ([] : list U)) e = tombstoneLive now e.
Proof. unfold markMissing, tombstoneLive. simpl. by rewrite andb_true_r. Qed.

(** An absent update list and an empty one do the same: the first loop
    tombstones every live element, the second loop does not run. *)
Lemma updateList_absent (now : N) (elems : option (list E)) :
  updateList now elems (None : option (list U)) = Ok (tombstoneAll now elems).
Proof.
  unfold updateList, tombstoneMissing, tombstoneAll. simpl. f_equal.
  destruct elems as [l|]; simpl; [|done]. f_equal.
  apply list_fmap_ext. intros _ e _. apply markMissing_absent.
Qed.

Lemma updateList_empty (now : N) (elems : option (list E)) :
  updateList now elems (Some ([] : list U)) = Ok (tombstoneAll now elems).
Proof.
  unfold updateList, tombstoneMissing, tombstoneAll. simpl. f_equal.
  destruct elems as [l|]; simpl; [|done]. f_equal.
  apply list_fmap_ext. intros _ e _. apply markMissing_empty.
Qed.

Lemma tombstoneLive_live (now : N) (e : E) :
  elem_deleted e = None -> elem_deleted (tombstoneLive now e) = Some now.
Proof.
  intros He. unfold tombstoneLive. rewrite He. simpl.
  apply elem_deleted_markDeleted.
Qed.

Lemma tombstoneLive_deleted (now : N) (e : E) :
  elem_deleted e ≠ None -> tombstoneLive now e = e.
Proof. intros He. unfold tombstoneLive. by destruct (elem_deleted e). Qed.
End ReconcilerFacts.

(** The loop over the update list, run on the vertex or on the collection. *)
Section OnVertex.
Context {E U : Type} `{Reconcilable E U}.
Variable getC : IAuditableItemGraphVertex -> option (list E).
Variable setC : option (list E) -> IAuditableItemGraphVertex -> IAuditableItemGraphVertex.
Hypothesis get_set : forall l v, getC (setC l v) = l.
Hypothesis set_set : forall l l' v, setC l (setC l' v) = setC l v.
Hypothesis set_get : forall v, setC (getC v) v = v.

Lemma forEachM_on_vertex (now : N) (upd : list U) :
  ∀ v,
    forEachM (fun v u => l ← updateElement now (getC v) u; Ok (setC l v)) v upd
    = l ← forEachM (updateElement now) (getC v) upd; Ok (setC l v).
Proof.
  induction upd as [|u upd IH]; intros v; simpl.
  - by rewrite set_get.
  - destruct (updateElement now (getC v) u) as [l|err]; simpl; [|done].
    rewrite IH, get_set.
    destruct (forEachM (updateElement now) l upd); simpl; [|done].
    by rewrite set_set.
Qed.

Lemma updateList_on_vertex (now : N) (v : IAuditableItemGraphVertex)
    (upd : option (list U)) :
  (if Is_arrayValue upd
   then forEachM (fun v u => l ← updateElement now (getC v) u; Ok (setC l v))
                 (setC (tombstoneMissing now (getC v) upd) v) (default [] upd)
   else Ok (setC (tombstoneMissing now (getC v) upd) v))
  = l ← updateList now (getC v) upd; Ok (setC l v).
Proof.
  unfold updateList. destruct (Is_arrayValue upd); [|done].
  rewrite forEachM_on_vertex, get_set.
  destruct (forEachM _ _ _); simpl; [|done]. by rewrite set_set.
Qed.
End OnVertex.

Section ReconcilersOnVertex.
Context `{Collaborators}.

(** Each reconciler of the vertex runs the two loops on its collection. *)
Lemma updateAliasList_updateList context vertexModel aliases :
  updateAliasList context vertexModel aliases
  = l ← updateList (now context) (v_aliases vertexModel) aliases;
    Ok (set_aliases l vertexModel).
Proof.
  apply (updateList_on_vertex v_aliases set_aliases); [done|done|by intros []].
Qed.

Lemma updateResourceList_updateList context vertexModel resources :
  updateResourceList context vertexModel resources
  = l ← updateList (now context) (v_resources vertexModel) resources;
    Ok (set_resources l vertexModel).
Proof.
  apply (updateList_on_vertex v_resources set_resources); [done|done|by intros []].
Qed.

Lemma updateEdgeList_updateList context vertexModel edges :
  updateEdgeList context vertexModel edges
  = l ← updateList (now context) (v_edges vertexModel) edges;
    Ok (set_edges l vertexModel).
Proof.
  apply (updateList_on_vertex v_edges set_edges); [done|done|by intros []].
Qed.

(** C3 (as the code has it). For every vertex model, each of the three
    reconcilers treats an absent update list exactly like an empty one:
    every live element of the collection is marked [deleted = now],
    tombstoned elements stay as they are and no element is added. *)
Theorem C3_absent_list_tombstones_like_empty
    (context : IAuditableItemGraphServiceContext)
    (vertexModel : IAuditableItemGraphVertex) :
  (updateAliasList context vertexModel None
     = Ok (set_aliases (tombstoneAll (U := ElementInput) (now context)
                                     (v_aliases vertexModel)) vertexModel)
   ∧ updateAliasList context vertexModel (Some [])
     = Ok (set_aliases (tombstoneAll (U := ElementInput) (now context)
                                     (v_aliases vertexModel)) vertexModel))
  ∧ (updateResourceList context vertexModel None
       = Ok (set_resources (tombstoneAll (U := ElementInput) (now context)
                                         (v_resources vertexModel)) vertexModel)
     ∧ updateResourceList context vertexModel (Some [])
       = Ok (set_resources (tombstoneAll (U := ElementInput) (now context)
                                         (v_resources vertexModel)) vertexModel))
  ∧ (updateEdgeList context vertexModel None
       = Ok (set_edges (tombstoneAll (U := EdgeInput) (now context)
                                     (v_edges vertexModel)) vertexModel)
     ∧ updateEdgeList context vertexModel (Some [])
       = Ok (set_edges (tombstoneAll (U := EdgeInput) (now context)
                                     (v_edges vertexModel)) vertexModel)).
Proof.
  rewrite !updateAliasList_updateList, !updateResourceList_updateList,
    !updateEdgeList_updateList, !updateList_absent, !updateList_empty. done.
Qed.
End ReconcilersOnVertex.

(** C3 (counterexample). A vertex is created with two live aliases; the
    update that follows passes no alias list at all, and both aliases come
    out tombstoned at the epoch of the update. *)
Lemma C3_absent_list_is_not_left_untouched :
  Scenarios.aliasDeletions Scenarios.created = [None; None]
  ∧ update TestEnv.service Scenarios.created TestEnv.SECOND_TICK Scenarios.VERTEX_URN
           None None None None None Scenarios.user Scenarios.node
    = Ok Scenarios.updatedAbsent
  ∧ Scenarios.aliasDeletions Scenarios.updatedAbsent
    = [Some TestEnv.SECOND_TICK; Some TestEnv.SECOND_TICK].
Proof. split; [|split]; vm_compute; reflexivity. Qed.

(** ** Uniqueness of element ids *)

Section ReconcilerIds.
Context {E U : Type} `{Reconcilable E U}.

Lemma inUpdateList_false (upd : option (list U)) (id : string) :
  inUpdateList upd id = false ↔ ∀ u, u ∈ default [] upd -> input_id u ≠ id.
Proof.
  destruct upd as [l|]; simpl.
  - induction l as [|u l IH]; simpl.
    + split; [|done]. intros _ u Hu. by apply elem_of_nil in Hu.
    + rewrite orb_false_iff, IH, bool_decide_eq_false. split.
      * intros [Hu Hl] u' [->|Hu']%elem_of_cons; auto.
      * intros Hall. split; [apply Hall; left|intros u' Hu'; apply Hall; by right].
  - split; [|done]. intros _ u Hu. by apply elem_of_nil in Hu.
Qed.

Lemma elem_id_markMissing (now : N) (upd : option (list U)) (e : E) :
  elem_id (markMissing now upd e) = elem_id e.
Proof.
  unfold markMissing. case_match; [apply elem_id_markDeleted|done].
Qed.

(** The first loop changes no id. *)
Lemma idsOf_tombstoneMissing (now : N) (elems : option (list E))
    (upd : option (list U)) :
  idsOf (tombstoneMissing now elems upd) = idsOf elems.
Proof.
  unfold idsOf, tombstoneMissing. destruct elems as [l|]; simpl; [|done].
  rewrite <- list_fmap_compose. apply list_fmap_ext.
  intros _ e _. apply elem_id_markMissing.
Qed.

Lemma noTombstoneResupplied_spec (elems : option (list E)) (upd : option (list U)) :
  noTombstoneResupplied elems upd = true
  ↔ ∀ e, e ∈ default [] elems -> truthy (elem_deleted e) = true ->
         inUpdateList upd (elem_id e) = false.
Proof.
  unfold noTombstoneResupplied. rewrite forallb_forall. split.
  - intros Hall e He%list_elem_of_In Ht. specialize (Hall e He).
    rewrite Ht in Hall. simpl in Hall. by apply negb_true_iff.
  - intros Hall e He%list_elem_of_In.
    destruct (truthy (elem_deleted e)) eqn:Ht; [|done].
    simpl. apply negb_true_iff. by apply Hall.
Qed.

(** After the first loop, no tombstone has an id of the update list as
    long as none had one before it. *)
Lemma tombstoneMissing_noTombstoneResupplied (now : N) (elems : option (list E))
    (upd : option (list U)) :
  noTombstoneResupplied elems upd = true ->
  noTombstoneResupplied (tombstoneMissing now elems upd) upd = true.
Proof.
  rewrite !noTombstoneResupplied_spec. unfold tombstoneMissing.
  destruct elems as [l|]; simpl; [|intros _ e He; by apply elem_of_nil in He].
  intros Hno e' (e & -> & He)%list_elem_of_fmap.
  rewrite elem_id_markMissing. unfold markMissing.
  destruct (Is_empty (elem_deleted e)) eqn:Hlive; simpl.
  - destruct (inUpdateList upd (elem_id e)) eqn:Hin; simpl; [|done].
    intros Ht. destruct (elem_deleted e); [done|]. discriminate Ht.
  - by apply Hno.
Qed.

(** [updateX] on an id that no tombstone carries keeps the ids unique. *)
Lemma updateElement_NoDup (now : N) (elems elems' : option (list E)) (u : U) :
  NoDup (idsOf elems) ->
  (∀ e, e ∈ default [] elems -> truthy (elem_deleted e) = true ->
        input_id u ≠ elem_id e) ->
  updateElement now elems u = Ok elems' ->
  NoDup (idsOf elems').
Proof.
  intros Hnd Hno. unfold updateElement.
  destruct (input_guard u); simpl; [|discriminate].
  destruct (list_find _ _) as [[i existing]|] eqn:Hfind.
  - apply list_find_Some in Hfind as (Hi & Hid & _).
    destruct (truthy (elem_deleted existing)) eqn:Ht.
    { exfalso. eapply Hno; [by eapply list_elem_of_lookup_2|done|done]. }
    destruct (elem_differs existing u); intros [= <-]; [|done].
    unfold idsOf in *. simpl. rewrite list_fmap_insert, elem_id_write.
    rewrite list_insert_id; [done|]. by rewrite list_lookup_fmap, Hi.
  - apply list_find_None in Hfind. intros [= <-].
    unfold idsOf in *. simpl. rewrite fmap_app. simpl. rewrite elem_id_new.
    apply NoDup_app. split; [done|]. split; [|apply NoDup_singleton].
    intros x (e & -> & He)%list_elem_of_fmap Hx%list_elem_of_singleton.
    rewrite Forall_forall in Hfind. by apply (Hfind e).
Qed.

(** [updateX] on the id of an element that is soft-deleted: the tombstone
    stays and a new element with the id is appended. *)
Lemma updateElement_recreates (now : N) (elems : option (list E)) (u : U)
    (i : nat) (existing : E) :
  input_guard u = Ok () ->
  list_find (fun a => elem_id a = input_id u) (default [] elems) = Some (i, existing) ->
  truthy (elem_deleted existing) = true ->
  updateElement now elems u = Ok (Some (default [] elems ++ [elem_new now u])).
Proof.
  intros Hg Hfind Ht. unfold updateElement. rewrite Hg. simpl. by rewrite Hfind, Ht.
Qed.

(** Every tombstone after [updateX] has the id of a tombstone before it. *)
Lemma updateElement_tombstones (now : N) (elems elems' : option (list E)) (u : U) :
  updateElement now elems u = Ok elems' ->
  ∀ e', e' ∈ default [] elems' -> truthy (elem_deleted e') = true ->
        ∃ e, e ∈ default [] elems ∧ elem_id e = elem_id e'
             ∧ truthy (elem_deleted e) = true.
Proof.
  unfold updateElement.
  destruct (input_guard u); simpl; [|discriminate].
  assert (Hnew : ∀ e', e' ∈ default [] elems ++ [elem_new now u] ->
            truthy (elem_deleted e') = true ->
            ∃ e, e ∈ default [] elems ∧ elem_id e = elem_id e'
                 ∧ truthy (elem_deleted e) = true).
  { intros e' [He' | ->%list_elem_of_singleton]%elem_of_app Ht; [eauto|].
    by rewrite elem_deleted_new in Ht. }
  destruct (list_find _ _) as [[i existing]|] eqn:Hfind; [|by intros [= <-]].
  apply list_find_Some in Hfind as (Hi & Hid & _).
  destruct (truthy (elem_deleted existing)); [by intros [= <-]|].
  destruct (elem_differs existing u); intros [= <-]; [|eauto].
  simpl. intros e' (j & Hj)%list_elem_of_lookup_1 Ht.
  destruct (decide (i = j)) as [<-|Hne].
  - rewrite list_lookup_insert_eq in Hj by by eapply lookup_lt_Some.
    injection Hj as <-. exists existing.
    rewrite elem_id_write, elem_deleted_write in *.
    split; [by eapply list_elem_of_lookup_2|done].
  - rewrite list_lookup_insert_ne in Hj by done.
    exists e'. split; [by eapply list_elem_of_lookup_2|done].
Qed.

(** The second loop keeps the ids unique when no item of the update list
    carries the id of a tombstone. *)
Lemma forEachM_updateElement_NoDup (now : N) (upd : list U) :
  ∀ elems elems',
    NoDup (idsOf elems) ->
    (∀ e, e ∈ default [] elems -> truthy (elem_deleted e) = true ->
          ∀ u, u ∈ upd -> input_id u ≠ elem_id e) ->
    forEachM (updateElement now) elems upd = Ok elems' ->
    NoDup (idsOf elems').
Proof.
  induction upd as [|u upd IH]; intros elems elems' Hnd Hno; simpl.
  - by intros [= <-].
  - destruct (updateElement now elems u) as [elems1|] eqn:Hu; simpl; [|discriminate].
    apply IH.
    + eapply updateElement_NoDup; [done| |done].
      intros e He Ht. eapply Hno; [done|done|left].
    + intros e1 He1 Ht1 u' Hu'.
      destruct (updateElement_tombstones _ _ _ _ Hu e1 He1 Ht1) as (e & He & <- & Ht).
      eapply Hno; [done|done|by right].
Qed.

(** [updateXList] keeps the ids of a collection unique when no item of the
    update list carries the id of an element that is already tombstoned. *)
Lemma updateList_NoDup (now : N) (elems elems' : option (list E))
    (upd : option (list U)) :
  NoDup (idsOf elems) ->
  noTombstoneResupplied elems upd = true ->
  updateList now elems upd = Ok elems' ->
  NoDup (idsOf elems').
Proof.
  intros Hnd Hno. unfold updateList.
  pose proof (tombstoneMissing_noTombstoneResupplied now _ _ Hno) as Hno1.
  rewrite noTombstoneResupplied_spec in Hno1.
  assert (Hnd1 : NoDup (idsOf (tombstoneMissing now elems upd)))
    by by rewrite idsOf_tombstoneMissing.
  destruct (Is_arrayValue upd); [|by intros [= <-]].
  apply forEachM_updateElement_NoDup; [done|].
  intros e He Ht u Hu. specialize (Hno1 e He Ht).
  rewrite inUpdateList_false in Hno1. by apply Hno1.
Qed.
End ReconcilerIds.

(** ** The error monad *)

Lemma bind_Ok {A B} (r : Result A) (k : A -> Result B) (b : B) :
  r ≫= k = Ok b -> ∃ a, r = Ok a ∧ k a = Ok b.
Proof. destruct r as [a|e]; simpl; [eauto|discriminate]. Qed.

Lemma catchWith_Ok {A} (wrap : ServiceError -> ServiceError) (r : Result A) (a : A) :
  catchWith wrap r = Ok a -> r = Ok a.
Proof. destruct r; simpl; [done|discriminate]. Qed.

Lemma Guards_stringValue_Ok (property : string) (s : option string) (x : string) :
  Guards_stringValue property s = Ok x -> s = Some x ∧ x ≠ "".
Proof.
  unfold Guards_stringValue. destruct s as [s|]; [|discriminate].
  case_bool_decide; [discriminate|]. by intros [= <-].
Qed.

Lemma Guards_stringValue_pass (property : string) (x : string) :
  x ≠ "" -> Guards_stringValue property (Some x) = Ok x.
Proof. intros Hx. unfold Guards_stringValue. by rewrite bool_decide_eq_false_2. Qed.

(** Inversion of a successful sequence of calls, one bind at a time. *)
Tactic Notation "invert_bind" hyp(H) "as" ident(a) ident(Ha) :=
  apply bind_Ok in H as (a & Ha & H).

(** ** The operations, step by step *)

Section ServiceFacts.
Context `{Collaborators}.

(** *** addChangeset *)

Lemma addChangeset_changes_iff svc imm context originalModel updatedModel :
  (addChangeset svc imm context originalModel updatedModel).2 = true
  ↔ diff originalModel updatedModel ≠ []
    ∨ default [] (v_changesets originalModel) = [].
Proof.
  unfold addChangeset.
  destruct (diff originalModel updatedModel) as [|p ps] eqn:Hd;
    destruct (default [] (v_changesets originalModel)) as [|c cs] eqn:Hc; simpl.
  - destruct (imm_store _ _ _). simpl. naive_solver.
  - split; [discriminate|]. intros [?|?]; done.
  - destruct (imm_store _ _ _). simpl. naive_solver.
  - destruct (imm_store _ _ _). simpl. naive_solver.
Qed.

Lemma addChangeset_unchanged svc imm context originalModel updatedModel :
  (addChangeset svc imm context originalModel updatedModel).2 = false ->
  addChangeset svc imm context originalModel updatedModel = (imm, updatedModel, false).
Proof.
  unfold addChangeset. case_match; [|done].
  destruct (imm_store _ _ _). discriminate.
Qed.

(** When there are changes, the model gets the previous changesets followed
    by one new changeset, and the credential of that changeset goes to the
    immutable storage. *)
Lemma addChangeset_changed svc imm context originalModel updatedModel :
  (addChangeset svc imm context originalModel updatedModel).2 = true ->
  let changeSets := default [] (v_changesets originalModel) in
  let patches := diff originalModel updatedModel in
  let changeSetHash :=
    changesetDigest ((fun c => base64ToBytes (cs_hash c)) <$> last changeSets)
                    (now context) (userIdentity context) patches in
  let stored :=
    imm_store imm (nodeIdentity context)
      (utf8ToBytes
         (createVerifiableCredential (nodeIdentity context)
            (nodeIdentity context +:+ "#" +:+ _assertionMethodId svc)
            "AuditableItemGraphIntegrity"
            (credentialData svc context patches changeSetHash))) in
  addChangeset svc imm context originalModel updatedModel
  = (stored.1,
     set_changesets
       (Some (changeSets ++ [ {| cs_created := now context;
                                 cs_userIdentity := userIdentity context;
                                 cs_patches := patches;
                                 cs_hash := bytesToBase64 changeSetHash;
                                 cs_immutableStorageId := Some stored.2 |} ]))
       updatedModel,
     true).
Proof.
  unfold addChangeset. case_match; [|discriminate].
  intros _. simpl. by destruct (imm_store _ _ _).
Qed.

(** *** The reconcilers, as run by create and update *)

Lemma reconcile_inv context v metadataSchema metadata aliases resources edges v' :
  reconcile context v metadataSchema metadata aliases resources edges = Ok v' ->
  ∃ aliases' resources' edges',
    updateList (now context) (v_aliases v) aliases = Ok aliases'
    ∧ updateList (now context) (v_resources v) resources = Ok resources'
    ∧ updateList (now context) (v_edges v) edges = Ok edges'
    ∧ v' = {| v_id := v_id v; v_nodeIdentity := v_nodeIdentity v;
              v_created := v_created v; v_updated := v_updated v;
              v_metadataSchema := metadataSchema; v_metadata := metadata;
              v_aliases := aliases'; v_resources := resources';
              v_edges := edges'; v_changesets := v_changesets v |}.
Proof.
  unfold reconcile. intros Hr.
  invert_bind Hr as v1 Hv1. rewrite updateAliasList_updateList in Hv1.
  invert_bind Hv1 as aliases' Haliases. injection Hv1 as <-.
  invert_bind Hr as v2 Hv2. rewrite updateResourceList_updateList in Hv2.
  invert_bind Hv2 as resources' Hresources. injection Hv2 as <-.
  rewrite updateEdgeList_updateList in Hr.
  invert_bind Hr as edges' Hedges. injection Hr as <-.
  simpl in *. eauto 10.
Qed.

(** *** create *)

Lemma create_inv svc w now id metadataSchema metadata aliases resources edges
    identity nodeIdentity w' urn :
  create svc w now id metadataSchema metadata aliases resources edges
         identity nodeIdentity = Ok (w', urn) ->
  ∃ user nodeId reconciled,
    identity = Some user ∧ nodeIdentity = Some nodeId
    ∧ reconcile (mkContext now user nodeId) (zeroVertex id nodeId now)
                metadataSchema metadata aliases resources edges = Ok reconciled
    ∧ let added :=
        addChangeset svc (_integrityImmutableStorage w) (mkContext now user nodeId)
                     (zeroVertex id nodeId now) reconciled in
      w' = {| _vertexStorage :=
                <[id := vertexModelToEntity added.1.2]> (_vertexStorage w);
              _integrityImmutableStorage := added.1.1 |}
      ∧ added.2 = true
    ∧ urn = Urn_toString NAMESPACE id.
Proof.
  unfold create. intros Hc.
  invert_bind Hc as user Huser. apply Guards_stringValue_Ok in Huser as [-> _].
  invert_bind Hc as nodeId Hnode. apply Guards_stringValue_Ok in Hnode as [-> _].
  apply catchWith_Ok in Hc.
  invert_bind Hc as v1 Hv1. invert_bind Hc as v2 Hv2. invert_bind Hc as v3 Hv3.
  assert (Hr : reconcile (mkContext now user nodeId) (zeroVertex id nodeId now)
                 metadataSchema metadata aliases resources edges = Ok v3).
  { unfold reconcile, zeroVertex. rewrite Hv1. simpl. rewrite Hv2. simpl. done. }
  exists user, nodeId, v3. split; [done|]. split; [done|]. split; [done|].
  assert (Hid : v_id v3 = id).
  { apply reconcile_inv in Hr as (? & ? & ? & _ & _ & _ & ->). done. }
  assert (Hch : (addChangeset svc (_integrityImmutableStorage w)
                   (mkContext now user nodeId)
                   (zeroVertex id nodeId now) v3).2 = true).
  { apply addChangeset_changes_iff. by right. }
  unfold zeroVertex in *.
  rewrite (addChangeset_changed _ _ _ _ _ Hch) in Hc |- *.
  simpl in Hc |- *. rewrite Hid in Hc. by injection Hc as <- <-.
Qed.

(** *** update *)

Lemma update_inv svc w now id metadataSchema metadata aliases resources edges
    identity nodeIdentity w' :
  update svc w now id metadataSchema metadata aliases resources edges
         identity nodeIdentity = Ok w' ->
  ∃ vid e user nodeId reconciled,
    identity = Some user ∧ nodeIdentity = Some nodeId
    ∧ vertexIdOfUrn id = Ok vid
    ∧ _vertexStorage w !! vid = Some e
    ∧ reconcile (mkContext now user nodeId) (vertexEntityToModel e)
                metadataSchema metadata aliases resources edges = Ok reconciled
    ∧ let added :=
        addChangeset svc (_integrityImmutableStorage w) (mkContext now user nodeId)
                     (vertexEntityToModel e) reconciled in
      (added.2 = false ∧ w' = w)
      ∨ (added.2 = true
         ∧ w' = {| _vertexStorage :=
                     <[e_id e := vertexModelToEntity (set_updated now added.1.2)]>
                       (_vertexStorage w);
                   _integrityImmutableStorage := added.1.1 |}).
Proof.
  unfold update. intros Hu.
  invert_bind Hu as id' Hid. apply Guards_stringValue_Ok in Hid as [[= <-] _].
  invert_bind Hu as user Huser. apply Guards_stringValue_Ok in Huser as [-> _].
  invert_bind Hu as nodeId Hnode. apply Guards_stringValue_Ok in Hnode as [-> _].
  invert_bind Hu as vid Hvid. apply catchWith_Ok in Hu.
  destruct (_vertexStorage w !! vid) as [e|] eqn:He; [|discriminate].
  invert_bind Hu as v1 Hv1. invert_bind Hu as v2 Hv2. invert_bind Hu as v3 Hv3.
  assert (Hr : reconcile (mkContext now user nodeId) (vertexEntityToModel e)
                 metadataSchema metadata aliases resources edges = Ok v3).
  { unfold reconcile. rewrite Hv1. simpl. rewrite Hv2. simpl. done. }
  exists vid, e, user, nodeId, v3. do 5 (split; [done|]).
  destruct (addChangeset svc (_integrityImmutableStorage w) (mkContext now user nodeId)
              (vertexEntityToModel e) v3).2 eqn:Hch.
  - right. split; [done|].
    rewrite (addChangeset_changed _ _ _ _ _ Hch) in Hu |- *. simpl in Hu |- *.
    apply reconcile_inv in Hr as (? & ? & ? & _ & _ & _ & ->).
    simpl in Hu. by injection Hu as <-.
  - left. split; [done|].
    rewrite (addChangeset_unchanged _ _ _ _ _ Hch) in Hu. simpl in Hu.
    injection Hu as <-. by destruct w.
Qed.

(** *** removeImmutable *)

(** The loop detaches every changeset with an id and passes the ids to
    [remove] in order; it reports a change when there was one to detach. *)
Lemma removeImmutableLoop_spec nodeId changesets :
  ∀ imm,
    removeImmutableLoop imm nodeId changesets
    = (fold_left (fun imm id => imm_remove imm nodeId id) (attachedIds changesets) imm,
       detach <$> changesets,
       existsb (fun c => Is_stringValue (cs_immutableStorageId c)) changesets).
Proof.
  induction changesets as [|c cs IH]; intros imm; [done|].
  simpl. unfold attachedIds, detach at 1. simpl.
  destruct (Is_stringValue (cs_immutableStorageId c)) eqn:Hid.
  - rewrite IH. destruct (cs_immutableStorageId c) as [sid|]; [|done]. done.
  - rewrite IH. simpl. done.
Qed.

Lemma removeImmutable_inv w id nodeIdentity w' :
  removeImmutable w id nodeIdentity = Ok w' ->
  ∃ vid e nodeId,
    nodeIdentity = Some nodeId
    ∧ vertexIdOfUrn id = Ok vid
    ∧ _vertexStorage w !! vid = Some e
    ∧ let changesets := default [] (e_changesets e) in
      ((existsb (fun c => Is_stringValue (cs_immutableStorageId c)) changesets = false
        ∧ w' = w)
       ∨ (existsb (fun c => Is_stringValue (cs_immutableStorageId c)) changesets = true
          ∧ w' = {| _vertexStorage :=
                      <[e_id e := set_e_changesets (Some (detach <$> changesets)) e]>
                        (_vertexStorage w);
                    _integrityImmutableStorage :=
                      fold_left (fun imm id => imm_remove imm nodeId id)
                                (attachedIds changesets)
                                (_integrityImmutableStorage w) |})).
Proof.
  unfold removeImmutable. intros Hr.
  invert_bind Hr as id' Hid. apply Guards_stringValue_Ok in Hid as [[= <-] _].
  invert_bind Hr as nodeId Hnode. apply Guards_stringValue_Ok in Hnode as [-> _].
  invert_bind Hr as vid Hvid. apply catchWith_Ok in Hr.
  destruct (_vertexStorage w !! vid) as [e|] eqn:He; [|discriminate].
  exists vid, e, nodeId. do 3 (split; [done|]).
  destruct (Is_arrayValue (e_changesets e)) eqn:Harr.
  - rewrite removeImmutableLoop_spec in Hr. simpl in Hr |- *.
    destruct (existsb _ _); injection Hr as <-; [by right|by left].
  - injection Hr as <-. left. split; [|done].
    destruct (e_changesets e) as [[|c cs]|]; done.
Qed.
End ServiceFacts.

(** ** Ids of the stored collections *)

Section StoredIds.
Context `{Collaborators}.

Lemma default_copyArray {A B} (f : A -> B) (xs : option (list A)) :
  default [] (copyArray f xs) = f <$> default [] xs.
Proof. by destruct xs as [[|x l]|]. Qed.

Lemma copyArray_id {A} (xs : option (list A)) :
  default [] (copyArray id xs) = default [] xs.
Proof. rewrite default_copyArray. apply list_fmap_id. Qed.

Lemma idsOf_aliasEntityToModel xs :
  idsOf (copyArray aliasEntityToModel xs) = ae_id <$> default [] xs.
Proof.
  unfold idsOf. rewrite default_copyArray, <- list_fmap_compose.
  by apply list_fmap_ext.
Qed.

Lemma idsOf_resourceEntityToModel xs :
  idsOf (copyArray resourceEntityToModel xs) = re_id <$> default [] xs.
Proof.
  unfold idsOf. rewrite default_copyArray, <- list_fmap_compose.
  by apply list_fmap_ext.
Qed.

Lemma idsOf_edgeEntityToModel xs :
  idsOf (copyArray edgeEntityToModel xs) = ee_id <$> default [] xs.
Proof.
  unfold idsOf. rewrite default_copyArray, <- list_fmap_compose.
  by apply list_fmap_ext.
Qed.

Lemma ids_aliasModelToEntity xs :
  ae_id <$> default [] (copyArray aliasModelToEntity xs) = idsOf xs.
Proof.
  unfold idsOf. rewrite default_copyArray, <- list_fmap_compose.
  by apply list_fmap_ext.
Qed.

Lemma ids_resourceModelToEntity xs :
  re_id <$> default [] (copyArray resourceModelToEntity xs) = idsOf xs.
Proof.
  unfold idsOf. rewrite default_copyArray, <- list_fmap_compose.
  by apply list_fmap_ext.
Qed.

Lemma ids_edgeModelToEntity xs :
  ee_id <$> default [] (copyArray edgeModelToEntity xs) = idsOf xs.
Proof.
  unfold idsOf. rewrite default_copyArray, <- list_fmap_compose.
  by apply list_fmap_ext.
Qed.

(** The entity written after the reconcilers has unique ids when each of
    the three reconciled collections has. *)
Lemma uniqueIds_vertexModelToEntity v :
  NoDup (idsOf (v_aliases v)) ->
  NoDup (idsOf (v_resources v)) ->
  NoDup (idsOf (v_edges v)) ->
  uniqueIds (vertexModelToEntity v).
Proof.
  intros Ha Hr He. unfold uniqueIds. simpl.
  by rewrite ids_aliasModelToEntity, ids_resourceModelToEntity, ids_edgeModelToEntity.
Qed.

Lemma uniqueIds_reconciled context v metadataSchema metadata aliases resources edges
    v' written :
  NoDup (idsOf (v_aliases v)) ->
  NoDup (idsOf (v_resources v)) ->
  NoDup (idsOf (v_edges v)) ->
  noTombstoneResupplied (v_aliases v) aliases = true ->
  noTombstoneResupplied (v_resources v) resources = true ->
  noTombstoneResupplied (v_edges v) edges = true ->
  reconcile context v metadataSchema metadata aliases resources edges = Ok v' ->
  v_aliases written = v_aliases v' ->
  v_resources written = v_resources v' ->
  v_edges written = v_edges v' ->
  uniqueIds (vertexModelToEntity written).
Proof.
  intros Ha Hr He Hna Hnr Hne
    (aliases' & resources' & edges' & Hal & Hrl & Hel & ->)%reconcile_inv
    Hwa Hwr Hwe.
  apply uniqueIds_vertexModelToEntity; rewrite ?Hwa, ?Hwr, ?Hwe; simpl.
  - by eapply updateList_NoDup.
  - by eapply updateList_NoDup.
  - by eapply updateList_NoDup.
Qed.

(** C5 (as the code has it). In every world reached by create, update and
    removeImmutable calls among which no update list supplies the id of an
    element that is already soft-deleted, the ids are unique within the
    aliases, within the resources and within the edges of every stored
    vertex. *)
Theorem C5_ids_unique_without_resupply (svc : Service) (w : World) :
  reachableWithoutResupply svc w -> allUniqueIds w.
Proof.
  induction 1 as
    [ imm
    | w now id ms m al rs es ident node w' urn _ IH Hc
    | w now id ms m al rs es ident node w' _ IH Hfresh Hu
    | w id node w' _ IH Hr ]; intros k e' Hk.
  - simpl in Hk. by rewrite lookup_empty in Hk.
  - apply create_inv in Hc
      as (user & nodeId & v' & _ & _ & Hrec & -> & Hch & _).
    simpl in Hk. rewrite lookup_insert in Hk. case_decide; [|by eapply IH].
    injection Hk as <-. rewrite (addChangeset_changed _ _ _ _ _ Hch). simpl.
    eapply uniqueIds_reconciled; [..|exact Hrec|done|done|done];
      simpl; by try constructor.
  - apply update_inv in Hu
      as (vid & e & user & nodeId & v' & _ & _ & Hvid & He & Hrec & Hcases).
    destruct Hcases as [[_ ->]|[Hch ->]]; [by eapply IH|].
    simpl in Hk. rewrite lookup_insert in Hk. case_decide; [|by eapply IH].
    injection Hk as <-. rewrite (addChangeset_changed _ _ _ _ _ Hch). simpl.
    unfold suppliesNoTombstone in Hfresh. rewrite Hvid, He in Hfresh.
    apply andb_true_iff in Hfresh as [[Hna Hnr]%andb_true_iff Hne].
    destruct (IH _ _ He) as (Hua & Hur & Hue).
    eapply uniqueIds_reconciled; [..|exact Hrec|done|done|done]; simpl; try done.
    + by rewrite idsOf_aliasEntityToModel.
    + by rewrite idsOf_resourceEntityToModel.
    + by rewrite idsOf_edgeEntityToModel.
  - apply removeImmutable_inv in Hr as (vid & e & nodeId & _ & _ & He & Hcases).
    destruct Hcases as [[_ ->]|[_ ->]]; [by eapply IH|].
    simpl in Hk. rewrite lookup_insert in Hk. case_decide; [|by eapply IH].
    injection Hk as <-. apply (IH _ _ He).
Qed.
End StoredIds.

(** C5 (instance). The alias swap supplies no tombstoned id: the world after
    it has unique ids. *)
Lemma C5_ids_unique_after_alias_swap : allUniqueIds Scenarios.swapped.
Proof.
  apply (C5_ids_unique_without_resupply TestEnv.service).
  apply (fresh_update TestEnv.service Scenarios.created TestEnv.SECOND_TICK
           Scenarios.VERTEX_URN None None
           (Some [Scenarios.foo321; Scenarios.bar456]) None None
           Scenarios.user Scenarios.node).
  - apply (fresh_create TestEnv.service TestEnv.emptyWorld TestEnv.FIRST_TICK
             TestEnv.VERTEX_ID None None
             (Some [Scenarios.foo123; Scenarios.bar456]) None None
             Scenarios.user Scenarios.node Scenarios.created Scenarios.VERTEX_URN).
    + apply fresh_empty.
    + vm_compute. reflexivity.
  - vm_compute. reflexivity.
  - vm_compute. reflexivity.
Defined.

(** ** Scenario worlds are reachable *)

Lemma reachable_created : reachable TestEnv.service Scenarios.created.
Proof.
  apply (reachable_create TestEnv.service TestEnv.emptyWorld TestEnv.FIRST_TICK
           TestEnv.VERTEX_ID None None
           (Some [Scenarios.foo123; Scenarios.bar456]) None None
           Scenarios.user Scenarios.node Scenarios.created Scenarios.VERTEX_URN).
  - apply reachable_empty.
  - vm_compute. reflexivity.
Qed.

Lemma reachable_emptied : reachable TestEnv.service Scenarios.emptied.
Proof.
  apply (reachable_update TestEnv.service Scenarios.created TestEnv.SECOND_TICK
           Scenarios.VERTEX_URN None None (Some []) None None
           Scenarios.user Scenarios.node).
  - apply reachable_created.
  - vm_compute. reflexivity.
Qed.

Lemma reachable_recreated : reachable TestEnv.service Scenarios.recreated.
Proof.
  apply (reachable_update TestEnv.service Scenarios.emptied TestEnv.THIRD_TICK
           Scenarios.VERTEX_URN None None (Some [Scenarios.foo123]) None None
           Scenarios.user Scenarios.node).
  - apply reachable_emptied.
  - vm_compute. reflexivity.
Qed.

(** C5 (counterexample). A vertex is created with the aliases foo123 and
    bar456, an update with an empty alias list soft-deletes both, and a
    second update supplies foo123 again: the stored aliases then hold the id
    foo123 twice, once on the tombstone and once on the new element. *)
Lemma C5_recreated_id_repeats :
  reachable TestEnv.service Scenarios.recreated
  ∧ Scenarios.aliasIds Scenarios.recreated = ["foo123"; "bar456"; "foo123"]
  ∧ Scenarios.aliasDeletions Scenarios.recreated
    = [Some TestEnv.SECOND_TICK; Some TestEnv.SECOND_TICK; None]
  ∧ ¬ NoDup (Scenarios.aliasIds Scenarios.recreated).
Proof.
  split; [apply reachable_recreated|].
  assert (Hids : Scenarios.aliasIds Scenarios.recreated = ["foo123"; "bar456"; "foo123"])
    by (vm_compute; reflexivity).
  split; [done|]. split; [vm_compute; reflexivity|].
  rewrite Hids. intros [Hn _]%NoDup_cons. apply Hn. repeat constructor.
Qed.

(** ** The alias index *)

Section AliasIndex.
Context `{Collaborators}.

Lemma aliasIndex_vertexModelToEntity v :
  e_aliasIndex (vertexModelToEntity v)
  = aliasIndexOf (e_aliases (vertexModelToEntity v)).
Proof.
  simpl. unfold aliasIndexOf, copyArray.
  destruct (v_aliases v) as [[|a l]|]; simpl; [done| |done].
  rewrite <- list_fmap_compose. done.
Qed.

(** C6. In every world reached by create, update and removeImmutable
    calls, the alias index of every stored vertex is the lowercased
    [||]-join of the ids of all its aliases, live and tombstoned, in the
    order of the collection, and it is absent when the vertex has no
    aliases. *)
Theorem C6_aliasIndex_joins_all_alias_ids (svc : Service) (w : World)
    (k : string) (e : AuditableItemGraphVertex) :
  reachable svc w ->
  _vertexStorage w !! k = Some e ->
  e_aliasIndex e = aliasIndexOf (e_aliases e).
Proof.
  intros Hreach. revert k e.
  induction Hreach as
    [ imm
    | w now id ms m al rs es ident node w' urn _ IH Hc
    | w now id ms m al rs es ident node w' _ IH Hu
    | w id node w' _ IH Hr ]; intros k e' Hk.
  - simpl in Hk. by rewrite lookup_empty in Hk.
  - apply create_inv in Hc as (user & nodeId & v' & _ & _ & _ & -> & _ & _).
    simpl in Hk. rewrite lookup_insert in Hk. case_decide; [|by eapply IH].
    injection Hk as <-. apply aliasIndex_vertexModelToEntity.
  - apply update_inv in Hu
      as (vid & e & user & nodeId & v' & _ & _ & _ & He & _ & Hcases).
    destruct Hcases as [[_ ->]|[_ ->]]; [by eapply IH|].
    simpl in Hk. rewrite lookup_insert in Hk. case_decide; [|by eapply IH].
    injection Hk as <-. apply aliasIndex_vertexModelToEntity.
  - apply removeImmutable_inv in Hr as (vid & e & nodeId & _ & _ & He & Hcases).
    destruct Hcases as [[_ ->]|[_ ->]]; [by eapply IH|].
    simpl in Hk. rewrite lookup_insert in Hk. case_decide; [|by eapply IH].
    injection Hk as <-. apply (IH _ _ He).
Qed.
End AliasIndex.

(** C6 (instance). After the re-creation of foo123 the stored index lists the
    two tombstones and the new alias. *)
Lemma C6_aliasIndex_after_recreation :
  match _vertexStorage Scenarios.recreated !! TestEnv.VERTEX_ID with
  | Some e =>
      e_aliasIndex e = aliasIndexOf (H := TestEnv.collaborators) (e_aliases e)
      ∧ e_aliasIndex e = Some "foo123||bar456||foo123"
  | None => False
  end.
Proof.
  destruct (_vertexStorage Scenarios.recreated !! TestEnv.VERTEX_ID) as [e|] eqn:He.
  - split.
    + exact (C6_aliasIndex_joins_all_alias_ids TestEnv.service Scenarios.recreated
               TestEnv.VERTEX_ID e reachable_recreated He).
    + vm_compute in He. injection He as <-. reflexivity.
  - vm_compute in He. discriminate He.
Defined.

(** ** The read path *)

Section ReadPath.
Context `{Collaborators}.

Lemma copyArray_not_empty {A B} (f : A -> B) (xs : option (list A)) :
  copyArray f xs ≠ Some [].
Proof. by destruct xs as [[|x l]|]. Qed.

Lemma dropDeleted_liveOnly {A} (deleted : A -> option N) (xs : option (list A)) :
  xs ≠ Some [] -> dropDeleted deleted xs = liveOnly deleted xs.
Proof.
  intros Hxs. unfold dropDeleted, liveOnly.
  destruct xs as [[|x l]|]; [done| |done].
  simpl Is_arrayValue. cbv iota.
  destruct (List.filter _ _) as [|y l']; [done|].
  reflexivity.
Qed.

(** The elements that [liveOnly] keeps are the ones without a [deleted]
    epoch, and it never yields an empty collection. *)
Lemma liveOnly_elem_of {A} (deleted : A -> option N) (xs : option (list A)) (a : A) :
  a ∈ default [] (liveOnly deleted xs)
  ↔ a ∈ default [] xs ∧ deleted a = None.
Proof.
  unfold liveOnly.
  assert (Hf : a ∈ List.filter (fun a => Is_undefined (deleted a)) (default [] xs)
               ↔ a ∈ default [] xs ∧ deleted a = None).
  { rewrite !list_elem_of_In, filter_In.
    destruct (deleted a); simpl; split; intros [? ?]; done. }
  destruct (List.filter _ _) as [|y l'] eqn:Hl; simpl; [|done].
  rewrite <- Hf. done.
Qed.

Lemma liveOnly_not_empty {A} (deleted : A -> option N) (xs : option (list A)) :
  liveOnly deleted xs ≠ Some [].
Proof. unfold liveOnly. by destruct (List.filter _ _). Qed.

(** [get] succeeds on every stored vertex. *)
Lemma get_ok svc w id options vertexId e :
  id ≠ "" ->
  vertexIdOfUrn id = Ok vertexId ->
  _vertexStorage w !! vertexId = Some e ->
  ∃ r, get svc w id options = Ok r.
Proof.
  intros Hid Hvid He. unfold get.
  rewrite Guards_stringValue_pass by done. simpl. rewrite Hvid. simpl. rewrite He.
  destruct (match options ≫= verifySignatureDepth with
            | Some VerifyCurrent => _ | Some VerifyAll => _ | _ => _ end).
  simpl. eauto.
Qed.

(** C7. For every successful [get]: unless [includeDeleted] is true, each
    collection of the returned vertex holds exactly the stored elements
    without a [deleted] epoch, in their stored order, and a collection left
    without elements is absent; unless [includeChangesets] is true, the
    returned vertex has no [changesets]. *)
Theorem C7_get_filters_deleted_and_strips_changesets (svc : Service) (w : World)
    (id : string) (options : option GetOptions) (r : GetResult) :
  get svc w id options = Ok r ->
  ∃ vertexId e,
    vertexIdOfUrn id = Ok vertexId
    ∧ _vertexStorage w !! vertexId = Some e
    ∧ (options ≫= includeDeleted ≠ Some true ->
       let stored := vertexEntityToModel e in
       (v_aliases (vertex r) = liveOnly alias_deleted (v_aliases stored)
        ∧ v_resources (vertex r) = liveOnly resource_deleted (v_resources stored)
        ∧ v_edges (vertex r) = liveOnly edge_deleted (v_edges stored))
       ∧ (∀ a, a ∈ default [] (v_aliases (vertex r)) -> alias_deleted a = None)
       ∧ (∀ a, a ∈ default [] (v_resources (vertex r)) -> resource_deleted a = None)
       ∧ (∀ a, a ∈ default [] (v_edges (vertex r)) -> edge_deleted a = None)
       ∧ v_aliases (vertex r) ≠ Some []
       ∧ v_resources (vertex r) ≠ Some []
       ∧ v_edges (vertex r) ≠ Some [])
    ∧ (options ≫= includeChangesets ≠ Some true ->
       v_changesets (vertex r) = None).
Proof.
  unfold get. intros Hg.
  invert_bind Hg as id' Hid. apply Guards_stringValue_Ok in Hid as [[= <-] _].
  invert_bind Hg as vertexId Hvid. apply catchWith_Ok in Hg.
  destruct (_vertexStorage w !! vertexId) as [e|] eqn:He; [|discriminate].
  exists vertexId, e. split; [done|]. split; [done|].
  destruct (match options ≫= verifySignatureDepth with
            | Some VerifyCurrent => _ | Some VerifyAll => _ | _ => _ end)
    as [verified' verification'].
  injection Hg as <-. cbn [vertex]. split.
  - intros Hdel.
    assert (Hd : default false (options ≫= includeDeleted) = false).
    { destruct (options ≫= includeDeleted) as [[|]|]; done. }
    rewrite Hd. cbn [negb].
    assert (Hlive :
      dropDeleted alias_deleted (v_aliases (vertexEntityToModel e))
      = liveOnly alias_deleted (v_aliases (vertexEntityToModel e))
      ∧ dropDeleted resource_deleted (v_resources (vertexEntityToModel e))
        = liveOnly resource_deleted (v_resources (vertexEntityToModel e))
      ∧ dropDeleted edge_deleted (v_edges (vertexEntityToModel e))
        = liveOnly edge_deleted (v_edges (vertexEntityToModel e))).
    { repeat split; apply dropDeleted_liveOnly, copyArray_not_empty. }
    cbn [vertexEntityToModel v_aliases v_resources v_edges] in Hlive |- *.
    destruct Hlive as (-> & -> & ->).
    destruct (negb (default false (options ≫= includeChangesets)));
      cbn [set_changesets set_edges set_resources set_aliases
           v_aliases v_resources v_edges].
    all: split; [done|].
    all: split; [intros a Ha'; by apply liveOnly_elem_of in Ha' as [_ ?]|].
    all: split; [intros a Ha'; by apply liveOnly_elem_of in Ha' as [_ ?]|].
    all: split; [intros a Ha'; by apply liveOnly_elem_of in Ha' as [_ ?]|].
    all: split; [apply liveOnly_not_empty|].
    all: split; apply liveOnly_not_empty.
  - intros Hcs.
    assert (Hc : default false (options ≫= includeChangesets) = false).
    { destruct (options ≫= includeChangesets) as [[|]|]; done. }
    rewrite Hc. cbn [negb]. by destruct (negb _).
Qed.
End ReadPath.

(** C7 (instance). A default [get] on the vertex whose aliases were all
    soft-deleted returns no alias collection and no changesets. *)
Lemma C7_get_after_emptying :
  match get TestEnv.service Scenarios.emptied Scenarios.VERTEX_URN None with
  | Ok r =>
      (∀ a, a ∈ default [] (v_aliases (vertex r)) -> alias_deleted a = None)
      ∧ v_aliases (vertex r) ≠ Some []
      ∧ v_changesets (vertex r) = None
      ∧ v_aliases (vertex r) = None
  | Err _ => False
  end.
Proof.
  destruct (get TestEnv.service Scenarios.emptied Scenarios.VERTEX_URN None)
    as [r|err] eqn:Hg.
  - destruct (C7_get_filters_deleted_and_strips_changesets _ _ _ _ _ Hg)
      as (vertexId & e & _ & _ & Hdel & Hcs).
    destruct Hdel as (_ & Ha & _ & _ & Hne & _); [discriminate|].
    split; [exact Ha|]. split; [exact Hne|].
    split; [apply Hcs; discriminate|].
    vm_compute in Hg. injection Hg as <-. reflexivity.
  - vm_compute in Hg. discriminate Hg.
Defined.

(** ** Success of the operations on valid input *)

Section Totality.
Context {E U : Type} `{Reconcilable E U}.

Lemma updateElement_ok (now : N) (elems : option (list E)) (u : U) :
  input_guard u = Ok () -> ∃ elems', updateElement now elems u = Ok elems'.
Proof.
  intros Hg. unfold updateElement. rewrite Hg. simpl.
  destruct (list_find _ _) as [[i existing]|]; [|eauto].
  destruct (truthy _); [eauto|]. destruct (elem_differs _ _); eauto.
Qed.

Lemma forEachM_updateElement_ok (now : N) (upd : list U) :
  Forall (fun u => input_guard u = Ok ()) upd ->
  ∀ elems, ∃ elems', forEachM (updateElement now) elems upd = Ok elems'.
Proof.
  induction 1 as [|u upd Hu _ IH]; intros elems; simpl; [eauto|].
  destruct (updateElement_ok now elems u Hu) as [elems1 ->]. simpl. apply IH.
Qed.

Lemma updateList_ok (now : N) (elems : option (list E)) (upd : option (list U)) :
  Forall (fun u => input_guard u = Ok ()) (default [] upd) ->
  ∃ elems', updateList now elems upd = Ok elems'.
Proof.
  intros Hg. unfold updateList. destruct (Is_arrayValue upd); [|eauto].
  by apply forEachM_updateElement_ok.
Qed.
End Totality.

Section Forward.
Context `{Collaborators}.

Lemma validElementInputs_alias l :
  validElementInputs l = true ->
  Forall (fun u => input_guard (E := IAuditableItemGraphAlias) u = Ok ()) (default [] l).
Proof.
  unfold validElementInputs. rewrite forallb_forall, Forall_forall.
  intros Hall u Hu%list_elem_of_In. specialize (Hall u Hu). apply bool_decide_eq_true in Hall.
  simpl. by rewrite bool_decide_eq_false_2.
Qed.

Lemma validElementInputs_resource l :
  validElementInputs l = true ->
  Forall (fun u => input_guard (E := IAuditableItemGraphResource) u = Ok ()) (default [] l).
Proof.
  unfold validElementInputs. rewrite forallb_forall, Forall_forall.
  intros Hall u Hu%list_elem_of_In. specialize (Hall u Hu). apply bool_decide_eq_true in Hall.
  simpl. by rewrite bool_decide_eq_false_2.
Qed.

Lemma validEdgeInputs_edge l :
  validEdgeInputs l = true ->
  Forall (fun u => input_guard (E := IAuditableItemGraphEdge) u = Ok ()) (default [] l).
Proof.
  unfold validEdgeInputs. rewrite forallb_forall, Forall_forall.
  intros Hall u Hu%list_elem_of_In. specialize (Hall u Hu).
  apply andb_true_iff in Hall as [Hid%bool_decide_eq_true Hrel%bool_decide_eq_true].
  simpl. rewrite (bool_decide_eq_false_2 (ein_id u = "")) by done. simpl.
  by rewrite bool_decide_eq_false_2.
Qed.

(** The reconcilers succeed when every item passes its guards. *)
Lemma reconcile_ok context v metadataSchema metadata aliases resources edges :
  validElementInputs aliases = true ->
  validElementInputs resources = true ->
  validEdgeInputs edges = true ->
  ∃ v', reconcile context v metadataSchema metadata aliases resources edges = Ok v'.
Proof.
  intros Ha%validElementInputs_alias Hr%validElementInputs_resource
         He%validEdgeInputs_edge.
  unfold reconcile.
  destruct (updateList_ok (now context) (v_aliases v) aliases Ha) as [al Hal].
  destruct (updateList_ok (now context) (v_resources v) resources Hr) as [rl Hrl].
  destruct (updateList_ok (now context) (v_edges v) edges He) as [el Hel].
  rewrite updateAliasList_updateList. simpl. rewrite Hal. simpl.
  rewrite updateResourceList_updateList. simpl. rewrite Hrl. simpl.
  rewrite updateEdgeList_updateList. simpl. rewrite Hel. simpl. eauto.
Qed.

(** [create] with both identities set, in terms of its two stages. *)
Lemma create_reconciled svc w now id metadataSchema metadata aliases resources edges
    user nodeId reconciled :
  user ≠ "" -> nodeId ≠ "" ->
  reconcile (mkContext now user nodeId) (zeroVertex id nodeId now)
            metadataSchema metadata aliases resources edges = Ok reconciled ->
  let added :=
    addChangeset svc (_integrityImmutableStorage w) (mkContext now user nodeId)
                 (zeroVertex id nodeId now) reconciled in
  create svc w now id metadataSchema metadata aliases resources edges
         (Some user) (Some nodeId)
  = Ok ({| _vertexStorage := <[id := vertexModelToEntity added.1.2]> (_vertexStorage w);
           _integrityImmutableStorage := added.1.1 |},
        Urn_toString NAMESPACE id).
Proof.
  intros Hu Hn Hrec. simpl.
  pose proof Hrec as (al & rl & el & Hal & Hrl & Hel & ->)%reconcile_inv.
  unfold create. rewrite !Guards_stringValue_pass by done. simpl in *.
  rewrite updateAliasList_updateList. simpl. rewrite Hal. simpl.
  rewrite updateResourceList_updateList. simpl. rewrite Hrl. simpl.
  rewrite updateEdgeList_updateList. simpl. rewrite Hel. simpl.
  unfold zeroVertex, set_metadata, set_aliases, set_resources, set_edges. simpl.
  match goal with
  | |- context [addChangeset ?s ?i ?c ?o ?u] =>
      assert (Hch : (addChangeset s i c o u).2 = true)
        by (apply addChangeset_changes_iff; by right);
      rewrite (addChangeset_changed _ _ _ _ _ Hch)
  end.
  done.
Qed.

(** [update] on a stored vertex, in terms of its two stages. *)
Lemma update_reconciled svc w now id metadataSchema metadata aliases resources edges
    user nodeId vertexId e reconciled :
  id ≠ "" -> user ≠ "" -> nodeId ≠ "" ->
  vertexIdOfUrn id = Ok vertexId ->
  _vertexStorage w !! vertexId = Some e ->
  reconcile (mkContext now user nodeId) (vertexEntityToModel e)
            metadataSchema metadata aliases resources edges = Ok reconciled ->
  let added :=
    addChangeset svc (_integrityImmutableStorage w) (mkContext now user nodeId)
                 (vertexEntityToModel e) reconciled in
  update svc w now id metadataSchema metadata aliases resources edges
         (Some user) (Some nodeId)
  = Ok (if added.2
        then {| _vertexStorage :=
                  <[e_id e := vertexModelToEntity (set_updated now added.1.2)]>
                    (_vertexStorage w);
                _integrityImmutableStorage := added.1.1 |}
        else w).
Proof.
  intros Hid Hu Hn Hvid He Hrec. simpl.
  pose proof Hrec as (al & rl & el & Hal & Hrl & Hel & ->)%reconcile_inv.
  unfold update. rewrite !Guards_stringValue_pass by done. simpl.
  rewrite Hvid. simpl. rewrite He. simpl in *.
  rewrite updateAliasList_updateList. simpl. rewrite Hal. simpl.
  rewrite updateResourceList_updateList. simpl. rewrite Hrl. simpl.
  rewrite updateEdgeList_updateList. simpl. rewrite Hel. simpl.
  unfold set_metadata, set_aliases, set_resources, set_edges. simpl.
  match goal with
  | |- context [addChangeset ?s ?i ?c ?o ?u] =>
      destruct (addChangeset s i c o u).2 eqn:Hch;
      [ rewrite (addChangeset_changed _ _ _ _ _ Hch)
      | rewrite (addChangeset_unchanged _ _ _ _ _ Hch) ]
  end.
  - done.
  - simpl. by destruct w.
Qed.
End Forward.

(** ** When a changeset is written *)

Section ChangesetWritten.
Context `{Collaborators}.

Lemma copyArray_snoc {A} (l : list A) (x : A) :
  copyArray id (Some (l ++ [x])) = Some (l ++ [x]).
Proof.
  unfold copyArray.
  assert (Is_arrayValue (Some (l ++ [x])) = true) as -> by by destruct l.
  cbn [default]. by rewrite list_fmap_id.
Qed.

(** C4. With valid identities and update lists: [create] succeeds and
    stores the vertex with exactly one changeset, whose patches are the
    difference between the zero-value vertex and the reconciled one, empty
    or not.  [update] on a stored vertex either finds an empty difference
    while a changeset exists, and then returns the world as it was (no
    changeset, no write to the storage, [updated] as before); or finds a
    non-empty difference or no changeset, and then stores the vertex with
    one more changeset and [updated = now]. *)
Theorem C4_changeset_appended_iff_patches_or_first (svc : Service) (w : World)
    (now : N) (id urn : string)
    (metadataSchema : option string) (metadata : option Json)
    (aliases resources : option (list ElementInput))
    (edges : option (list EdgeInput)) (user nodeId : string) :
  user ≠ "" -> nodeId ≠ "" ->
  validElementInputs aliases = true ->
  validElementInputs resources = true ->
  validEdgeInputs edges = true ->
  (∃ reconciled w' e' c,
     reconcile (mkContext now user nodeId) (zeroVertex id nodeId now)
               metadataSchema metadata aliases resources edges = Ok reconciled
     ∧ create svc w now id metadataSchema metadata aliases resources edges
              (Some user) (Some nodeId) = Ok (w', Urn_toString NAMESPACE id)
     ∧ _vertexStorage w' !! id = Some e'
     ∧ e_changesets e' = Some [c]
     ∧ cs_created c = now
     ∧ cs_userIdentity c = user
     ∧ cs_patches c = diff (zeroVertex id nodeId now) reconciled)
  ∧ (∀ vertexId e,
       urn ≠ "" ->
       vertexIdOfUrn urn = Ok vertexId ->
       _vertexStorage w !! vertexId = Some e ->
       ∃ reconciled,
         reconcile (mkContext now user nodeId) (vertexEntityToModel e)
                   metadataSchema metadata aliases resources edges = Ok reconciled
         ∧ let patches := diff (vertexEntityToModel e) reconciled in
           let previous := default [] (e_changesets e) in
           (patches = [] ∧ previous ≠ []
            ∧ update svc w now urn metadataSchema metadata aliases resources edges
                     (Some user) (Some nodeId) = Ok w)
           ∨ ((patches ≠ [] ∨ previous = [])
              ∧ ∃ e' c imm',
                  update svc w now urn metadataSchema metadata aliases resources edges
                         (Some user) (Some nodeId)
                  = Ok {| _vertexStorage := <[e_id e := e']> (_vertexStorage w);
                          _integrityImmutableStorage := imm' |}
                  ∧ e_changesets e' = Some (previous ++ [c])
                  ∧ e_updated e' = now
                  ∧ cs_created c = now
                  ∧ cs_userIdentity c = user
                  ∧ cs_patches c = patches)).
Proof.
  intros Hu Hn Hal Hrl Hel. split.
  - destruct (reconcile_ok (mkContext now user nodeId) (zeroVertex id nodeId now)
                metadataSchema metadata aliases resources edges Hal Hrl Hel)
      as [reconciled Hrec].
    pose proof (create_reconciled svc w now id _ _ _ _ _ user nodeId reconciled
                  Hu Hn Hrec) as Hc. simpl in Hc.
    assert (Hch : (addChangeset svc (_integrityImmutableStorage w)
                     (mkContext now user nodeId) (zeroVertex id nodeId now)
                     reconciled).2 = true)
      by (apply addChangeset_changes_iff; by right).
    rewrite (addChangeset_changed _ _ _ _ _ Hch) in Hc. simpl in Hc.
    eexists reconciled, _, _, _. split; [done|]. split; [exact Hc|].
    split; [simpl; apply lookup_insert_eq|]. simpl. done.
  - intros vertexId e Hurn Hvid He.
    destruct (reconcile_ok (mkContext now user nodeId) (vertexEntityToModel e)
                metadataSchema metadata aliases resources edges Hal Hrl Hel)
      as [reconciled Hrec].
    exists reconciled. split; [done|].
    pose proof (update_reconciled svc w now urn _ _ _ _ _ user nodeId vertexId e
                  reconciled Hurn Hu Hn Hvid He Hrec) as Hupd. simpl in Hupd.
    pose proof (addChangeset_changes_iff svc (_integrityImmutableStorage w)
                  (mkContext now user nodeId) (vertexEntityToModel e) reconciled)
      as Hiff.
    simpl in Hiff. rewrite copyArray_id in Hiff.
    destruct (addChangeset svc (_integrityImmutableStorage w)
                (mkContext now user nodeId) (vertexEntityToModel e) reconciled).2
      eqn:Hch.
    + right. split; [by apply Hiff|].
      rewrite (addChangeset_changed _ _ _ _ _ Hch) in Hupd. simpl in Hupd.
      rewrite copyArray_id in Hupd.
      eexists _, _, _. split; [exact Hupd|].
      simpl. rewrite copyArray_snoc. done.
    + left. simpl.
      destruct (diff (vertexEntityToModel e) reconciled) as [|p ps] eqn:Hd.
      * destruct (default [] (e_changesets e)) as [|c cs] eqn:Hcs.
        -- exfalso. assert (Ht : false = true) by (apply Hiff; by right). done.
        -- done.
      * exfalso. assert (Ht : false = true) by (apply Hiff; by left). done.
Qed.
End ChangesetWritten.

(** C4 (instance). An update that repeats the aliases of the create call finds
    an empty difference and returns the world as it was. *)
Lemma C4_identical_update_is_noop :
  update TestEnv.service Scenarios.created TestEnv.SECOND_TICK Scenarios.VERTEX_URN
         None None (Some [Scenarios.foo123; Scenarios.bar456]) None None
         Scenarios.user Scenarios.node
  = Ok Scenarios.created.
Proof.
  destruct (_vertexStorage Scenarios.created !! TestEnv.VERTEX_ID) as [e|] eqn:He;
    [|vm_compute in He; discriminate He].
  destruct (C4_changeset_appended_iff_patches_or_first
              TestEnv.service Scenarios.created TestEnv.SECOND_TICK
              TestEnv.VERTEX_ID Scenarios.VERTEX_URN None None
              (Some [Scenarios.foo123; Scenarios.bar456]) None None
              TestEnv.TEST_USER_IDENTITY TestEnv.TEST_NODE_IDENTITY)
    as [_ Hupd]; [discriminate|discriminate|reflexivity|reflexivity|reflexivity|].
  destruct (Hupd TestEnv.VERTEX_ID e) as (reconciled & Hrec & [(_ & _ & Hu)|(Hcond & _)]);
    [discriminate|reflexivity|exact He| |].
  - exact Hu.
  - exfalso. vm_compute in He. injection He as <-.
    vm_compute in Hrec. injection Hrec as <-.
    vm_compute in Hcond. destruct Hcond as [Hp|Hc]; [by apply Hp|discriminate Hc].
Defined.

(** ** Metadata passed to update *)

Section MetadataOverwrite.
Context `{Collaborators}.

Lemma written_entity reconciled now previous c :
  let e' := vertexModelToEntity
              (set_updated now (set_changesets (Some (previous ++ [c])) reconciled)) in
  e_metadata e' = v_metadata reconciled
  ∧ e_metadataSchema e' = v_metadataSchema reconciled
  ∧ e_changesets e' = Some (previous ++ [c])
  ∧ e_updated e' = now.
Proof.
  cbn [vertexModelToEntity set_updated set_changesets e_metadata e_metadataSchema
       e_changesets e_updated v_metadata v_metadataSchema v_changesets v_updated].
  by rewrite copyArray_snoc.
Qed.

(** C9. [update] assigns the passed [metadataSchema] and [metadata] to
    the vertex whatever was stored: the vertex written by the call carries
    the passed values.  When [metadata] is omitted while the stored vertex
    has one, and the difference engine reports removed properties, the call
    writes the vertex without metadata and with a new changeset that holds
    the remove patch for [/metadata]; likewise for [metadataSchema]. *)
Theorem C9_update_overwrites_metadata (svc : Service) (w : World) (now : N)
    (urn : string) (metadataSchema : option string) (metadata : option Json)
    (aliases resources : option (list ElementInput))
    (edges : option (list EdgeInput)) (user nodeId vertexId : string)
    (e : AuditableItemGraphVertex) :
  urn ≠ "" -> user ≠ "" -> nodeId ≠ "" ->
  validElementInputs aliases = true ->
  validElementInputs resources = true ->
  validEdgeInputs edges = true ->
  vertexIdOfUrn urn = Ok vertexId ->
  _vertexStorage w !! vertexId = Some e ->
  (∀ P U, v_metadata P ≠ None -> v_metadata U = None ->
          mkPatch "remove" "/metadata" None ∈ diff P U) ->
  (∀ P U, v_metadataSchema P ≠ None -> v_metadataSchema U = None ->
          mkPatch "remove" "/metadataSchema" None ∈ diff P U) ->
  ∃ w',
    update svc w now urn metadataSchema metadata aliases resources edges
           (Some user) (Some nodeId) = Ok w'
    ∧ (w' = w
       ∨ ∃ e', _vertexStorage w' !! e_id e = Some e'
               ∧ e_metadataSchema e' = metadataSchema
               ∧ e_metadata e' = metadata)
    ∧ (metadata = None -> e_metadata e ≠ None ->
       ∃ e' c, _vertexStorage w' !! e_id e = Some e'
               ∧ e_metadata e' = None
               ∧ last (default [] (e_changesets e')) = Some c
               ∧ cs_created c = now
               ∧ mkPatch "remove" "/metadata" None ∈ cs_patches c)
    ∧ (metadataSchema = None -> e_metadataSchema e ≠ None ->
       ∃ e' c, _vertexStorage w' !! e_id e = Some e'
               ∧ e_metadataSchema e' = None
               ∧ last (default [] (e_changesets e')) = Some c
               ∧ cs_created c = now
               ∧ mkPatch "remove" "/metadataSchema" None ∈ cs_patches c).
Proof.
  intros Hurn Hu Hn Hal Hrl Hel Hvid He Hdm Hds.
  destruct (reconcile_ok (mkContext now user nodeId) (vertexEntityToModel e)
              metadataSchema metadata aliases resources edges Hal Hrl Hel)
    as [reconciled Hrec].
  pose proof (update_reconciled svc w now urn _ _ _ _ _ user nodeId vertexId e
                reconciled Hurn Hu Hn Hvid He Hrec) as Hupd. simpl in Hupd.
  pose proof (addChangeset_changes_iff svc (_integrityImmutableStorage w)
                (mkContext now user nodeId) (vertexEntityToModel e) reconciled)
    as Hiff.
  pose proof Hrec as (al & rl & el & _ & _ & _ & Hshape)%reconcile_inv.
  assert (Hm : v_metadata reconciled = metadata) by by rewrite Hshape.
  assert (Hs : v_metadataSchema reconciled = metadataSchema) by by rewrite Hshape.
  eexists. split; [exact Hupd|].
  destruct (addChangeset svc (_integrityImmutableStorage w)
              (mkContext now user nodeId) (vertexEntityToModel e) reconciled).2
    eqn:Hch.
  - rewrite (addChangeset_changed _ _ _ _ _ Hch). cbn [fst snd _vertexStorage].
    rewrite !lookup_insert_eq.
    match goal with
    | |- context [vertexModelToEntity
                    (set_updated now (set_changesets (Some (?l ++ [?c])) reconciled))] =>
        destruct (written_entity reconciled now l c) as (Hem & Hes & Hec & _)
    end.
    split; [right; eexists; split; [done|]; by rewrite Hem, Hes, Hm, Hs|]. split.
    + intros -> Hstored. eexists _, _. split; [done|].
      rewrite Hem, Hec, Hm. unfold default, from_option, id. rewrite last_snoc.
      split; [done|]. split; [done|]. split; [done|]. by apply Hdm.
    + intros -> Hstored. eexists _, _. split; [done|].
      rewrite Hes, Hec, Hs. unfold default, from_option, id. rewrite last_snoc.
      split; [done|]. split; [done|]. split; [done|]. by apply Hds.
  - split; [by left|].
    assert (Hnil : diff (vertexEntityToModel e) reconciled = []).
    { destruct (diff (vertexEntityToModel e) reconciled) eqn:Hd; [done|].
      exfalso. assert (Ht : false = true) by (apply Hiff; by left). done. }
    split.
    + intros -> Hstored. exfalso.
      eapply (elem_of_nil (mkPatch "remove" "/metadata" None)).
      rewrite <- Hnil. by apply Hdm.
    + intros -> Hstored. exfalso.
      eapply (elem_of_nil (mkPatch "remove" "/metadataSchema" None)).
      rewrite <- Hnil. by apply Hds.
Qed.
End MetadataOverwrite.

(** The difference of [TestEnv] reports a removed [metadata] and a removed
    [metadataSchema]. *)
Lemma diffVertex_removes_metadata (P U : IAuditableItemGraphVertex) :
  v_metadata P ≠ None -> v_metadata U = None ->
  mkPatch "remove" "/metadata" None ∈ TestEnv.diffVertex P U.
Proof.
  intros HP HU. unfold TestEnv.diffVertex. rewrite HU.
  destruct (v_metadata P) as [m|]; [|done].
  rewrite !elem_of_app. right. left. simpl. by left.
Qed.

Lemma diffVertex_removes_metadataSchema (P U : IAuditableItemGraphVertex) :
  v_metadataSchema P ≠ None -> v_metadataSchema U = None ->
  mkPatch "remove" "/metadataSchema" None ∈ TestEnv.diffVertex P U.
Proof.
  intros HP HU. unfold TestEnv.diffVertex. rewrite HU.
  destruct (v_metadataSchema P) as [m|]; [|done].
  rewrite !elem_of_app. left. simpl. by left.
Qed.

(** C9 (instance). A vertex is created with a schema and a metadata value; an
    update that passes neither succeeds and writes the vertex without them,
    with the two remove patches in its new changeset. *)
Lemma C9_omitted_metadata_is_removed :
  match _vertexStorage Scenarios.createdWithMetadata !! TestEnv.VERTEX_ID with
  | Some e =>
      ∃ w',
        update TestEnv.service Scenarios.createdWithMetadata TestEnv.SECOND_TICK
               Scenarios.VERTEX_URN None None None None None
               Scenarios.user Scenarios.node = Ok w'
        ∧ (∃ e' c, _vertexStorage w' !! e_id e = Some e'
                   ∧ e_metadata e' = None
                   ∧ last (default [] (e_changesets e')) = Some c
                   ∧ cs_created c = TestEnv.SECOND_TICK
                   ∧ mkPatch "remove" "/metadata" None ∈ cs_patches c)
        ∧ (∃ e' c, _vertexStorage w' !! e_id e = Some e'
                   ∧ e_metadataSchema e' = None
                   ∧ last (default [] (e_changesets e')) = Some c
                   ∧ cs_created c = TestEnv.SECOND_TICK
                   ∧ mkPatch "remove" "/metadataSchema" None ∈ cs_patches c)
  | None => False
  end.
Proof.
  destruct (_vertexStorage Scenarios.createdWithMetadata !! TestEnv.VERTEX_ID)
    as [e|] eqn:He; [|vm_compute in He; discriminate He].
  destruct (C9_update_overwrites_metadata
              TestEnv.service Scenarios.createdWithMetadata TestEnv.SECOND_TICK
              Scenarios.VERTEX_URN None None None None None
              TestEnv.TEST_USER_IDENTITY TestEnv.TEST_NODE_IDENTITY
              TestEnv.VERTEX_ID e)
    as (w' & Hupd & _ & Hm & Hs);
    [discriminate|discriminate|discriminate|reflexivity|reflexivity|reflexivity
    |reflexivity|exact He
    |exact diffVertex_removes_metadata|exact diffVertex_removes_metadataSchema|].
  exists w'. split; [exact Hupd|].
  vm_compute in He. injection He as <-.
  split; [apply Hm|apply Hs]; (reflexivity || discriminate).
Defined.

(** ** The hash chain *)

Section HashChain.
Context `{Collaborators}.

(** The concatenation fed to Blake2b: no separators. *)
Lemma changesetDigest_formula previous created user patches :
  changesetDigest previous created user patches
  = blake2b256 (default [] previous ++ utf8ToBytes (toString created)
                ++ utf8ToBytes user ++ toBytes patches).
Proof.
  unfold changesetDigest, b2b_digest, b2b_update, Blake2b_new.
  destruct previous as [h|]; simpl; by rewrite <- ?app_assoc.
Qed.

Lemma length_chainDigests changesets :
  ∀ previous, length (chainDigests previous changesets) = length changesets.
Proof. induction changesets as [|c cs IH]; intros previous; simpl; [done|by rewrite IH]. Qed.

Lemma chainDigests_app l1 l2 :
  ∀ previous,
    chainDigests previous (l1 ++ l2)
    = chainDigests previous l1 ++ chainDigests (lastDigest previous l1) l2.
Proof.
  induction l1 as [|c l1 IH]; intros previous; [done|].
  simpl. rewrite IH. f_equal. f_equal. unfold lastDigest. simpl.
  destruct (chainDigests _ l1) as [|d ds] eqn:Hd; [done|].
  rewrite last_cons_cons. destruct (last (d :: ds)) eqn:Hl; [done|].
  by apply last_None in Hl.
Qed.

Lemma lastDigest_None changesets :
  lastDigest None changesets = last (chainDigests None changesets).
Proof. unfold lastDigest. by destruct (last _). Qed.

(** The digests depend on the epoch, the user and the patches only. *)
Lemma chainDigests_ext (f : IAuditableItemGraphChangeset -> IAuditableItemGraphChangeset)
    changesets :
  (∀ c, cs_created (f c) = cs_created c ∧ cs_userIdentity (f c) = cs_userIdentity c
        ∧ cs_patches (f c) = cs_patches c) ->
  ∀ previous, chainDigests previous (f <$> changesets) = chainDigests previous changesets.
Proof.
  intros Hf. induction changesets as [|c cs IH]; intros previous; [done|].
  csimpl. destruct (Hf c) as (-> & -> & ->). by rewrite IH.
Qed.

Lemma detach_fields c :
  cs_created (detach c) = cs_created c
  ∧ cs_userIdentity (detach c) = cs_userIdentity c
  ∧ cs_patches (detach c) = cs_patches c.
Proof. unfold detach. by destruct (Is_stringValue _). Qed.

Lemma detach_hash c : cs_hash (detach c) = cs_hash c.
Proof. unfold detach. by destruct (Is_stringValue _). Qed.

Lemma chainValid_detach changesets :
  chainValid changesets -> chainValid (detach <$> changesets).
Proof.
  unfold chainValid. rewrite (chainDigests_ext detach _ detach_fields).
  intros <-. rewrite <- list_fmap_compose. apply list_fmap_ext.
  intros _ c _. apply detach_hash.
Qed.

(** With a reversible base64, the decoded hash of the last changeset of a
    valid chain is its raw digest. *)
Lemma chainValid_last changesets :
  (∀ b, base64ToBytes (bytesToBase64 b) = b) ->
  chainValid changesets ->
  (fun c => base64ToBytes (cs_hash c)) <$> last changesets
  = last (chainDigests None changesets).
Proof.
  intros Hb64 Hv. unfold chainValid in Hv.
  assert (Hd : base64ToBytes <$> (cs_hash <$> changesets)
               = chainDigests None changesets).
  { rewrite Hv, <- list_fmap_compose. rewrite <- (list_fmap_id (chainDigests _ _)) at 2.
    apply list_fmap_ext. intros _ b _. apply Hb64. }
  rewrite <- Hd, <- list_fmap_compose, fmap_last. done.
Qed.

Lemma chainValid_snoc changesets c :
  chainValid changesets ->
  cs_hash c = bytesToBase64
                (changesetDigest (last (chainDigests None changesets))
                                 (cs_created c) (cs_userIdentity c) (cs_patches c)) ->
  chainValid (changesets ++ [c]).
Proof.
  unfold chainValid. intros Hv Hc.
  rewrite chainDigests_app, !fmap_app, Hv, lastDigest_None. simpl. by rewrite Hc.
Qed.

(** Every stored chain is valid in every reachable world. *)
Lemma reachable_chainValid svc w k e :
  (∀ b, base64ToBytes (bytesToBase64 b) = b) ->
  reachable svc w ->
  _vertexStorage w !! k = Some e ->
  chainValid (default [] (e_changesets e)).
Proof.
  intros Hb64 Hreach. revert k e.
  induction Hreach as
    [ imm
    | w now xid ms m al rs es ident node w' urn _ IH Hc
    | w now xid ms m al rs es ident node w' _ IH Hu
    | w xid node w' _ IH Hr ]; intros k e' Hk.
  - simpl in Hk. by rewrite lookup_empty in Hk.
  - apply create_inv in Hc as (user & nodeId & v' & _ & _ & _ & -> & Hch & _).
    simpl in Hk. rewrite lookup_insert in Hk. case_decide; [|by eapply IH].
    injection Hk as <-. rewrite (addChangeset_changed _ _ _ _ _ Hch).
    cbn [fst snd vertexModelToEntity e_changesets set_changesets v_changesets].
    rewrite copyArray_id. cbn [default from_option id zeroVertex v_changesets].
    by apply (chainValid_snoc []).
  - apply update_inv in Hu
      as (vid & e & user & nodeId & v' & _ & _ & _ & He & _ & Hcases).
    destruct Hcases as [[_ ->]|[Hch ->]]; [by eapply IH|].
    simpl in Hk. rewrite lookup_insert in Hk. case_decide; [|by eapply IH].
    injection Hk as <-. rewrite (addChangeset_changed _ _ _ _ _ Hch).
    cbn [fst snd vertexModelToEntity e_changesets set_changesets set_updated
         v_changesets].
    rewrite copyArray_id. cbn [default from_option id].
    cbn [vertexEntityToModel v_changesets]. rewrite copyArray_id.
    apply chainValid_snoc; [by eapply IH|].
    cbn [cs_hash cs_created cs_userIdentity cs_patches].
    rewrite chainValid_last; [done|done|by eapply IH].
  - apply removeImmutable_inv in Hr as (vid & e & nodeId & _ & _ & He & Hcases).
    destruct Hcases as [[_ ->]|[_ ->]]; [by eapply IH|].
    simpl in Hk. rewrite lookup_insert in Hk. case_decide; [|by eapply IH].
    injection Hk as <-. simpl. apply chainValid_detach. by eapply IH.
Qed.

Lemma chainDigests_lookup changesets :
  ∀ previous i c,
    changesets !! i = Some c ->
    chainDigests previous changesets !! i
    = Some (changesetDigest
              match i with
              | O => previous
              | S j => chainDigests previous changesets !! j
              end
              (cs_created c) (cs_userIdentity c) (cs_patches c)).
Proof.
  induction changesets as [|c0 cs IH]; intros previous i c Hi; [done|].
  destruct i as [|i]; simpl in *.
  - by injection Hi as ->.
  - rewrite (IH _ _ _ Hi). by destruct i.
Qed.

(** C2 (as the code has it). In every world reached by create, update and
    removeImmutable calls, with a reversible base64: the raw digest of the
    changeset at index [i] of a stored vertex is Blake2b-256 of the
    concatenation, without separators, of the raw digest of the changeset
    before it (nothing for the first), the decimal digits of [created], the
    bytes of [userIdentity] and the bytes that [ObjectHelper.toBytes] gives
    for the patches, which are not their canonical serialisation; the
    stored [hash] is the base64 of that digest.  And whenever [addChangeset]
    writes a changeset, the signature placed in the credential it stores is
    the signature of the raw digest whose base64 is the [hash] of that
    changeset. *)
Theorem C2_hash_chain_formula (svc : Service) (w : World) (k : string)
    (e : AuditableItemGraphVertex) (i : nat) (c : IAuditableItemGraphChangeset) :
  (∀ b, base64ToBytes (bytesToBase64 b) = b) ->
  reachable svc w ->
  _vertexStorage w !! k = Some e ->
  default [] (e_changesets e) !! i = Some c ->
  (∃ digest,
     chainDigests None (default [] (e_changesets e)) !! i = Some digest
     ∧ digest = blake2b256 (previousDigest (default [] (e_changesets e)) i
                            ++ utf8ToBytes (toString (cs_created c))
                            ++ utf8ToBytes (cs_userIdentity c)
                            ++ toBytes (cs_patches c))
     ∧ cs_hash c = bytesToBase64 digest)
  ∧ (∀ imm context originalModel updatedModel,
       (addChangeset svc imm context originalModel updatedModel).2 = true ->
       ∃ digest credential written immutableStorageId,
         last (default [] (v_changesets
                 (addChangeset svc imm context originalModel updatedModel).1.2))
         = Some written
         ∧ cs_hash written = bytesToBase64 digest
         ∧ cred_signature credential
           = bytesToBase64
               (vault_sign (nodeIdentity context +:+ "/" +:+ _vaultKeyId svc) digest)
         ∧ imm_store imm (nodeIdentity context)
             (utf8ToBytes
                (createVerifiableCredential (nodeIdentity context)
                   (nodeIdentity context +:+ "#" +:+ _assertionMethodId svc)
                   "AuditableItemGraphIntegrity" credential))
           = ((addChangeset svc imm context originalModel updatedModel).1.1,
              immutableStorageId)
         ∧ cs_immutableStorageId written = Some immutableStorageId).
Proof.
  intros Hb64 Hreach Hk Hi. split.
  - pose proof (reachable_chainValid svc w k e Hb64 Hreach Hk) as Hv.
    pose proof (chainDigests_lookup _ None i c Hi) as Hd.
    eexists. split; [exact Hd|]. split.
    + rewrite changesetDigest_formula. unfold previousDigest. by destruct i.
    + unfold chainValid in Hv.
      assert (Hh : (cs_hash <$> default [] (e_changesets e)) !! i
                   = (bytesToBase64 <$> chainDigests None (default [] (e_changesets e))) !! i)
        by by rewrite Hv.
      rewrite !list_lookup_fmap, Hi, Hd in Hh. simpl in Hh. by injection Hh.
  - intros imm context originalModel updatedModel Hch.
    rewrite (addChangeset_changed _ _ _ _ _ Hch).
    cbn [fst snd set_changesets v_changesets]. unfold default at 1, from_option, id.
    rewrite last_snoc.
    eexists _, (credentialData svc context (diff originalModel updatedModel) _), _, _.
    split; [done|]. split; [done|]. split; [done|]. split; [|done].
    apply surjective_pairing.
Qed.
End HashChain.

Lemma reachable_swapped : reachable TestEnv.service Scenarios.swapped.
Proof.
  apply (reachable_update TestEnv.service Scenarios.created TestEnv.SECOND_TICK
           Scenarios.VERTEX_URN None None
           (Some [Scenarios.foo321; Scenarios.bar456]) None None
           Scenarios.user Scenarios.node).
  - apply reachable_created.
  - vm_compute. reflexivity.
Qed.

(** The encodings of [TestEnv] are reversible. *)
Lemma TestEnv_base64_roundtrip (b : list byte) :
  base64ToBytes (Collaborators := TestEnv.collaborators)
    (bytesToBase64 (Collaborators := TestEnv.collaborators) b) = b.
Proof. apply list_byte_of_string_of_list_byte. Qed.

Section HashChainInstance.
#[local] Existing Instance TestEnv.collaborators.

(** C2 (instance). The second changeset of the alias swap is chained to the
    digest of the first. *)
Lemma C2_second_changeset_of_swap :
  match _vertexStorage Scenarios.swapped !! TestEnv.VERTEX_ID with
  | Some e =>
      match default [] (e_changesets e) !! 1%nat with
      | Some c =>
          ∃ digest,
            chainDigests None (default [] (e_changesets e)) !! 1%nat = Some digest
            ∧ digest = blake2b256 (previousDigest (default [] (e_changesets e)) 1
                                   ++ utf8ToBytes (toString (cs_created c))
                                   ++ utf8ToBytes (cs_userIdentity c)
                                   ++ toBytes (cs_patches c))
            ∧ cs_hash c = bytesToBase64 digest
      | None => False
      end
  | None => False
  end.
Proof.
  destruct (_vertexStorage Scenarios.swapped !! TestEnv.VERTEX_ID) as [e|] eqn:He;
    [|vm_compute in He; discriminate He].
  pose proof He as He'. vm_compute in He'. injection He' as <-.
  match goal with
  | |- match ?l !! 1%nat with _ => _ end =>
      destruct (l !! 1%nat) as [c|] eqn:Hi; [|vm_compute in Hi; discriminate Hi]
  end.
  exact (proj1 (C2_hash_chain_formula TestEnv.service Scenarios.swapped
                  TestEnv.VERTEX_ID _ 1%nat c TestEnv_base64_roundtrip
                  reachable_swapped He Hi)).
Defined.
End HashChainInstance.

Section HashChainOfTheTests.
#[local] Existing Instance HashEnv.collaborators.

Lemma reachable_createdWithAliases :
  reachable HashEnv.service HashEnv.createdWithAliases.
Proof.
  unfold HashEnv.createdWithAliases.
  destruct (create HashEnv.service HashEnv.emptyWorld _ _ _ _ _ _ _ _ _)
    as [[w urn]|err] eqn:Hc.
  - eapply reachable_create; [apply reachable_empty|exact Hc].
  - apply reachable_empty.
Qed.

(** C2 (counterexample). The vertex of the test "Can create a vertex with
    an alias": created with the aliases foo123 and bar456 at the first tick,
    by the user identity of the tests, under Blake2b-256 and base64.  Its
    one changeset stores the hash that the test expects, which is the digest
    over [ObjectHelper.toBytes(patches)]: the JSON text of the patches with
    the members in the order in which they were written, [id] before
    [created].  The digest over the canonical serialisation of the same
    patches, where [created] comes before [id], is another one. *)
Lemma C2_canonical_patches_give_another_hash :
  reachable HashEnv.service HashEnv.createdWithAliases
  ∧ match _vertexStorage HashEnv.createdWithAliases !! TestEnv.VERTEX_ID with
    | Some e =>
        match default [] (e_changesets e) with
        | [c] =>
            cs_hash c = "Ht6zFJi0yl+MYTKgk+HdZW1PLWjJmSOwOkqrAA1NfVU="
            ∧ cs_hash c
              = bytesToBase64
                  (blake2b256 (utf8ToBytes (toString (cs_created c))
                               ++ utf8ToBytes (cs_userIdentity c)
                               ++ toBytes (cs_patches c)))
            ∧ bytesToBase64
                (blake2b256 (utf8ToBytes (toString (cs_created c))
                             ++ utf8ToBytes (cs_userIdentity c)
                             ++ HashEnv.canonicalBytes (cs_patches c)))
              = "74H2a44MRq4GdaGwAGNQX8bH20vjMpLy8MGt+HVFoLw="
            ∧ cs_hash c
              ≠ bytesToBase64
                  (blake2b256 (utf8ToBytes (toString (cs_created c))
                               ++ utf8ToBytes (cs_userIdentity c)
                               ++ HashEnv.canonicalBytes (cs_patches c)))
        | _ => False
        end
    | None => False
    end.
Proof.
  split; [apply reachable_createdWithAliases|].
  vm_compute. split; [reflexivity|]. split; [reflexivity|]. split; [reflexivity|].
  discriminate.
Qed.
End HashChainOfTheTests.

(** ** The verifier *)

Section Verifier.
Context `{Collaborators}.

(** The digest handed to the next turn is the recomputed one. *)
Lemma verifyChangeset_digest svc imm vertex depth len i lastHash c :
  (verifyChangeset svc imm vertex depth len i lastHash c).1.1
  = changesetDigest lastHash (cs_created c) (cs_userIdentity c) (cs_patches c).
Proof.
  unfold verifyChangeset. case_bool_decide; [done|].
  destruct (match depth with VerifyAll => _ | _ => _ end); [|done].
  destruct (if Is_stringValue (cs_immutableStorageId c) then _ else _)
    as [[[failure p] n] u].
  by destruct (Is_stringValue failure).
Qed.

(** A turn clears [verified] exactly when its entry carries
    [failureProperties]. *)
Lemma verifyChangeset_failed svc imm vertex depth len i lastHash c :
  (verifyChangeset svc imm vertex depth len i lastHash c).2
  = negb (Is_empty (ver_failureProperties
                      (verifyChangeset svc imm vertex depth len i lastHash c).1.2)).
Proof.
  unfold verifyChangeset. case_bool_decide; [done|].
  destruct (match depth with VerifyAll => _ | _ => _ end); [|done].
  destruct (if Is_stringValue (cs_immutableStorageId c) then _ else _)
    as [[[failure p] n] u].
  by destruct (Is_stringValue failure).
Qed.

(** On a hash mismatch the entry records [invalidChangesetHash], carries no
    [failureProperties], and the turn leaves [verified] alone. *)
Lemma verifyChangeset_mismatch svc imm vertex depth len i lastHash c :
  bytesToBase64 (changesetDigest lastHash (cs_created c) (cs_userIdentity c)
                                 (cs_patches c)) ≠ cs_hash c ->
  verifyChangeset svc imm vertex depth len i lastHash c
  = (changesetDigest lastHash (cs_created c) (cs_userIdentity c) (cs_patches c),
     mkVerification (cs_created c) (cs_patches c) (Some "invalidChangesetHash") None,
     false).
Proof. intros Hne. unfold verifyChangeset. by rewrite bool_decide_eq_true_2. Qed.

(** The failures of a credential check are never [invalidChangesetHash]. *)
Lemma checkCredential_failure svc imm vertex c signature sid :
  (checkCredential svc imm vertex c signature sid).1.1.1 ≠ Some "invalidChangesetHash".
Proof.
  unfold checkCredential. destruct (checkVerifiableCredential _).1; [done|].
  case_bool_decide; [done|]. destruct (Is_stringValue _); [|done].
  simpl. by case_bool_decide.
Qed.

(** An entry reports [invalidChangesetHash] exactly on a hash mismatch. *)
Lemma verifyChangeset_hash_failure svc imm vertex depth len i lastHash c :
  ver_failure (verifyChangeset svc imm vertex depth len i lastHash c).1.2
  = Some "invalidChangesetHash"
  ↔ bytesToBase64 (changesetDigest lastHash (cs_created c) (cs_userIdentity c)
                                   (cs_patches c)) ≠ cs_hash c.
Proof.
  split; [|intros Hne; by rewrite verifyChangeset_mismatch].
  unfold verifyChangeset. case_bool_decide as Hh; [done|].
  destruct (match depth with VerifyAll => _ | _ => _ end); [|done].
  pose proof (checkCredential_failure svc imm vertex c
                (vault_sign (v_nodeIdentity vertex +:+ "/" +:+ _vaultKeyId svc)
                   (changesetDigest lastHash (cs_created c) (cs_userIdentity c)
                      (cs_patches c)))
                (default "" (cs_immutableStorageId c))) as Hcred.
  destruct (Is_stringValue (cs_immutableStorageId c)).
  - destruct (checkCredential _ _ _ _ _ _) as [[[failure p] n] u]. simpl in Hcred.
    destruct (Is_stringValue failure) eqn:Hf; simpl; [done|].
    discriminate.
  - simpl. discriminate.
Qed.

(** A turn reads the vertex only for its node identity. *)
Lemma verifyChangeset_vertex_ext svc imm vertex vertex' depth len i lastHash c :
  v_nodeIdentity vertex = v_nodeIdentity vertex' ->
  verifyChangeset svc imm vertex depth len i lastHash c
  = verifyChangeset svc imm vertex' depth len i lastHash c.
Proof. intros Hn. unfold verifyChangeset, checkCredential. by rewrite Hn. Qed.

(** The entry for the changeset at index [j] of the loop: the turn run on
    the digest recomputed for the changeset before it. *)
Lemma verifyLoop_lookup svc imm vertex depth len changesets :
  ∀ i lastHash verified j c,
    changesets !! j = Some c ->
    (verifyLoop svc imm vertex depth len i lastHash verified changesets).2 !! j
    = Some (verifyChangeset svc imm vertex depth len (i + j)
              match j with
              | O => lastHash
              | S j' => chainDigests lastHash changesets !! j'
              end c).1.2.
Proof.
  induction changesets as [|c0 cs IH]; intros i lastHash verified j c Hj; [done|].
  destruct j as [|j].
  - simpl in Hj. injection Hj as ->. rewrite Nat.add_0_r. simpl.
    destruct (verifyChangeset _ _ _ _ _ _ _ _) as [[verifyHash verify] failed].
    by destruct (verifyLoop _ _ _ _ _ _ _ _ cs).
  - simpl in Hj. simpl.
    pose proof (verifyChangeset_digest svc imm vertex depth len i lastHash c0) as Hd.
    destruct (verifyChangeset svc imm vertex depth len i lastHash c0)
      as [[verifyHash verify] failed]. simpl in Hd. subst verifyHash.
    pose proof (IH (S i) (Some (changesetDigest lastHash (cs_created c0)
                                  (cs_userIdentity c0) (cs_patches c0)))
                  (if failed then false else verified) j c Hj) as Hrec.
    destruct (verifyLoop svc imm vertex depth len (S i) _ _ cs)
      as [verified' verification].
    simpl in *. rewrite Hrec.
    replace (i + S j)%nat with (S (i + j)) by lia. by destruct j.
Qed.

(** One entry for each changeset. *)
Lemma verifyLoop_length svc imm vertex depth len changesets :
  ∀ i lastHash verified,
    length (verifyLoop svc imm vertex depth len i lastHash verified changesets).2
    = length changesets.
Proof.
  induction changesets as [|c0 cs IH]; intros i lastHash verified; [done|].
  simpl. destruct (verifyChangeset _ _ _ _ _ _ _ _) as [[verifyHash verify] failed].
  specialize (IH (S i) (Some verifyHash) (if failed then false else verified)).
  destruct (verifyLoop _ _ _ _ _ _ _ _ cs). simpl in *. by rewrite IH.
Qed.

(** The aggregate flag is false exactly when some entry carries
    [failureProperties]. *)
Lemma verifyLoop_verified svc imm vertex depth len changesets :
  ∀ i lastHash verified,
    (verifyLoop svc imm vertex depth len i lastHash verified changesets).1
    = verified
      && forallb (fun v => Is_empty (ver_failureProperties v))
           (verifyLoop svc imm vertex depth len i lastHash verified changesets).2.
Proof.
  induction changesets as [|c0 cs IH]; intros i lastHash verified; simpl.
  - by rewrite andb_true_r.
  - pose proof (verifyChangeset_failed svc imm vertex depth len i lastHash c0) as Hf.
    destruct (verifyChangeset _ _ _ _ _ _ _ _) as [[verifyHash verify] failed].
    simpl in Hf. subst failed.
    pose proof (IH (S i) (Some verifyHash)
                  (if negb (Is_empty (ver_failureProperties verify))
                   then false else verified)) as Hrec.
    pose proof (IH (S i) (Some verifyHash) true) as Htrue.
    destruct (verifyLoop _ _ _ _ _ _ _ _ cs) as [verified' verification] eqn:Hloop.
    simpl in *. rewrite Hrec.
    destruct (Is_empty (ver_failureProperties verify)); simpl; [done|].
    by rewrite andb_false_r.
Qed.

Lemma verifyChangesets_lookup svc imm vertex depth changesets j c :
  v_changesets vertex = Some changesets ->
  changesets !! j = Some c ->
  (verifyChangesets svc imm vertex depth).2 !! j
  = Some (verifyChangeset svc imm vertex depth (length changesets) j
            match j with
            | O => None
            | S j' => chainDigests None changesets !! j'
            end c).1.2.
Proof.
  intros Hcs Hj. unfold verifyChangesets. rewrite Hcs.
  destruct changesets as [|c0 cs]; [done|].
  cbn [Is_arrayValue default from_option id].
  by rewrite (verifyLoop_lookup _ _ _ _ _ _ _ _ _ _ _ Hj).
Qed.

Lemma verifyChangesets_length svc imm vertex depth :
  length (verifyChangesets svc imm vertex depth).2
  = length (default [] (v_changesets vertex)).
Proof.
  unfold verifyChangesets. destruct (v_changesets vertex) as [[|c0 cs]|]; [done| |done].
  cbn [Is_arrayValue default from_option id]. apply verifyLoop_length.
Qed.

(** Overwriting the hash of one changeset changes no recomputed digest. *)
Lemma chainDigests_set_hash changesets :
  ∀ previous i c h,
    changesets !! i = Some c ->
    chainDigests previous (<[i := set_hash h c]> changesets)
    = chainDigests previous changesets.
Proof.
  induction changesets as [|c0 cs IH]; intros previous i c h Hi; [done|].
  destruct i as [|i]; simpl in *.
  - by injection Hi as ->.
  - by rewrite (IH _ _ _ _ Hi).
Qed.

(** In a valid chain every stored hash matches the digest recomputed from
    the digest of the changeset before. *)
Lemma chainValid_lookup changesets j c :
  chainValid changesets ->
  changesets !! j = Some c ->
  cs_hash c
  = bytesToBase64
      (changesetDigest
         match j with
         | O => None
         | S j' => chainDigests None changesets !! j'
         end
         (cs_created c) (cs_userIdentity c) (cs_patches c)).
Proof.
  intros Hv Hj. unfold chainValid in Hv.
  assert (Hh : (cs_hash <$> changesets) !! j
               = (bytesToBase64 <$> chainDigests None changesets) !! j)
    by by rewrite Hv.
  rewrite !list_lookup_fmap, Hj, (chainDigests_lookup _ _ _ _ Hj) in Hh.
  simpl in Hh. by injection Hh.
Qed.

(** The digests recomputed along the chain are the linked digests. *)
Lemma chainDigests_linked changesets :
  ∀ previous,
    chainDigests previous changesets = linkedDigests (default [] previous) changesets.
Proof.
  induction changesets as [|c cs IH]; intros previous; [done|].
  assert (Hd : changesetDigest previous (cs_created c) (cs_userIdentity c) (cs_patches c)
               = blake2b256 (default [] previous ++ utf8ToBytes (toString (cs_created c))
                             ++ utf8ToBytes (cs_userIdentity c) ++ toBytes (cs_patches c))).
  { unfold changesetDigest, b2b_digest, b2b_update, Blake2b_new.
    destruct previous as [h|]; simpl; by rewrite <- ?app_assoc. }
  simpl. rewrite Hd. f_equal. by rewrite IH.
Qed.

Lemma chainDigests_None_linked changesets :
  chainDigests None changesets = linkedDigests [] changesets.
Proof. apply (chainDigests_linked changesets None). Qed.

(** C10. The verifier chains each changeset to the digest it recomputed
    for the changeset before, never to a stored hash.  For any vertex,
    whatever its stored hashes: the entry of the changeset at index [j]
    reports [invalidChangesetHash] exactly when the stored hash of that
    changeset differs from the base64 of Blake2b-256 over the digest
    computed in the same way for the changeset at [j - 1] (nothing for the
    first), the decimal digits of [created], the bytes of [userIdentity]
    and the serialised patches.  Consequently, in a vertex whose stored
    hashes were those digests before the hash of the changeset at index [i]
    alone was overwritten, the digests are what they were, the entry of
    changeset [i] reports [invalidChangesetHash], every other entry is the
    one reported before the overwrite, and none of them reports
    [invalidChangesetHash]. *)
Theorem C10_tampered_hash_fails_alone (svc : Service) (imm : ImmutableStorage)
    (vertex : IAuditableItemGraphVertex) (depth : VerifyDepth)
    (changesets : list IAuditableItemGraphChangeset) :
  v_changesets vertex = Some changesets ->
  (∀ j c,
     changesets !! j = Some c ->
     ∃ v digest,
       (verifyChangesets svc imm vertex depth).2 !! j = Some v
       ∧ linkedDigests [] changesets !! j = Some digest
       ∧ digest
         = blake2b256 (match j with
                       | O => []
                       | S j' => default [] (linkedDigests [] changesets !! j')
                       end
                       ++ utf8ToBytes (toString (cs_created c))
                       ++ utf8ToBytes (cs_userIdentity c)
                       ++ toBytes (cs_patches c))
       ∧ (ver_failure v = Some "invalidChangesetHash"
          ↔ cs_hash c ≠ bytesToBase64 digest))
  ∧ (∀ i c h,
       changesets !! i = Some c ->
       cs_hash <$> changesets = bytesToBase64 <$> linkedDigests [] changesets ->
       h ≠ cs_hash c ->
       let tampered := <[i := set_hash h c]> changesets in
       let before := (verifyChangesets svc imm vertex depth).2 in
       let after :=
         (verifyChangesets svc imm (set_changesets (Some tampered) vertex) depth).2 in
       linkedDigests [] tampered = linkedDigests [] changesets
       ∧ (∃ v, after !! i = Some v ∧ ver_failure v = Some "invalidChangesetHash")
       ∧ (∀ j, j ≠ i -> after !! j = before !! j)
       ∧ (∀ j v, j ≠ i -> after !! j = Some v ->
                 ver_failure v ≠ Some "invalidChangesetHash")).
Proof.
  intros Hcs.
  assert (Hentry : ∀ vertex' changesets' j c,
            v_changesets vertex' = Some changesets' ->
            changesets' !! j = Some c ->
            ∃ v digest,
              (verifyChangesets svc imm vertex' depth).2 !! j = Some v
              ∧ linkedDigests [] changesets' !! j = Some digest
              ∧ digest
                = blake2b256 (match j with
                              | O => []
                              | S j' => default [] (linkedDigests [] changesets' !! j')
                              end
                              ++ utf8ToBytes (toString (cs_created c))
                              ++ utf8ToBytes (cs_userIdentity c)
                              ++ toBytes (cs_patches c))
              ∧ (ver_failure v = Some "invalidChangesetHash"
                 ↔ cs_hash c ≠ bytesToBase64 digest)).
  { intros vertex' changesets' j c Hcs' Hj.
    pose proof (chainDigests_lookup changesets' None j c Hj) as Hd.
    rewrite (verifyChangesets_lookup _ _ _ _ changesets' j c Hcs' Hj).
    eexists _, _. split; [done|].
    split; [rewrite <- chainDigests_None_linked; exact Hd|].
    split.
    - rewrite changesetDigest_formula. f_equal. f_equal.
      destruct j as [|j']; [done|].
      by rewrite <- chainDigests_None_linked.
    - rewrite verifyChangeset_hash_failure. split; intros Hne Heq; by apply Hne. }
  split; [intros j c Hj; by apply Hentry|].
  intros i c h Hi Hvalid Hne tampered before after.
  assert (Hdig : linkedDigests [] tampered = linkedDigests [] changesets).
  { subst tampered.
    rewrite <- !chainDigests_None_linked. by apply chainDigests_set_hash. }
  assert (Hstored : ∀ j cj, changesets !! j = Some cj ->
            ∃ digest, linkedDigests [] changesets !! j = Some digest
                      ∧ cs_hash cj = bytesToBase64 digest).
  { intros j cj Hj.
    assert (Hh : (cs_hash <$> changesets) !! j
                 = (bytesToBase64 <$> linkedDigests [] changesets) !! j)
      by by rewrite Hvalid.
    rewrite !list_lookup_fmap, Hj in Hh. simpl in Hh.
    destruct (linkedDigests [] changesets !! j) as [digest|]; [|done].
    exists digest. split; [done|]. by injection Hh. }
  assert (Hlt : (i < length changesets)%nat) by by eapply lookup_lt_Some.
  assert (Hother : ∀ j, j ≠ i -> after !! j = before !! j).
  { intros j Hji. subst after before.
    destruct (changesets !! j) as [cj|] eqn:Hj.
    - rewrite (verifyChangesets_lookup _ _ _ _ tampered j cj); [|done|].
      2:{ subst tampered. by rewrite list_lookup_insert_ne. }
      rewrite (verifyChangesets_lookup _ _ _ _ changesets j cj) by done.
      subst tampered. rewrite length_insert, chainDigests_set_hash by done.
      by rewrite (verifyChangeset_vertex_ext _ _ _ vertex) by done.
    - apply lookup_ge_None in Hj.
      rewrite !(proj2 (lookup_ge_None _ _)); [done| |].
      + by rewrite verifyChangesets_length, Hcs.
      + rewrite verifyChangesets_length. simpl. subst tampered.
        by rewrite length_insert. }
  split; [done|]. split; [|split; [done|]].
  - destruct (Hentry (set_changesets (Some tampered) vertex) tampered i (set_hash h c))
      as (v & digest & Hv & Hd & _ & Hfail); [done| |].
    { subst tampered. by apply list_lookup_insert_eq. }
    exists v. split; [exact Hv|]. apply Hfail. simpl.
    destruct (Hstored i c Hi) as (digest' & Hd' & Hh).
    rewrite Hdig, Hd' in Hd. injection Hd as <-. by rewrite <- Hh.
  - intros j v Hji Hv. rewrite (Hother j Hji) in Hv. subst before.
    destruct (changesets !! j) as [cj|] eqn:Hj.
    + destruct (Hentry vertex changesets j cj Hcs Hj) as (v' & digest & Hv' & Hd & _ & Hfail).
      rewrite Hv' in Hv. injection Hv as <-. rewrite Hfail.
      destruct (Hstored j cj Hj) as (digest' & Hd' & Hh).
      rewrite Hd' in Hd. injection Hd as <-. by intros Hmis.
    + apply lookup_ge_None in Hj.
      rewrite (proj2 (lookup_ge_None _ _)) in Hv; [done|].
      by rewrite verifyChangesets_length, Hcs.
Qed.
End Verifier.

Section VerifierInstances.
#[local] Existing Instance TestEnv.collaborators.

(** C10 (instance). In the alias swap, overwriting the stored hash of the
    first changeset makes the first entry fail and leaves the second entry
    as it was; and the second entry is checked against the digest chained
    to the recomputed digest of the first changeset. *)
Lemma C10_tampered_first_hash_of_swap :
  match _vertexStorage Scenarios.swapped !! TestEnv.VERTEX_ID with
  | Some e =>
      let vertex := vertexEntityToModel e in
      let changesets := default [] (v_changesets vertex) in
      match changesets !! 0%nat with
      | Some c =>
          let imm := _integrityImmutableStorage Scenarios.swapped in
          let tampered := <[0%nat := set_hash "tampered" c]> changesets in
          let before := (verifyChangesets TestEnv.service imm vertex VerifyAll).2 in
          let after :=
            (verifyChangesets TestEnv.service imm
               (set_changesets (Some tampered) vertex) VerifyAll).2 in
          (linkedDigests [] tampered = linkedDigests [] changesets
           ∧ (∃ v, after !! 0%nat = Some v
                   ∧ ver_failure v = Some "invalidChangesetHash")
           ∧ (∀ j, j ≠ 0%nat -> after !! j = before !! j)
           ∧ (∀ j v, j ≠ 0%nat -> after !! j = Some v ->
                     ver_failure v ≠ Some "invalidChangesetHash"))
          ∧ (∀ j cj,
               tampered !! j = Some cj ->
               ∃ v digest,
                 after !! j = Some v
                 ∧ linkedDigests [] tampered !! j = Some digest
                 ∧ digest
                   = blake2b256 (match j with
                                 | O => []
                                 | S j' => default [] (linkedDigests [] tampered !! j')
                                 end
                                 ++ utf8ToBytes (toString (cs_created cj))
                                 ++ utf8ToBytes (cs_userIdentity cj)
                                 ++ toBytes (cs_patches cj))
                 ∧ (ver_failure v = Some "invalidChangesetHash"
                    ↔ cs_hash cj ≠ bytesToBase64 digest))
      | None => False
      end
  | None => False
  end.
Proof.
  destruct (_vertexStorage Scenarios.swapped !! TestEnv.VERTEX_ID) as [e|] eqn:He;
    [|vm_compute in He; discriminate He].
  vm_compute in He. injection He as <-.
  cbv zeta.
  match goal with
  | |- match default [] (v_changesets ?v) !! 0%nat with _ => _ end =>
      destruct (default [] (v_changesets v) !! 0%nat) as [c|] eqn:Hi;
        [|vm_compute in Hi; discriminate Hi];
      split;
        [apply (proj2 (C10_tampered_hash_fails_alone TestEnv.service
                         (_integrityImmutableStorage Scenarios.swapped) v VerifyAll
                         (default [] (v_changesets v)) eq_refl) 0%nat c "tampered")
        |apply (proj1 (C10_tampered_hash_fails_alone TestEnv.service
                         (_integrityImmutableStorage Scenarios.swapped)
                         (set_changesets
                            (Some (<[0%nat := set_hash "tampered" c]>
                                     (default [] (v_changesets v)))) v)
                         VerifyAll
                         (<[0%nat := set_hash "tampered" c]> (default [] (v_changesets v)))
                         eq_refl))]
  end.
  - exact Hi.
  - vm_compute. reflexivity.
  - vm_compute in Hi. injection Hi as <-. discriminate.
Defined.

(** C1. After the stored hash of the first changeset of the alias swap is
    overwritten, [get] with [verifySignatureDepth = all] reports
    [invalidChangesetHash] on the first changeset, still reports the second
    changeset, and returns [verified = true]. *)
Lemma C1_hash_failure_leaves_verified_true :
  Scenarios.reportedFailures
    (get TestEnv.service Scenarios.tampered Scenarios.VERTEX_URN Scenarios.verifyAll)
  = [Some "invalidChangesetHash"; None]
  ∧ Scenarios.reportedVerified
      (get TestEnv.service Scenarios.tampered Scenarios.VERTEX_URN Scenarios.verifyAll)
    = Some true.
Proof. split; vm_compute; reflexivity. Qed.
End VerifierInstances.

(** ** Verification after removeImmutable *)

Section Detached.
Context `{Collaborators}.

(** An entry carries [failureProperties] only with a failure of the
    credential check. *)
Lemma verifyChangeset_failureProperties svc imm vertex depth len i lastHash c :
  ver_failureProperties (verifyChangeset svc imm vertex depth len i lastHash c).1.2 ≠ None ->
  ver_failure (verifyChangeset svc imm vertex depth len i lastHash c).1.2 ≠ None
  ∧ ver_failure (verifyChangeset svc imm vertex depth len i lastHash c).1.2
    ≠ Some "invalidChangesetHash".
Proof.
  intros Hp. split.
  - revert Hp. unfold verifyChangeset. case_bool_decide; [done|].
    destruct (match depth with VerifyAll => _ | _ => _ end); [|done].
    destruct (if Is_stringValue (cs_immutableStorageId c) then _ else _)
      as [[[failure p] n] u].
    destruct (Is_stringValue failure) eqn:Hf; [|done].
    simpl. intros _ ->. discriminate Hf.
  - intros Hh. apply verifyChangeset_hash_failure in Hh. apply Hp.
    by rewrite verifyChangeset_mismatch.
Qed.

(** Every entry of the result is the entry of one turn of the loop. *)
Lemma verifyChangesets_entries svc imm vertex depth v :
  v ∈ (verifyChangesets svc imm vertex depth).2 ->
  ∃ len i lastHash c, v = (verifyChangeset svc imm vertex depth len i lastHash c).1.2.
Proof.
  intros (j & Hj)%list_elem_of_lookup_1.
  destruct (v_changesets vertex) as [changesets|] eqn:Hcs.
  - destruct (changesets !! j) as [c|] eqn:Hc.
    + rewrite (verifyChangesets_lookup _ _ _ _ _ _ _ Hcs Hc) in Hj.
      injection Hj as <-. eauto.
    + apply lookup_ge_None in Hc. apply lookup_lt_Some in Hj.
      rewrite verifyChangesets_length, Hcs in Hj. simpl in Hj. lia.
  - unfold verifyChangesets in Hj. rewrite Hcs in Hj. done.
Qed.

(** The aggregate flag of [verifyChangesets]. *)
Lemma verifyChangesets_verified svc imm vertex depth :
  (verifyChangesets svc imm vertex depth).1
  = forallb (fun v => Is_empty (ver_failureProperties v))
            (verifyChangesets svc imm vertex depth).2.
Proof.
  unfold verifyChangesets. destruct (Is_arrayValue (v_changesets vertex)); [|done].
  by rewrite verifyLoop_verified.
Qed.

(** Whatever the number of hash mismatches, a result whose entries report
    nothing but [invalidChangesetHash] has [verified = true]. *)
Lemma verifyChangesets_hash_failures_keep_verified svc imm vertex depth :
  (∀ v, v ∈ (verifyChangesets svc imm vertex depth).2 ->
        ver_failure v = None ∨ ver_failure v = Some "invalidChangesetHash") ->
  (verifyChangesets svc imm vertex depth).1 = true.
Proof.
  intros Hall. rewrite verifyChangesets_verified. apply forallb_forall.
  intros v Hv%list_elem_of_In.
  destruct (verifyChangesets_entries _ _ _ _ _ Hv) as (len & i & lastHash & c & ->).
  destruct (ver_failureProperties _) eqn:Hp; [|done].
  destruct (verifyChangeset_failureProperties svc imm vertex depth len i lastHash c)
    as [Hnone Hhash]; [by rewrite Hp|].
  destruct (Hall _ Hv); done.
Qed.

(** A changeset without an immutable storage id whose hash matches passes:
    no credential is fetched. *)
Lemma verifyChangeset_detached svc imm vertex depth len i lastHash c :
  cs_hash c = bytesToBase64 (changesetDigest lastHash (cs_created c)
                               (cs_userIdentity c) (cs_patches c)) ->
  Is_stringValue (cs_immutableStorageId c) = false ->
  verifyChangeset svc imm vertex depth len i lastHash c
  = (changesetDigest lastHash (cs_created c) (cs_userIdentity c) (cs_patches c),
     mkVerification (cs_created c) (cs_patches c) None None,
     false).
Proof.
  intros Hh Hid. unfold verifyChangeset.
  rewrite bool_decide_eq_false_2 by (by intros ?). rewrite Hid.
  by destruct (match depth with VerifyAll => _ | _ => _ end).
Qed.

Lemma detach_not_attached c : Is_stringValue (cs_immutableStorageId (detach c)) = false.
Proof. unfold detach. by destruct (Is_stringValue (cs_immutableStorageId c)) eqn:Hid. Qed.

Lemma detach_attached c :
  Is_stringValue (cs_immutableStorageId c) = true ->
  cs_immutableStorageId (detach c) = None.
Proof. intros Hid. unfold detach. by rewrite Hid. Qed.

Lemma detach_unattached c :
  Is_stringValue (cs_immutableStorageId c) = false -> detach c = c.
Proof. intros Hid. unfold detach. by rewrite Hid. Qed.

(** The keys of the storage in every reachable world. *)
Lemma reachable_wellKeyed svc w : reachable svc w -> wellKeyed w.
Proof.
  induction 1 as
    [ imm
    | w now xid ms m al rs es ident node w' urn _ IH Hc
    | w now xid ms m al rs es ident node w' _ IH Hu
    | w xid node w' _ IH Hr ]; intros k e' Hk.
  - simpl in Hk. by rewrite lookup_empty in Hk.
  - apply create_inv in Hc as (user & nodeId & v' & _ & _ & Hrec & -> & Hch & _).
    simpl in Hk. rewrite lookup_insert in Hk. case_decide as Hkey; [|by eapply IH].
    injection Hk as <-. subst k. rewrite (addChangeset_changed _ _ _ _ _ Hch).
    apply reconcile_inv in Hrec as (? & ? & ? & _ & _ & _ & ->). done.
  - apply update_inv in Hu
      as (vid & e & user & nodeId & v' & _ & _ & _ & He & Hrec & Hcases).
    destruct Hcases as [[_ ->]|[Hch ->]]; [by eapply IH|].
    simpl in Hk. rewrite lookup_insert in Hk. case_decide as Hkey; [|by eapply IH].
    injection Hk as <-. subst k. rewrite (addChangeset_changed _ _ _ _ _ Hch).
    apply reconcile_inv in Hrec as (? & ? & ? & _ & _ & _ & ->). done.
  - apply removeImmutable_inv in Hr as (vid & e & nodeId & _ & _ & He & Hcases).
    destruct Hcases as [[_ ->]|[_ ->]]; [by eapply IH|].
    simpl in Hk. rewrite lookup_insert in Hk. case_decide as Hkey; [|by eapply IH].
    injection Hk as <-. by subst k.
Qed.

(** [get] with full verification on a stored vertex. *)
Lemma get_verifyAll svc w id incDeleted incChangesets vertexId e :
  id ≠ "" ->
  vertexIdOfUrn id = Ok vertexId ->
  _vertexStorage w !! vertexId = Some e ->
  ∃ r,
    get svc w id (Some (mkGetOptions incDeleted incChangesets (Some VerifyAll))) = Ok r
    ∧ verified r
      = Some (verifyChangesets svc (_integrityImmutableStorage w)
                (vertexEntityToModel e) VerifyAll).1
    ∧ verification r
      = Some (verifyChangesets svc (_integrityImmutableStorage w)
                (vertexEntityToModel e) VerifyAll).2.
Proof.
  intros Hid Hvid He. unfold get.
  rewrite Guards_stringValue_pass by done. simpl. rewrite Hvid. simpl. rewrite He.
  simpl. eauto.
Qed.

(** Along a valid chain of changesets without immutable storage ids, every
    turn passes and [verified] stays as it was. *)
Lemma verifyLoop_detached svc imm vertex depth len changesets :
  ∀ i lastHash verified,
    cs_hash <$> changesets = bytesToBase64 <$> chainDigests lastHash changesets ->
    Forall (fun c => Is_stringValue (cs_immutableStorageId c) = false) changesets ->
    verifyLoop svc imm vertex depth len i lastHash verified changesets
    = (verified,
       (fun c => mkVerification (cs_created c) (cs_patches c) None None) <$> changesets).
Proof.
  induction changesets as [|c cs IH]; intros i lastHash verified Hv Hd; [done|].
  apply Forall_cons in Hd as [Hc Hd]. csimpl in Hv. injection Hv as Hh Hv.
  simpl. rewrite (verifyChangeset_detached _ _ _ _ _ _ _ _ Hh Hc).
  by rewrite (IH _ _ _ Hv Hd).
Qed.

Lemma verifyChangesets_detached svc imm vertex depth :
  chainValid (default [] (v_changesets vertex)) ->
  Forall (fun c => Is_stringValue (cs_immutableStorageId c) = false)
         (default [] (v_changesets vertex)) ->
  verifyChangesets svc imm vertex depth
  = (true,
     (fun c => mkVerification (cs_created c) (cs_patches c) None None)
       <$> default [] (v_changesets vertex)).
Proof.
  intros Hv Hd. unfold verifyChangesets.
  destruct (v_changesets vertex) as [[|c cs]|]; [done| |done].
  cbn [Is_arrayValue default from_option id] in *. by apply verifyLoop_detached.
Qed.

Lemma removeImmutable_id w id nodeIdentity w' :
  removeImmutable w id nodeIdentity = Ok w' -> id ≠ "".
Proof.
  unfold removeImmutable. intros Hr.
  invert_bind Hr as id' Hid. by apply Guards_stringValue_Ok in Hid as [[= ->] ?].
Qed.

Lemma not_attached_detach changesets :
  existsb (fun c => Is_stringValue (cs_immutableStorageId c)) changesets = false ->
  detach <$> changesets = changesets ∧ attachedIds changesets = [].
Proof.
  induction changesets as [|c cs IH]; [done|].
  cbn [existsb]. intros [Hc Hcs]%orb_false_iff. destruct (IH Hcs) as [Hd Ha].
  csimpl. rewrite Hd, (detach_unattached _ Hc). split; [done|].
  unfold attachedIds in *. csimpl. by rewrite Hc.
Qed.

Lemma set_e_changesets_same e : set_e_changesets (e_changesets e) e = e.
Proof. by destruct e. Qed.

(** C8. In every reachable world, with a reversible base64, a successful
    [removeImmutable] on a vertex: passes the immutable storage id of every
    changeset that has one to [remove], in order; stores the vertex with
    these ids cleared and with [created], [userIdentity], [patches] and
    [hash] of every changeset, every other property of the vertex and every
    other vertex as they were; and afterwards [get] with
    [verifySignatureDepth = all] returns [verified = true] with one entry per
    changeset and no failure, no credential being looked at. *)
Theorem C8_removeImmutable_detaches_and_still_verifies (svc : Service) (w w' : World)
    (id : string) (nodeIdentity incDeleted incChangesets : option _) :
  (∀ b, base64ToBytes (bytesToBase64 b) = b) ->
  reachable svc w ->
  removeImmutable w id nodeIdentity = Ok w' ->
  ∃ vertexId e e' nodeId r,
    nodeIdentity = Some nodeId
    ∧ vertexIdOfUrn id = Ok vertexId
    ∧ _vertexStorage w !! vertexId = Some e
    ∧ _vertexStorage w' !! vertexId = Some e'
    ∧ e' = set_e_changesets (e_changesets e') e
    ∧ (∀ k, k ≠ vertexId -> _vertexStorage w' !! k = _vertexStorage w !! k)
    ∧ (∀ j c, default [] (e_changesets e) !! j = Some c ->
         ∃ c', default [] (e_changesets e') !! j = Some c'
               ∧ cs_created c' = cs_created c
               ∧ cs_userIdentity c' = cs_userIdentity c
               ∧ cs_patches c' = cs_patches c
               ∧ cs_hash c' = cs_hash c
               ∧ Is_stringValue (cs_immutableStorageId c') = false
               ∧ (Is_stringValue (cs_immutableStorageId c) = true ->
                  cs_immutableStorageId c' = None)
               ∧ (Is_stringValue (cs_immutableStorageId c) = false -> c' = c))
    ∧ _integrityImmutableStorage w'
      = fold_left (fun imm sid => imm_remove imm nodeId sid)
                  (attachedIds (default [] (e_changesets e)))
                  (_integrityImmutableStorage w)
    ∧ get svc w' id (Some (mkGetOptions incDeleted incChangesets (Some VerifyAll))) = Ok r
    ∧ verified r = Some true
    ∧ verification r
      = Some ((fun c => mkVerification (cs_created c) (cs_patches c) None None)
                <$> default [] (e_changesets e)).
Proof.
  intros Hb64 Hreach Hrm.
  pose proof (removeImmutable_id _ _ _ _ Hrm) as Hid.
  pose proof Hrm as (vertexId & e & nodeId & -> & Hvid & He & Hcases)%removeImmutable_inv.
  pose proof (reachable_wellKeyed svc w Hreach _ _ He) as Hkey.
  pose proof (reachable_chainValid svc w _ _ Hb64 Hreach He) as Hvalid.
  set (changesets := default [] (e_changesets e)) in *.
  assert (Hstored : ∃ e', _vertexStorage w' !! vertexId = Some e'
            ∧ e' = set_e_changesets (e_changesets e') e
            ∧ default [] (e_changesets e') = detach <$> changesets
            ∧ (∀ k, k ≠ vertexId -> _vertexStorage w' !! k = _vertexStorage w !! k)
            ∧ _integrityImmutableStorage w'
              = fold_left (fun imm sid => imm_remove imm nodeId sid)
                          (attachedIds changesets) (_integrityImmutableStorage w)).
  { destruct Hcases as [[Hnone ->]|[_ ->]].
    - destruct (not_attached_detach _ Hnone) as [Hd Ha].
      exists e. rewrite Hd, Ha, set_e_changesets_same. done.
    - exists (set_e_changesets (Some (detach <$> changesets)) e). simpl.
      rewrite Hkey, lookup_insert_eq. split; [done|]. split; [by destruct e|].
      split; [done|]. split; [|done].
      intros k Hk. by rewrite lookup_insert_ne. }
  destruct Hstored as (e' & He' & Hframe & Hdet & Hothers & Himm).
  destruct (get_verifyAll svc w' id incDeleted incChangesets vertexId e' Hid Hvid He')
    as (r & Hget & Hver & Hentries).
  assert (Hmodel : default [] (v_changesets (vertexEntityToModel e'))
                   = detach <$> changesets).
  { simpl. by rewrite copyArray_id. }
  rewrite verifyChangesets_detached in Hver, Hentries.
  2,4: rewrite Hmodel; by apply chainValid_detach.
  2,3: rewrite Hmodel; apply Forall_fmap, Forall_forall;
       intros c _; apply detach_not_attached.
  subst changesets.
  exists vertexId, e, e', nodeId, r. do 6 (split; [done|]).
  split; [|split; [done|split; [done|split; [done|]]]].
  - intros j c Hj. exists (detach c). rewrite Hdet, list_lookup_fmap, Hj.
    destruct (detach_fields c) as (? & ? & ?).
    split; [done|]. do 3 (split; [done|]). split; [apply detach_hash|].
    split; [apply detach_not_attached|].
    split; [apply detach_attached|apply detach_unattached].
  - rewrite Hentries, Hmodel, <- list_fmap_compose. f_equal.
    apply list_fmap_ext. intros _ c _. simpl.
    destruct (detach_fields c) as (-> & _ & ->). done.
Qed.
End Detached.

Section DetachedInstance.
#[local] Existing Instance TestEnv.collaborators.

(** C8 (instance). After [removeImmutable] on the alias swap, [get] with full
    verification returns [verified = true], and no entry reports a
    failure. *)
Lemma C8_detached_swap_still_verifies :
  Scenarios.reportedVerified
    (get TestEnv.service Scenarios.detached Scenarios.VERTEX_URN Scenarios.verifyAll)
  = Some true
  ∧ Scenarios.reportedFailures
      (get TestEnv.service Scenarios.detached Scenarios.VERTEX_URN Scenarios.verifyAll)
    = [None; None].
Proof.
  destruct (C8_removeImmutable_detaches_and_still_verifies
              TestEnv.service Scenarios.swapped Scenarios.detached
              Scenarios.VERTEX_URN Scenarios.node (Some true) (Some true)
              TestEnv_base64_roundtrip reachable_swapped)
    as (vertexId & e & e' & nodeId & r & _ & _ & _ & _ & _ & _ & _ & _
        & Hget & Hver & _).
  { vm_compute. reflexivity. }
  split.
  - unfold Scenarios.verifyAll, Scenarios.reportedVerified. rewrite Hget. exact Hver.
  - vm_compute. reflexivity.
Defined.
End DetachedInstance.

(** * Further properties *)

(** ** What the reconcilers keep *)

Section ReconcilerInvariants.
Context {E U : Type} `{Reconcilable E U}.

Lemma inUpdateList_true (upd : option (list U)) (u : U) :
  u ∈ default [] upd -> inUpdateList upd (input_id u) = true.
Proof.
  intros Hu. destruct (inUpdateList upd (input_id u)) eqn:Hin; [done|].
  rewrite inUpdateList_false in Hin. by destruct (Hin u Hu).
Qed.

(** The outcomes of [updateX]: the guards passed, and the collection is as it
    was, or the first element with the id was written in place, or a new
    element was pushed. *)
Lemma updateElement_inv (now : N) (elems elems' : option (list E)) (u : U) :
  updateElement now elems u = Ok elems' ->
  input_guard u = Ok ()
  ∧ ((∃ i existing, default [] elems !! i = Some existing
        ∧ elem_id existing = input_id u
        ∧ truthy (elem_deleted existing) = false
        ∧ (elems' = elems
           ∨ elems' = Some (<[i := elem_write now u existing]> (default [] elems))))
     ∨ elems' = Some (default [] elems ++ [elem_new now u])).
Proof.
  unfold updateElement.
  destruct (input_guard u) as [[]|]; simpl; [|discriminate].
  intros Hres. split; [done|]. revert Hres.
  destruct (list_find _ _) as [[i existing]|] eqn:Hfind; [|intros [= <-]; by right].
  apply list_find_Some in Hfind as (Hi & Hid & _).
  destruct (truthy (elem_deleted existing)) eqn:Ht; [intros [= <-]; by right|].
  destruct (elem_differs existing u); intros [= <-]; left; exists i, existing; eauto 10.
Qed.

(** [updateX] leaves every element at its index, with its id and its
    [deleted]; an element with a truthy [deleted] is not touched at all. *)
Lemma updateElement_kept (now : N) (elems elems' : option (list E)) (u : U)
    (i : nat) (e : E) :
  updateElement now elems u = Ok elems' ->
  default [] elems !! i = Some e ->
  ∃ e', default [] elems' !! i = Some e'
        ∧ elem_id e' = elem_id e
        ∧ elem_deleted e' = elem_deleted e
        ∧ (truthy (elem_deleted e) = true -> e' = e).
Proof.
  intros (_ & [(j & existing & Hj & Hid & Ht & [-> | ->]) | ->])%updateElement_inv Hi.
  - eauto.
  - simpl. destruct (decide (j = i)) as [->|Hne].
    + rewrite list_lookup_insert_eq by by eapply lookup_lt_Some.
      assert (existing = e) as -> by congruence.
      exists (elem_write now u e).
      rewrite elem_id_write, elem_deleted_write. repeat split; congruence.
    + rewrite list_lookup_insert_ne by done. eauto.
  - simpl. rewrite lookup_app_l by by eapply lookup_lt_Some. eauto.
Qed.

Lemma forEachM_updateElement_kept (now : N) (upd : list U) :
  ∀ elems elems' i e,
    forEachM (updateElement now) elems upd = Ok elems' ->
    default [] elems !! i = Some e ->
    ∃ e', default [] elems' !! i = Some e'
          ∧ elem_id e' = elem_id e
          ∧ elem_deleted e' = elem_deleted e
          ∧ (truthy (elem_deleted e) = true -> e' = e).
Proof.
  induction upd as [|u upd IH]; intros elems elems' i e; simpl.
  - intros [= <-]. eauto.
  - destruct (updateElement now elems u) as [elems1|] eqn:Hu; simpl; [|discriminate].
    intros Hrest Hi.
    destruct (updateElement_kept _ _ _ _ _ _ Hu Hi) as (e1 & Hi1 & Hid1 & Hd1 & Hsame1).
    destruct (IH _ _ _ _ Hrest Hi1) as (e' & Hi' & Hid' & Hd' & Hsame').
    exists e'. split; [done|]. split; [congruence|]. split; [congruence|].
    intros Ht. rewrite Hsame'; [auto|]. by rewrite Hd1.
Qed.

(** The ids after [updateX]: those before, and the id of the item when an
    element is pushed. *)
Lemma updateElement_ids (now : N) (elems elems' : option (list E)) (u : U) :
  updateElement now elems u = Ok elems' ->
  idsOf elems' = idsOf elems ∨ idsOf elems' = idsOf elems ++ [input_id u].
Proof.
  intros (_ & [(j & existing & Hj & Hid & Ht & [-> | ->]) | ->])%updateElement_inv.
  - by left.
  - left. unfold idsOf. simpl. rewrite list_fmap_insert, elem_id_write.
    apply list_insert_id. by rewrite list_lookup_fmap, Hj.
  - right. unfold idsOf. simpl. by rewrite fmap_app; simpl; rewrite elem_id_new.
Qed.

Lemma forEachM_updateElement_ids (now : N) (upd : list U) :
  ∀ elems elems',
    forEachM (updateElement now) elems upd = Ok elems' ->
    ∃ added, sublist added upd
             ∧ idsOf elems' = idsOf elems ++ (input_id <$> added).
Proof.
  induction upd as [|u upd IH]; intros elems elems'; simpl.
  - intros [= <-]. exists []. split; [done|]. by rewrite app_nil_r.
  - destruct (updateElement now elems u) as [elems1|] eqn:Hu; simpl; [|discriminate].
    intros (added & Hsub & Hids)%IH.
    destruct (updateElement_ids _ _ _ _ Hu) as [Hsame|Hpush].
    + exists added. split; [by apply sublist_cons|]. by rewrite Hids, Hsame.
    + exists (u :: added). split; [by apply sublist_skip|].
      rewrite Hids, Hpush, <- app_assoc. done.
Qed.

Lemma lookup_tombstoneMissing (now : N) (elems : option (list E))
    (upd : option (list U)) (i : nat) :
  default [] (tombstoneMissing now elems upd) !! i
  = markMissing now upd <$> default [] elems !! i.
Proof.
  unfold tombstoneMissing. destruct elems as [l|]; simpl; [|done].
  apply list_lookup_fmap.
Qed.

Lemma markMissing_deleted (now : N) (upd : option (list U)) (e : E) :
  elem_deleted e ≠ None -> markMissing now upd e = e.
Proof. unfold markMissing. by destruct (elem_deleted e). Qed.

(** A reconciler never removes or reorders an element: the ids the
    collection held stay where they were, and the ids that follow them are
    ids of items of the update list, in the order of the list. *)
Lemma updateList_ids (now : N) (elems elems' : option (list E))
    (upd : option (list U)) :
  updateList now elems upd = Ok elems' ->
  ∃ added, sublist added (default [] upd)
           ∧ idsOf elems' = idsOf elems ++ (input_id <$> added).
Proof.
  unfold updateList. destruct (Is_arrayValue upd).
  - intros (added & Hsub & Hids)%forEachM_updateElement_ids.
    exists added. by rewrite Hids, idsOf_tombstoneMissing.
  - intros [= <-]. exists []. split; [apply sublist_nil_l|].
    by rewrite idsOf_tombstoneMissing, app_nil_r.
Qed.

(** A [deleted] epoch, once set, is never changed, and an element whose
    [deleted] is truthy is not touched. *)
Lemma updateList_kept (now : N) (elems elems' : option (list E))
    (upd : option (list U)) (i : nat) (e : E) :
  updateList now elems upd = Ok elems' ->
  default [] elems !! i = Some e ->
  elem_deleted e ≠ None ->
  ∃ e', default [] elems' !! i = Some e'
        ∧ elem_id e' = elem_id e
        ∧ elem_deleted e' = elem_deleted e
        ∧ (truthy (elem_deleted e) = true -> e' = e).
Proof.
  intros Hupd Hi Hdel.
  assert (Hi1 : default [] (tombstoneMissing now elems upd) !! i = Some e).
  { by rewrite lookup_tombstoneMissing, Hi; simpl; rewrite markMissing_deleted. }
  unfold updateList in Hupd. destruct (Is_arrayValue upd).
  - by eapply forEachM_updateElement_kept.
  - injection Hupd as <-. eauto.
Qed.

(** What neither [x.deleted = now] nor the assignments of [updateX] change
    is the same after a reconciler, element by element. *)
Lemma updateList_projection {B} (f : E -> B) (now : N)
    (elems elems' : option (list E)) (upd : option (list U)) (i : nat) (e : E) :
  (∀ n e, f (elem_markDeleted n e) = f e) ->
  (∀ n u e, f (elem_write n u e) = f e) ->
  updateList now elems upd = Ok elems' ->
  default [] elems !! i = Some e ->
  ∃ e', default [] elems' !! i = Some e' ∧ f e' = f e.
Proof.
  intros Hmark Hwrite Hupd Hi.
  assert (Hstep : ∀ u elems1 elems2 e1,
            updateElement now elems1 u = Ok elems2 ->
            default [] elems1 !! i = Some e1 ->
            ∃ e2, default [] elems2 !! i = Some e2 ∧ f e2 = f e1).
  { intros u elems1 elems2 e1
      (_ & [(j & existing & Hj & _ & _ & [-> | ->]) | ->])%updateElement_inv Hi1.
    - eauto.
    - simpl. destruct (decide (j = i)) as [->|Hne].
      + rewrite list_lookup_insert_eq by by eapply lookup_lt_Some.
        assert (existing = e1) as -> by congruence. eauto.
      + rewrite list_lookup_insert_ne by done. eauto.
    - simpl. rewrite lookup_app_l by by eapply lookup_lt_Some. eauto. }
  assert (Hloop : ∀ l elems1 elems2 e1,
            forEachM (updateElement now) elems1 l = Ok elems2 ->
            default [] elems1 !! i = Some e1 ->
            ∃ e2, default [] elems2 !! i = Some e2 ∧ f e2 = f e1).
  { induction l as [|u l IH]; intros elems1 elems2 e1; simpl.
    - intros [= <-]. eauto.
    - destruct (updateElement now elems1 u) as [elems3|] eqn:Hu; simpl; [|discriminate].
      intros Hrest Hi1.
      destruct (Hstep _ _ _ _ Hu Hi1) as (e3 & Hi3 & <-). by eapply IH. }
  assert (Hi1 : default [] (tombstoneMissing now elems upd) !! i
                = Some (markMissing now upd e)).
  { by rewrite lookup_tombstoneMissing, Hi. }
  assert (Hf : f (markMissing now upd e) = f e).
  { unfold markMissing. by case_match. }
  unfold updateList in Hupd. destruct (Is_arrayValue upd).
  - destruct (Hloop _ _ _ _ Hupd Hi1) as (e' & He' & Hfe'). exists e'. split; congruence.
  - injection Hupd as <-. eauto.
Qed.

(** After the first loop every element without a [deleted] has the id of an
    item of the update list. *)
Lemma tombstoneMissing_live (now : N) (elems : option (list E))
    (upd : option (list U)) (e : E) :
  e ∈ default [] (tombstoneMissing now elems upd) ->
  elem_deleted e = None ->
  inUpdateList upd (elem_id e) = true.
Proof.
  unfold tombstoneMissing. destruct elems as [l|]; simpl;
    [|by intros ?%elem_of_nil].
  intros (e0 & -> & He0)%list_elem_of_fmap. unfold markMissing.
  destruct (elem_deleted e0) as [d|] eqn:Hd0; simpl.
  - by rewrite Hd0.
  - destruct (inUpdateList upd (elem_id e0)) eqn:Hin; simpl; [done|].
    by rewrite elem_deleted_markDeleted.
Qed.

Lemma updateElement_live (now : N) (elems elems' : option (list E))
    (upd : option (list U)) (u : U) :
  u ∈ default [] upd ->
  (∀ e, e ∈ default [] elems -> elem_deleted e = None ->
        inUpdateList upd (elem_id e) = true) ->
  updateElement now elems u = Ok elems' ->
  ∀ e, e ∈ default [] elems' -> elem_deleted e = None ->
       inUpdateList upd (elem_id e) = true.
Proof.
  intros Hu Hall (_ & [(j & existing & Hj & Hid & Ht & [-> | ->]) | ->])%updateElement_inv;
    [done| |]; simpl.
  - intros e (k & Hk)%list_elem_of_lookup_1.
    destruct (decide (j = k)) as [->|Hne].
    + rewrite list_lookup_insert_eq in Hk by by eapply lookup_lt_Some.
      injection Hk as <-. rewrite elem_id_write, elem_deleted_write.
      apply Hall. by eapply list_elem_of_lookup_2.
    + rewrite list_lookup_insert_ne in Hk by done.
      apply Hall. by eapply list_elem_of_lookup_2.
  - intros e [He | ->%list_elem_of_singleton]%elem_of_app; [by apply Hall|].
    intros _. rewrite elem_id_new. by apply inUpdateList_true.
Qed.

Lemma forEachM_updateElement_live (now : N) (upd0 : option (list U)) (upd : list U) :
  (∀ u, u ∈ upd -> u ∈ default [] upd0) ->
  ∀ elems elems',
    (∀ e, e ∈ default [] elems -> elem_deleted e = None ->
          inUpdateList upd0 (elem_id e) = true) ->
    forEachM (updateElement now) elems upd = Ok elems' ->
    ∀ e, e ∈ default [] elems' -> elem_deleted e = None ->
         inUpdateList upd0 (elem_id e) = true.
Proof.
  induction upd as [|u upd IH]; intros Hsub elems elems' Hall; simpl.
  - by intros [= <-].
  - destruct (updateElement now elems u) as [elems1|] eqn:Hu; simpl; [|discriminate].
    apply IH; [intros u' Hu'; apply Hsub; by right|].
    eapply updateElement_live; [apply Hsub; left|done|done].
Qed.

(** After [updateX] the collection holds an element with the id of the item
    whose [deleted] is not truthy. *)
Lemma updateElement_supplied (now : N) (elems elems' : option (list E)) (u : U) :
  updateElement now elems u = Ok elems' ->
  ∃ i e, default [] elems' !! i = Some e
         ∧ elem_id e = input_id u ∧ truthy (elem_deleted e) = false.
Proof.
  intros (_ & [(j & existing & Hj & Hid & Ht & [-> | ->]) | ->])%updateElement_inv.
  - eauto.
  - exists j, (elem_write now u existing). simpl.
    rewrite list_lookup_insert_eq by by eapply lookup_lt_Some.
    by rewrite elem_id_write, elem_deleted_write.
  - exists (length (default [] elems)), (elem_new now u). simpl.
    rewrite lookup_app_r by done. rewrite Nat.sub_diag. simpl.
    by rewrite elem_id_new, elem_deleted_new.
Qed.

Lemma forEachM_updateElement_supplied (now : N) (upd : list U) :
  ∀ elems elems' u,
    forEachM (updateElement now) elems upd = Ok elems' ->
    u ∈ upd ->
    ∃ e, e ∈ default [] elems'
         ∧ elem_id e = input_id u ∧ truthy (elem_deleted e) = false.
Proof.
  induction upd as [|u0 upd IH]; intros elems elems' u; simpl.
  - by intros _ ?%elem_of_nil.
  - destruct (updateElement now elems u0) as [elems1|] eqn:Hu; simpl; [|discriminate].
    intros Hrest [->|Hin]%elem_of_cons; [|by eapply IH].
    destruct (updateElement_supplied _ _ _ _ Hu) as (i & e & Hi & Hid & Ht).
    destruct (forEachM_updateElement_kept _ _ _ _ _ _ Hrest Hi) as (e' & Hi' & Hid' & Hd' & _).
    exists e'. split; [by eapply list_elem_of_lookup_2|]. split; congruence.
Qed.

(** X1. After a reconciler has run, the elements that are not deleted are
    those of the update list: an element without a [deleted] has the id of
    an item of the list, and every item of the list has an element with its
    id whose [deleted] is not truthy. *)
Theorem X1_reconciler_leaves_supplied_ids_live (now : N)
    (elems elems' : option (list E)) (upd : option (list U)) :
  updateList now elems upd = Ok elems' ->
  (∀ e, e ∈ default [] elems' -> elem_deleted e = None ->
        inUpdateList upd (elem_id e) = true)
  ∧ (∀ u, u ∈ default [] upd ->
          ∃ e, e ∈ default [] elems'
               ∧ elem_id e = input_id u ∧ truthy (elem_deleted e) = false).
Proof.
  unfold updateList. destruct (Is_arrayValue upd) eqn:Harr.
  - intros Hloop. split.
    + eapply forEachM_updateElement_live; [|apply tombstoneMissing_live|done]. done.
    + intros u Hu. by eapply forEachM_updateElement_supplied.
  - intros [= <-]. split; [apply tombstoneMissing_live|].
    intros u Hu. by destruct upd as [[|]|]; [apply elem_of_nil in Hu| |apply elem_of_nil in Hu].
Qed.

Lemma forEachM_updateElement_guards (now : N) (upd : list U) :
  ∀ elems elems',
    forEachM (updateElement now) elems upd = Ok elems' ->
    Forall (fun u => input_guard u = Ok ()) upd.
Proof.
  induction upd as [|u upd IH]; intros elems elems'; simpl; [by constructor|].
  destruct (updateElement now elems u) as [elems1|] eqn:Hu; simpl; [|discriminate].
  intros Hrest. constructor; [by apply updateElement_inv in Hu as [? _]|by eapply IH].
Qed.

Lemma forEachM_updateElement_Err (now : N) (upd : list U) :
  ∀ elems err,
    forEachM (updateElement now) elems upd = Err err ->
    ∃ u, u ∈ upd ∧ input_guard u = Err err.
Proof.
  induction upd as [|u upd IH]; intros elems err; simpl; [discriminate|].
  destruct (updateElement now elems u) as [elems1|err1] eqn:Hu; simpl.
  - intros (u' & Hu' & Hg)%IH. exists u'. split; [by right|done].
  - intros [= <-]. exists u. split; [left|]. revert Hu. unfold updateElement.
    destruct (input_guard u) as [[]|]; simpl; [|congruence].
    repeat case_match; discriminate.
Qed.

Lemma updateList_guards (now : N) (elems elems' : option (list E))
    (upd : option (list U)) :
  updateList now elems upd = Ok elems' ->
  Forall (fun u => input_guard u = Ok ()) (default [] upd).
Proof.
  unfold updateList.
  destruct (Is_arrayValue upd) eqn:Harr; [by eapply forEachM_updateElement_guards|].
  intros _. destruct upd as [[|]|]; try done; constructor.
Qed.

Lemma updateList_Err (now : N) (elems : option (list E)) (upd : option (list U))
    (err : ServiceError) :
  updateList now elems upd = Err err ->
  ∃ u, u ∈ default [] upd ∧ input_guard u = Err err.
Proof.
  unfold updateList.
  destruct (Is_arrayValue upd); [apply forEachM_updateElement_Err|discriminate].
Qed.

(** X2. A reconciler fails exactly when an item of the update list fails
    the guards of [updateX], and the error it raises is the error of such
    an item. *)
Theorem X2_reconciler_fails_only_on_a_guard (now : N) (elems : option (list E))
    (upd : option (list U)) :
  ((∃ elems', updateList now elems upd = Ok elems')
   ↔ Forall (fun u => input_guard u = Ok ()) (default [] upd))
  ∧ (∀ err, updateList now elems upd = Err err ->
            ∃ u, u ∈ default [] upd ∧ input_guard u = Err err).
Proof.
  split; [split|].
  - intros [elems' Hupd]. by eapply updateList_guards.
  - apply updateList_ok.
  - apply updateList_Err.
Qed.
(** A reconciler stops at an item that fails the guards. *)
Lemma updateList_invalid (now : N) (elems : option (list E)) (upd : option (list U)) :
  ¬ Forall (fun u => input_guard u = Ok ()) (default [] upd) ->
  ∃ err u, updateList now elems upd = Err err
           ∧ u ∈ default [] upd ∧ input_guard u = Err err.
Proof.
  intros Hinvalid. destruct (updateList now elems upd) as [elems'|err] eqn:Hupd.
  - exfalso. apply Hinvalid. by eapply updateList_guards.
  - destruct (updateList_Err _ _ _ _ Hupd) as (u & Hu & Hg). by exists err, u.
Qed.
End ReconcilerInvariants.

(** ** Failures of the operations *)

Section Failures.
Context `{Collaborators}.

Lemma vertexIdOfUrn_Ok (id vertexId : string) :
  vertexIdOfUrn id = Ok vertexId ↔ Urn_fromValidString id = Some (NAMESPACE, vertexId).
Proof.
  unfold vertexIdOfUrn. destruct (Urn_fromValidString id) as [[ns x]|]; [|done].
  case_bool_decide as Hns.
  - split; [done|]. by intros [= -> ->].
  - subst ns. split; by intros [= ->].
Qed.

Lemma vertexIdOfUrn_mismatch (id ns x : string) :
  Urn_fromValidString id = Some (ns, x) -> ns ≠ NAMESPACE ->
  vertexIdOfUrn id = Err namespaceMismatch.
Proof.
  intros Hurn Hns. unfold vertexIdOfUrn. rewrite Hurn.
  by rewrite bool_decide_eq_true_2.
Qed.

(** X3. [get], [update] and [removeImmutable] compare the namespace of the
    URN before they look the vertex up, and outside their [try] block: a URN
    of another namespace fails with [namespaceMismatch] as it is, whatever
    the storage holds, while a URN of the namespace whose vertex is not
    stored fails with [vertexNotFound] wrapped in the error of the
    operation. *)
Theorem X3_namespace_mismatch_is_not_wrapped (svc : Service) (w : World) (now : N)
    (id ns x user nodeId : string) (options : option GetOptions)
    (metadataSchema : option string) (metadata : option Json)
    (aliases resources : option (list ElementInput))
    (edges : option (list EdgeInput)) :
  id ≠ "" -> user ≠ "" -> nodeId ≠ "" ->
  Urn_fromValidString id = Some (ns, x) ->
  (ns ≠ NAMESPACE ->
   get svc w id options = Err namespaceMismatch
   ∧ update svc w now id metadataSchema metadata aliases resources edges
            (Some user) (Some nodeId) = Err namespaceMismatch
   ∧ removeImmutable w id (Some nodeId) = Err namespaceMismatch)
  ∧ (ns = NAMESPACE -> _vertexStorage w !! x = None ->
     get svc w id options = Err (getFailed vertexNotFound)
     ∧ update svc w now id metadataSchema metadata aliases resources edges
              (Some user) (Some nodeId) = Err (updateFailed vertexNotFound)
     ∧ removeImmutable w id (Some nodeId) = Err (removeImmutableFailed vertexNotFound)).
Proof.
  intros Hid Huser Hnode Hurn. split.
  - intros Hns. pose proof (vertexIdOfUrn_mismatch _ _ _ Hurn Hns) as Hv.
    unfold get, update, removeImmutable.
    rewrite !Guards_stringValue_pass by done. simpl. by rewrite Hv.
  - intros -> Hnone. apply vertexIdOfUrn_Ok in Hurn.
    unfold get, update, removeImmutable.
    rewrite !Guards_stringValue_pass by done. simpl. rewrite Hurn. simpl.
    by rewrite Hnone.
Qed.

Lemma Guards_stringValue_Err (property : string) (s : option string) (err : ServiceError) :
  Guards_stringValue property s = Err err ->
  Is_stringValue s = false ∧ err = guardViolation property.
Proof.
  unfold Guards_stringValue, Is_stringValue. destruct s as [s|]; [|by intros [= <-]].
  case_bool_decide as Hs; [|discriminate]. intros [= <-].
  by rewrite bool_decide_eq_false_2 by (by intros ?).
Qed.

Lemma Is_stringValue_Some (s : option string) :
  Is_stringValue s = true ↔ ∃ x, s = Some x ∧ x ≠ "".
Proof.
  unfold Is_stringValue. destruct s as [s|].
  - rewrite bool_decide_eq_true. split; [eauto|]. by intros (x & [= ->] & Hx).
  - split; [done|]. by intros (x & [=] & _).
Qed.

Lemma validElementInputs_alias_iff l :
  validElementInputs l = true
  ↔ Forall (fun u => input_guard (E := IAuditableItemGraphAlias) u = Ok ()) (default [] l).
Proof.
  split; [apply validElementInputs_alias|].
  unfold validElementInputs. rewrite forallb_forall, Forall_forall.
  intros Hall u Hu%list_elem_of_In. specialize (Hall u Hu). simpl in Hall.
  unfold Guards_stringValue in Hall. apply bool_decide_eq_true.
  by case_bool_decide.
Qed.

Lemma validElementInputs_resource_iff l :
  validElementInputs l = true
  ↔ Forall (fun u => input_guard (E := IAuditableItemGraphResource) u = Ok ()) (default [] l).
Proof.
  split; [apply validElementInputs_resource|].
  unfold validElementInputs. rewrite forallb_forall, Forall_forall.
  intros Hall u Hu%list_elem_of_In. specialize (Hall u Hu). simpl in Hall.
  unfold Guards_stringValue in Hall. apply bool_decide_eq_true.
  by case_bool_decide.
Qed.

Lemma validEdgeInputs_edge_iff l :
  validEdgeInputs l = true
  ↔ Forall (fun u => input_guard (E := IAuditableItemGraphEdge) u = Ok ()) (default [] l).
Proof.
  split; [apply validEdgeInputs_edge|].
  unfold validEdgeInputs. rewrite forallb_forall, Forall_forall.
  intros Hall u Hu%list_elem_of_In. specialize (Hall u Hu). simpl in Hall.
  unfold Guards_stringValue in Hall. apply andb_true_iff.
  split; apply bool_decide_eq_true; repeat case_bool_decide; done.
Qed.

(** [reconcile] succeeds exactly on lists whose items pass the guards. *)
Lemma reconcile_Ok_iff context v metadataSchema metadata aliases resources edges :
  (∃ v', reconcile context v metadataSchema metadata aliases resources edges = Ok v')
  ↔ validElementInputs aliases = true
    ∧ validElementInputs resources = true
    ∧ validEdgeInputs edges = true.
Proof.
  split; [|intros (? & ? & ?); by apply reconcile_ok].
  intros [v' (a & r & e & Ha & Hr & He & _)%reconcile_inv].
  rewrite validElementInputs_alias_iff, validElementInputs_resource_iff,
    validEdgeInputs_edge_iff.
  split; [|split]; by eapply updateList_guards.
Qed.

(** [create] and [update] wrap the error of a reconciler. *)
Lemma create_reconcile_Err svc w now id metadataSchema metadata aliases resources edges
    user nodeId err :
  user ≠ "" -> nodeId ≠ "" ->
  reconcile (mkContext now user nodeId) (zeroVertex id nodeId now)
            metadataSchema metadata aliases resources edges = Err err ->
  create svc w now id metadataSchema metadata aliases resources edges
         (Some user) (Some nodeId) = Err (createFailed err).
Proof.
  intros Hu Hn. unfold create, reconcile, zeroVertex.
  rewrite !Guards_stringValue_pass by done. simpl.
  destruct (updateAliasList _ _ aliases) as [v1|e1]; simpl; [|by intros [= <-]].
  destruct (updateResourceList _ _ resources) as [v2|e2]; simpl; [|by intros [= <-]].
  destruct (updateEdgeList _ _ edges) as [v3|e3]; simpl; [discriminate|by intros [= <-]].
Qed.

Lemma update_reconcile_Err svc w now id metadataSchema metadata aliases resources edges
    user nodeId vertexId e err :
  id ≠ "" -> user ≠ "" -> nodeId ≠ "" ->
  vertexIdOfUrn id = Ok vertexId ->
  _vertexStorage w !! vertexId = Some e ->
  reconcile (mkContext now user nodeId) (vertexEntityToModel e)
            metadataSchema metadata aliases resources edges = Err err ->
  update svc w now id metadataSchema metadata aliases resources edges
         (Some user) (Some nodeId) = Err (updateFailed err).
Proof.
  intros Hid Hu Hn Hvid He. unfold update, reconcile.
  rewrite !Guards_stringValue_pass by done. simpl. rewrite Hvid. simpl. rewrite He.
  destruct (updateAliasList _ _ aliases) as [v1|e1]; simpl; [|by intros [= <-]].
  destruct (updateResourceList _ _ resources) as [v2|e2]; simpl; [|by intros [= <-]].
  destruct (updateEdgeList _ _ edges) as [v3|e3]; simpl; [discriminate|by intros [= <-]].
Qed.


Lemma vertexIdOfUrn_Err (id : string) (err : ServiceError) :
  vertexIdOfUrn id = Err err -> err = invalidUrn ∨ err = namespaceMismatch.
Proof.
  unfold vertexIdOfUrn. destruct (Urn_fromValidString id) as [[ns x]|].
  - case_bool_decide; [|discriminate]. intros [= <-]. by right.
  - intros [= <-]. by left.
Qed.

Lemma Guards_stringValue_fail (property : string) (s : option string) :
  Is_stringValue s = false ->
  Guards_stringValue property s = Err (guardViolation property).
Proof.
  unfold Is_stringValue, Guards_stringValue. destruct s as [s|]; [|done].
  intros Hs%bool_decide_eq_false. rewrite bool_decide_eq_true_2; [done|].
  by apply dec_stable.
Qed.

(** The reconcilers run in the order aliases, resources, edges, and the
    first list with an item that fails its guards decides the error. *)
Lemma reconcile_guard_order context v metadataSchema metadata aliases resources edges :
  (validElementInputs aliases = false ->
   reconcile context v metadataSchema metadata aliases resources edges
   = Err (guardViolation "alias.id"))
  ∧ (validElementInputs aliases = true -> validElementInputs resources = false ->
     reconcile context v metadataSchema metadata aliases resources edges
     = Err (guardViolation "resource.id"))
  ∧ (validElementInputs aliases = true -> validElementInputs resources = true ->
     validEdgeInputs edges = false ->
     reconcile context v metadataSchema metadata aliases resources edges
     = Err (guardViolation "edge.id")
     ∨ reconcile context v metadataSchema metadata aliases resources edges
       = Err (guardViolation "edge.relationship")).
Proof.
  unfold reconcile. rewrite updateAliasList_updateList.
  split; [|split].
  - intros Ha.
    destruct (updateList_invalid (now context)
                (v_aliases (set_metadata metadataSchema metadata v)) aliases)
      as (err & u & -> & _ & Hg).
    { rewrite <- validElementInputs_alias_iff. by rewrite Ha. }
    simpl in Hg. unfold Guards_stringValue in Hg.
    case_bool_decide; simpl in Hg; [|discriminate]. by injection Hg as <-.
  - intros Ha%validElementInputs_alias Hr.
    destruct (updateList_ok (now context)
                (v_aliases (set_metadata metadataSchema metadata v)) aliases Ha)
      as [al ->].
    simpl. rewrite updateResourceList_updateList.
    match goal with
    | |- context [updateList ?n ?els resources] =>
        destruct (updateList_invalid n els resources) as (err & u & -> & _ & Hg)
    end.
    { rewrite <- validElementInputs_resource_iff. by rewrite Hr. }
    simpl in Hg. unfold Guards_stringValue in Hg.
    case_bool_decide; simpl in Hg; [|discriminate]. by injection Hg as <-.
  - intros Ha%validElementInputs_alias Hr%validElementInputs_resource He.
    destruct (updateList_ok (now context)
                (v_aliases (set_metadata metadataSchema metadata v)) aliases Ha)
      as [al ->].
    simpl. rewrite updateResourceList_updateList.
    match goal with
    | |- context [updateList ?n ?els resources] =>
        destruct (updateList_ok n els resources Hr) as [rl ->]
    end.
    simpl. rewrite updateEdgeList_updateList.
    match goal with
    | |- context [updateList ?n ?els edges] =>
        destruct (updateList_invalid n els edges) as (err & u & -> & _ & Hg)
    end.
    { rewrite <- validEdgeInputs_edge_iff. by rewrite He. }
    simpl in Hg. unfold Guards_stringValue in Hg.
    repeat case_bool_decide; simpl in Hg; try discriminate;
      injection Hg as <-; simpl; auto.
Qed.

(** X4. [create] checks its arguments before it calls a collaborator, in a
    fixed order: an empty or missing [identity], then [nodeIdentity], fails
    with the guard error as it is; then the first of the lists aliases,
    resources, edges with an item that fails the guards of its reconciler
    fails with that guard error wrapped in [createFailed].  So a [create]
    that succeeds was given two identities and lists that pass every
    guard. *)
Theorem X4_create_checks_its_arguments_first (svc : Service) (w : World) (now : N)
    (id : string) (metadataSchema : option string) (metadata : option Json)
    (aliases resources : option (list ElementInput))
    (edges : option (list EdgeInput)) (identity nodeIdentity : option string) :
  let result := create svc w now id metadataSchema metadata aliases resources edges
                       identity nodeIdentity in
  (∀ w' urn, result = Ok (w', urn) ->
     Is_stringValue identity = true
     ∧ Is_stringValue nodeIdentity = true
     ∧ validElementInputs aliases = true
     ∧ validElementInputs resources = true
     ∧ validEdgeInputs edges = true)
  ∧ (Is_stringValue identity = false -> result = Err (guardViolation "identity"))
  ∧ (Is_stringValue identity = true -> Is_stringValue nodeIdentity = false ->
     result = Err (guardViolation "nodeIdentity"))
  ∧ (Is_stringValue identity = true -> Is_stringValue nodeIdentity = true ->
     (validElementInputs aliases = false ->
      result = Err (createFailed (guardViolation "alias.id")))
     ∧ (validElementInputs aliases = true -> validElementInputs resources = false ->
        result = Err (createFailed (guardViolation "resource.id")))
     ∧ (validElementInputs aliases = true -> validElementInputs resources = true ->
        validEdgeInputs edges = false ->
        result = Err (createFailed (guardViolation "edge.id"))
        ∨ result = Err (createFailed (guardViolation "edge.relationship")))).
Proof.
  intros result. subst result. split; [|split; [|split]].
  - intros w' urn Hc. pose proof Hc as Hc'. unfold create in Hc'.
    invert_bind Hc' as user Huser.
    apply Guards_stringValue_Ok in Huser as [-> Huser].
    invert_bind Hc' as nodeId Hnode.
    apply Guards_stringValue_Ok in Hnode as [-> Hnode].
    apply create_inv in Hc as (? & ? & reconciled & _ & _ & Hrec & _).
    split; [apply Is_stringValue_Some; eauto|].
    split; [apply Is_stringValue_Some; eauto|].
    eapply reconcile_Ok_iff. eauto.
  - intros Hi. unfold create. by rewrite (Guards_stringValue_fail _ _ Hi).
  - intros (user & -> & Huser)%Is_stringValue_Some Hn. unfold create.
    rewrite Guards_stringValue_pass by done. simpl.
    by rewrite (Guards_stringValue_fail _ _ Hn).
  - intros (user & -> & Huser)%Is_stringValue_Some
           (nodeId & -> & Hnode)%Is_stringValue_Some.
    destruct (reconcile_guard_order (mkContext now user nodeId) (zeroVertex id nodeId now)
                metadataSchema metadata aliases resources edges) as (Ha & Hr & He).
    split; [|split].
    + intros Hinvalid. by apply create_reconcile_Err, Ha.
    + intros Hva Hinvalid. by apply create_reconcile_Err, Hr.
    + intros Hva Hvr Hinvalid.
      destruct (He Hva Hvr Hinvalid) as [Herr|Herr]; [left|right];
        by apply create_reconcile_Err.
Qed.

(** X5. [update] checks its arguments before it calls a collaborator other
    than the lookup of the vertex, in a fixed order: an empty [id], a
    missing [identity], a missing [nodeIdentity] and an id that is no URN of
    the namespace fail with their own error, as it is; then, for a stored
    vertex, the first of the lists aliases, resources, edges with an item
    that fails the guards of its reconciler fails with that guard error
    wrapped in [updateFailed].  So an [update] that succeeds was given an
    id of a stored vertex, two identities and lists that pass every
    guard. *)
Theorem X5_update_checks_its_arguments_first (svc : Service) (w : World) (now : N)
    (id : string) (metadataSchema : option string) (metadata : option Json)
    (aliases resources : option (list ElementInput))
    (edges : option (list EdgeInput)) (identity nodeIdentity : option string) :
  let result := update svc w now id metadataSchema metadata aliases resources edges
                       identity nodeIdentity in
  (∀ w', result = Ok w' ->
     id ≠ ""
     ∧ Is_stringValue identity = true
     ∧ Is_stringValue nodeIdentity = true
     ∧ (∃ vertexId, vertexIdOfUrn id = Ok vertexId
                    ∧ is_Some (_vertexStorage w !! vertexId))
     ∧ validElementInputs aliases = true
     ∧ validElementInputs resources = true
     ∧ validEdgeInputs edges = true)
  ∧ (id = "" -> result = Err (guardViolation "id"))
  ∧ (id ≠ "" -> Is_stringValue identity = false ->
     result = Err (guardViolation "identity"))
  ∧ (id ≠ "" -> Is_stringValue identity = true -> Is_stringValue nodeIdentity = false ->
     result = Err (guardViolation "nodeIdentity"))
  ∧ (id ≠ "" -> Is_stringValue identity = true -> Is_stringValue nodeIdentity = true ->
     (∀ err, vertexIdOfUrn id = Err err ->
             result = Err err ∧ (err = invalidUrn ∨ err = namespaceMismatch))
     ∧ (∀ vertexId, vertexIdOfUrn id = Ok vertexId ->
                    is_Some (_vertexStorage w !! vertexId) ->
        (validElementInputs aliases = false ->
         result = Err (updateFailed (guardViolation "alias.id")))
        ∧ (validElementInputs aliases = true -> validElementInputs resources = false ->
           result = Err (updateFailed (guardViolation "resource.id")))
        ∧ (validElementInputs aliases = true -> validElementInputs resources = true ->
           validEdgeInputs edges = false ->
           result = Err (updateFailed (guardViolation "edge.id"))
           ∨ result = Err (updateFailed (guardViolation "edge.relationship"))))).
Proof.
  intros result. subst result. split; [|split; [|split; [|split]]].
  - intros w' Hu. pose proof Hu as Hu'. unfold update in Hu'.
    invert_bind Hu' as id' Hid. apply Guards_stringValue_Ok in Hid as [[= <-] Hid].
    invert_bind Hu' as user Huser. apply Guards_stringValue_Ok in Huser as [-> Huser].
    invert_bind Hu' as nodeId Hnode. apply Guards_stringValue_Ok in Hnode as [-> Hnode].
    apply update_inv in Hu as (vid & e & ? & ? & reconciled & _ & _ & Hvid & He & Hrec & _).
    split; [done|].
    split; [apply Is_stringValue_Some; eauto|].
    split; [apply Is_stringValue_Some; eauto|].
    split; [exists vid; by rewrite He|].
    eapply reconcile_Ok_iff. eauto.
  - by intros ->.
  - intros Hid Hi. unfold update. rewrite Guards_stringValue_pass by done. simpl.
    by rewrite (Guards_stringValue_fail _ _ Hi).
  - intros Hid (user & -> & Huser)%Is_stringValue_Some Hn. unfold update.
    rewrite !Guards_stringValue_pass by done. simpl.
    by rewrite (Guards_stringValue_fail _ _ Hn).
  - intros Hid (user & -> & Huser)%Is_stringValue_Some
           (nodeId & -> & Hnode)%Is_stringValue_Some.
    split.
    + intros err Hvid. split; [|by apply (vertexIdOfUrn_Err id)].
      unfold update. rewrite !Guards_stringValue_pass by done. simpl.
      by rewrite Hvid.
    + intros vertexId Hvid [e He].
      destruct (reconcile_guard_order (mkContext now user nodeId) (vertexEntityToModel e)
                  metadataSchema metadata aliases resources edges) as (Ha & Hr & Hed).
      split; [|split].
      * intros Hinvalid.
        exact (update_reconcile_Err svc w now id _ _ _ _ _ user nodeId vertexId e _
                 Hid Huser Hnode Hvid He (Ha Hinvalid)).
      * intros Hva Hinvalid.
        exact (update_reconcile_Err svc w now id _ _ _ _ _ user nodeId vertexId e _
                 Hid Huser Hnode Hvid He (Hr Hva Hinvalid)).
      * intros Hva Hvr Hinvalid.
        destruct (Hed Hva Hvr Hinvalid) as [Herr|Herr]; [left|right];
          exact (update_reconcile_Err svc w now id _ _ _ _ _ user nodeId vertexId e _
                   Hid Huser Hnode Hvid He Herr).
Qed.

(** X6. [get] and [removeImmutable] succeed only on a non-empty URN of the
    namespace whose vertex is stored ([removeImmutable] only with a
    non-empty node identity), and their guard and URN errors are raised as
    they are, the empty id first.  A [get] that verifies nothing (no
    [verifySignatureDepth], or [none]) calls no collaborator but the lookup:
    it succeeds on every stored vertex, whatever its other options, and
    returns neither [verified] nor [verification]. *)
Theorem X6_get_without_verification_succeeds_iff_stored (svc : Service) (w : World)
    (id : string) (options : option GetOptions) (nodeIdentity : option string) :
  (∀ r, get svc w id options = Ok r ->
     id ≠ "" ∧ ∃ vertexId, vertexIdOfUrn id = Ok vertexId
                           ∧ is_Some (_vertexStorage w !! vertexId))
  ∧ (∀ w', removeImmutable w id nodeIdentity = Ok w' ->
       id ≠ "" ∧ Is_stringValue nodeIdentity = true
       ∧ ∃ vertexId, vertexIdOfUrn id = Ok vertexId
                     ∧ is_Some (_vertexStorage w !! vertexId))
  ∧ (id = "" ->
     get svc w id options = Err (guardViolation "id")
     ∧ removeImmutable w id nodeIdentity = Err (guardViolation "id"))
  ∧ (id ≠ "" -> Is_stringValue nodeIdentity = false ->
     removeImmutable w id nodeIdentity = Err (guardViolation "nodeIdentity"))
  ∧ (id ≠ "" -> ∀ err, vertexIdOfUrn id = Err err ->
     get svc w id options = Err err
     ∧ (Is_stringValue nodeIdentity = true -> removeImmutable w id nodeIdentity = Err err))
  ∧ (id ≠ "" ->
     options ≫= verifySignatureDepth = None
     ∨ options ≫= verifySignatureDepth = Some VerifyNone ->
     ∀ vertexId, vertexIdOfUrn id = Ok vertexId ->
                 is_Some (_vertexStorage w !! vertexId) ->
     ∃ r, get svc w id options = Ok r ∧ verified r = None ∧ verification r = None).
Proof.
  split; [|split; [|split; [|split; [|split]]]].
  - intros r Hg. unfold get in Hg.
    invert_bind Hg as id' Hid. apply Guards_stringValue_Ok in Hid as [[= <-] Hid].
    invert_bind Hg as vid Hvid. apply catchWith_Ok in Hg.
    destruct (_vertexStorage w !! vid) as [e|] eqn:He; [|discriminate].
    split; [done|]. exists vid. by rewrite He.
  - intros w' Hr. unfold removeImmutable in Hr.
    invert_bind Hr as id' Hid. apply Guards_stringValue_Ok in Hid as [[= <-] Hid].
    invert_bind Hr as nodeId Hnode. apply Guards_stringValue_Ok in Hnode as [-> Hnode].
    invert_bind Hr as vid Hvid. apply catchWith_Ok in Hr.
    destruct (_vertexStorage w !! vid) as [e|] eqn:He; [|discriminate].
    split; [done|]. split; [apply Is_stringValue_Some; eauto|].
    exists vid. by rewrite He.
  - by intros ->.
  - intros Hid Hn. unfold removeImmutable. rewrite Guards_stringValue_pass by done.
    simpl. by rewrite (Guards_stringValue_fail _ _ Hn).
  - intros Hid err Hvid. split.
    + unfold get. rewrite Guards_stringValue_pass by done. simpl. by rewrite Hvid.
    + intros (nodeId & -> & Hnode)%Is_stringValue_Some. unfold removeImmutable.
      rewrite !Guards_stringValue_pass by done. simpl. by rewrite Hvid.
  - intros Hid Hdepth vertexId Hvid [e He]. unfold get.
    rewrite Guards_stringValue_pass by done. simpl. rewrite Hvid. simpl. rewrite He.
    destruct Hdepth as [-> | ->]; simpl; eauto.
Qed.
End Failures.

(** ** Invariants of the stored vertices *)

Section Invariants.
Context `{Collaborators}.

Lemma head_snoc {A} (l : list A) (x y : A) :
  head l = Some x -> head (l ++ [y]) = Some x.
Proof. by destruct l. Qed.

(** The epochs of the changesets of a stored vertex. *)
Lemma reachable_changeset_epochs (svc : Service) (w : World)
    (k : string) (e : AuditableItemGraphVertex) :
  reachable svc w ->
  _vertexStorage w !! k = Some e ->
  ∃ first final,
    head (default [] (e_changesets e)) = Some first
    ∧ last (default [] (e_changesets e)) = Some final
    ∧ cs_created first = e_created e
    ∧ cs_created final = e_updated e.
Proof.
  intros Hreach. revert k e.
  induction Hreach as [imm
    | w now id ms m al rl el identity nodeIdentity w' urn _ IH Hc
    | w now id ms m al rl el identity nodeIdentity w' _ IH Hu
    | w id nodeIdentity w' _ IH Hr]; intros k e Hk.
  - simpl in Hk. by rewrite lookup_empty in Hk.
  - apply create_inv in Hc as (user & nodeId & reconciled & -> & -> & Hrec & Hw & Hch & _).
    rewrite (addChangeset_changed _ _ _ _ _ Hch) in Hw. simpl in Hw. subst w'. simpl in Hk.
    destruct (decide (id = k)) as [->|Hne].
    + rewrite lookup_insert_eq in Hk. injection Hk as <-.
      apply reconcile_inv in Hrec as (? & ? & ? & _ & _ & _ & ->). simpl.
      eexists _, _. split; [done|]. split; [done|]. done.
    + rewrite lookup_insert_ne in Hk by done. by eapply IH.
  - apply update_inv in Hu
      as (vid & e0 & user & nodeId & reconciled & -> & -> & Hvid & He0 & Hrec & Hw).
    destruct Hw as [[_ ->] | [Hch ->]]; [by eapply IH|].
    rewrite (addChangeset_changed _ _ _ _ _ Hch) in Hk. simpl in Hk.
    destruct (decide (e_id e0 = k)) as [<-|Hne].
    + rewrite lookup_insert_eq in Hk. injection Hk as <-.
      destruct (IH _ _ He0) as (first & final & Hhead & _ & Hfirst & _).
      apply reconcile_inv in Hrec as (? & ? & ? & _ & _ & _ & ->). simpl.
      rewrite copyArray_snoc. simpl. rewrite copyArray_id.
      exists first. eexists. split; [by apply head_snoc|].
      split; [apply last_snoc|]. done.
    + rewrite lookup_insert_ne in Hk by done. by eapply IH.
  - apply removeImmutable_inv in Hr as (vid & e0 & nodeId & -> & Hvid & He0 & Hw).
    simpl in Hw. destruct Hw as [[_ ->] | [_ ->]]; [by eapply IH|]. simpl in Hk.
    destruct (decide (e_id e0 = k)) as [<-|Hne].
    + rewrite lookup_insert_eq in Hk. injection Hk as <-.
      destruct (IH _ _ He0) as (first & final & Hhead & Hlast & Hfirst & Hfinal).
      simpl. exists (detach first), (detach final).
      destruct (detach_fields first) as (-> & _), (detach_fields final) as (-> & _).
      split; [|split; [|done]].
      * destruct (default [] (e_changesets e0)); [done|]. simpl in *. congruence.
      * by rewrite fmap_last, Hlast.
    + rewrite lookup_insert_ne in Hk by done. by eapply IH.
Qed.

(** X7. In every world the service can reach, a stored vertex has at least
    one changeset; the first one carries the [created] epoch of the vertex
    and the last one its [updated] epoch. *)
Theorem X7_changesets_anchor_created_and_updated (svc : Service) (w : World)
    (k : string) (e : AuditableItemGraphVertex) :
  reachable svc w ->
  _vertexStorage w !! k = Some e ->
  ∃ first final,
    head (default [] (e_changesets e)) = Some first
    ∧ last (default [] (e_changesets e)) = Some final
    ∧ cs_created first = e_created e
    ∧ cs_created final = e_updated e.
Proof. apply reachable_changeset_epochs. Qed.

Lemma copyArray_copyArray {A B C} (f : B -> C) (g : A -> B) (xs : option (list A)) :
  copyArray f (copyArray g xs) = copyArray (f ∘ g) xs.
Proof.
  destruct xs as [[|a l]|]; try done.
  unfold copyArray. simpl. by rewrite <- list_fmap_compose.
Qed.

Lemma copyArray_ext {A B} (f g : A -> B) (xs : option (list A)) :
  (∀ a, f a = g a) -> copyArray f xs = copyArray g xs.
Proof.
  intros Hfg. unfold copyArray. destruct (Is_arrayValue xs); [|done].
  f_equal. apply list_fmap_ext. auto.
Qed.

Lemma copyArray_id_Some {A} (xs : option (list A)) :
  xs ≠ Some [] -> copyArray id xs = xs.
Proof.
  destruct xs as [[|a l]|]; try done.
  intros _. unfold copyArray. simpl. by rewrite list_fmap_id.
Qed.

Lemma aliasModelToEntity_aliasEntityToModel a :
  aliasModelToEntity (aliasEntityToModel a) = a.
Proof. by destruct a. Qed.

Lemma resourceModelToEntity_resourceEntityToModel r :
  resourceModelToEntity (resourceEntityToModel r) = r.
Proof. by destruct r. Qed.

Lemma edgeModelToEntity_edgeEntityToModel e :
  edgeModelToEntity (edgeEntityToModel e) = e.
Proof. by destruct e. Qed.

(** Storing what was loaded: the entity is the one loaded when none of its
    collections is an empty array and its alias index is the one of its
    aliases. *)
Lemma vertexModelToEntity_vertexEntityToModel e :
  e_aliases e ≠ Some [] -> e_resources e ≠ Some [] -> e_edges e ≠ Some [] ->
  e_changesets e ≠ Some [] ->
  e_aliasIndex e = aliasIndexOf (e_aliases e) ->
  vertexModelToEntity (vertexEntityToModel e) = e.
Proof.
  intros Ha Hr He Hc Hidx. destruct e as [i c u n ms m idx al rl el cl].
  simpl in *. unfold vertexModelToEntity, vertexEntityToModel. simpl.
  rewrite !copyArray_copyArray.
  rewrite (copyArray_ext _ id al) by apply aliasModelToEntity_aliasEntityToModel.
  rewrite (copyArray_ext _ id rl) by apply resourceModelToEntity_resourceEntityToModel.
  rewrite (copyArray_ext _ id el) by apply edgeModelToEntity_edgeEntityToModel.
  rewrite (copyArray_ext (id ∘ id) id cl) by done.
  rewrite !copyArray_id_Some by done. f_equal.
  subst idx. destruct al as [[|a l]|]; try done.
  unfold aliasIndexOf. do 3 f_equal.
  change (default [] (copyArray aliasEntityToModel (Some (a :: l))))
    with (aliasEntityToModel <$> a :: l).
  rewrite <- list_fmap_compose. by apply list_fmap_ext.
Qed.

(** The shape of the stored entities: no collection is an empty array and
    the alias index is the one of the aliases. *)
Lemma reachable_stored_shape (svc : Service) (w : World)
    (k : string) (e : AuditableItemGraphVertex) :
  reachable svc w ->
  _vertexStorage w !! k = Some e ->
  e_aliases e ≠ Some [] ∧ e_resources e ≠ Some [] ∧ e_edges e ≠ Some []
  ∧ e_changesets e ≠ Some []
  ∧ e_aliasIndex e = aliasIndexOf (e_aliases e).
Proof.
  intros Hreach. revert k e.
  induction Hreach as [imm
    | w now xid ms m al rl el identity nodeIdentity w' urn _ IH Hc
    | w now xid ms m al rl el identity nodeIdentity w' _ IH Hu
    | w xid nodeIdentity w' _ IH Hr]; intros k e Hk.
  - simpl in Hk. by rewrite lookup_empty in Hk.
  - apply create_inv in Hc as (user & nodeId & reconciled & _ & _ & _ & -> & _ & _).
    simpl in Hk. rewrite lookup_insert in Hk. case_decide; [|by eapply IH].
    injection Hk as <-.
    repeat split; try apply copyArray_not_empty. apply aliasIndex_vertexModelToEntity.
  - apply update_inv in Hu
      as (vid & e0 & user & nodeId & reconciled & _ & _ & _ & _ & _ & Hw).
    destruct Hw as [[_ ->] | [_ ->]]; [by eapply IH|].
    simpl in Hk. rewrite lookup_insert in Hk. case_decide; [|by eapply IH].
    injection Hk as <-.
    repeat split; try apply copyArray_not_empty. apply aliasIndex_vertexModelToEntity.
  - apply removeImmutable_inv in Hr as (vid & e0 & nodeId & _ & _ & He0 & Hw).
    simpl in Hw. destruct Hw as [[_ ->] | [Hex ->]]; [by eapply IH|].
    simpl in Hk. rewrite lookup_insert in Hk. case_decide; [|by eapply IH].
    injection Hk as <-. destruct (IH _ _ He0) as (Ha & Hr & He & _ & Hidx).
    simpl. repeat split; try done.
    destruct (default [] (e_changesets e0)); [discriminate Hex|done].
Qed.

(** X8. Loading a stored vertex and storing it back writes the entity that
    was read: in every world the service can reach, [vertexModelToEntity]
    undoes [vertexEntityToModel] on each stored entity. *)
Theorem X8_stored_entity_survives_the_round_trip (svc : Service) (w : World)
    (k : string) (e : AuditableItemGraphVertex) :
  reachable svc w ->
  _vertexStorage w !! k = Some e ->
  vertexModelToEntity (vertexEntityToModel e) = e.
Proof.
  intros Hreach Hk.
  destruct (reachable_stored_shape _ _ _ _ Hreach Hk) as (? & ? & ? & ? & ?).
  by apply vertexModelToEntity_vertexEntityToModel.
Qed.

(** X9. A successful [update] leaves the stored vertex under its key with
    the [id], the [created] epoch and the [nodeIdentity] it had (whatever
    node identity the call was made with), only ever extends its list of
    changesets at the end, and touches no other vertex. *)
Theorem X9_update_keeps_identity_history_and_frame (svc : Service) (w w' : World)
    (now : N) (id : string) (metadataSchema : option string) (metadata : option Json)
    (aliases resources : option (list ElementInput))
    (edges : option (list EdgeInput)) (identity nodeIdentity : option string) :
  reachable svc w ->
  update svc w now id metadataSchema metadata aliases resources edges
         identity nodeIdentity = Ok w' ->
  ∃ vertexId e e',
    vertexIdOfUrn id = Ok vertexId
    ∧ _vertexStorage w !! vertexId = Some e
    ∧ _vertexStorage w' !! vertexId = Some e'
    ∧ e_id e' = e_id e
    ∧ e_created e' = e_created e
    ∧ e_nodeIdentity e' = e_nodeIdentity e
    ∧ default [] (e_changesets e) `prefix_of` default [] (e_changesets e')
    ∧ (∀ k, k ≠ vertexId -> _vertexStorage w' !! k = _vertexStorage w !! k).
Proof.
  intros Hreach Hu. pose proof (reachable_wellKeyed _ _ Hreach) as Hkeys.
  apply update_inv in Hu
    as (vid & e & user & nodeId & reconciled & _ & _ & Hvid & He & Hrec & Hw).
  pose proof (Hkeys _ _ He) as Hid.
  exists vid, e. destruct Hw as [[_ ->] | [Hch ->]].
  - exists e. repeat split; done.
  - rewrite (addChangeset_changed _ _ _ _ _ Hch). simpl. rewrite Hid.
    eexists. split; [done|]. split; [done|]. split; [by rewrite lookup_insert_eq|].
    apply reconcile_inv in Hrec as (? & ? & ? & _ & _ & _ & ->). simpl.
    repeat split; try done.
    + rewrite copyArray_snoc. simpl. rewrite copyArray_id. by apply prefix_app_r.
    + intros k Hne. by rewrite lookup_insert_ne.
Qed.

(** X10. [removeImmutable] is idempotent: after a successful call, a second
    call for the same vertex, with any node identity, finds no changeset to
    detach and returns the world as it is. *)
Theorem X10_removeImmutable_is_idempotent (svc : Service) (w w' : World) (id : string)
    (nodeIdentity nodeIdentity' : option string) :
  reachable svc w ->
  removeImmutable w id nodeIdentity = Ok w' ->
  Is_stringValue nodeIdentity' = true ->
  removeImmutable w' id nodeIdentity' = Ok w'.
Proof.
  intros Hreach Hr (node' & -> & Hnode')%Is_stringValue_Some.
  pose proof (reachable_wellKeyed _ _ Hreach) as Hkeys.
  pose proof (removeImmutable_id _ _ _ _ Hr) as Hid.
  apply removeImmutable_inv in Hr as (vid & e & nodeId & _ & Hvid & He & Hw).
  pose proof (Hkeys _ _ He) as Hkey. simpl in Hw.
  unfold removeImmutable. rewrite !Guards_stringValue_pass by done. simpl.
  rewrite Hvid. simpl.
  destruct Hw as [[Hex ->] | [Hex ->]].
  - rewrite He. destruct (Is_arrayValue (e_changesets e)); [|done].
    rewrite removeImmutableLoop_spec. simpl. by rewrite Hex.
  - simpl. rewrite Hkey, lookup_insert_eq.
    assert (Hnone : existsb (fun c => Is_stringValue (cs_immutableStorageId c))
                      (detach <$> default [] (e_changesets e)) = false).
    { apply not_true_is_false. intros (c' & Hin & Hc')%existsb_exists.
      apply list_elem_of_In, list_elem_of_fmap in Hin as (c0 & -> & _).
      by rewrite detach_not_attached in Hc'. }
    cbn [e_changesets set_e_changesets].
    destruct (Is_arrayValue (Some (detach <$> default [] (e_changesets e)))); [|done].
    rewrite removeImmutableLoop_spec.
    change (default [] (Some (detach <$> default [] (e_changesets e))))
      with (detach <$> default [] (e_changesets e)).
    by rewrite Hnone.
Qed.
End Invariants.

(** ** Stored elements under update *)

Section StoredElements.
Context {E U A : Type} `{Reconcilable E U}.
Variable toModel : A -> E.
Variable toEntity : E -> A.
Variable idA : A -> string.
Variable createdA : A -> N.
Variable deletedA : A -> option N.
Variable createdE : E -> N.
Hypothesis toEntity_toModel : ∀ a, toEntity (toModel a) = a.
Hypothesis id_toModel : ∀ a, elem_id (toModel a) = idA a.
Hypothesis deleted_toModel : ∀ a, elem_deleted (toModel a) = deletedA a.
Hypothesis id_toEntity : ∀ e, idA (toEntity e) = elem_id e.
Hypothesis created_toModel : ∀ a, createdE (toModel a) = createdA a.
Hypothesis created_toEntity : ∀ e, createdA (toEntity e) = createdE e.
Hypothesis created_markDeleted : ∀ n e, createdE (elem_markDeleted n e) = createdE e.
Hypothesis created_write : ∀ n u e, createdE (elem_write n u e) = createdE e.

(** A collection loaded with [vertexEntityToModel], reconciled, and stored
    with [vertexModelToEntity]. *)
Lemma reconciled_growsBy (now : N) (stored : option (list A))
    (upd : option (list U)) (elems' : option (list E)) :
  updateList now (copyArray toModel stored) upd = Ok elems' ->
  growsBy idA createdA deletedA stored (copyArray toEntity elems')
          (input_id <$> default [] upd).
Proof.
  intros Hupd. split; [|split].
  - destruct (updateList_ids _ _ _ _ Hupd) as (added & Hsub & Hids).
    exists (input_id <$> added). split; [by apply fmap_sublist|].
    rewrite !default_copyArray. unfold idsOf in Hids.
    rewrite default_copyArray in Hids.
    rewrite <- list_fmap_compose in Hids. rewrite <- list_fmap_compose.
    rewrite (list_fmap_ext (idA ∘ toEntity) elem_id (default [] elems'))
      by (intros ? e _; apply id_toEntity).
    rewrite Hids. f_equal. apply list_fmap_ext. intros ? a _. apply id_toModel.
  - intros i a Hi.
    assert (Hi' : default [] (copyArray toModel stored) !! i = Some (toModel a)).
    { by rewrite default_copyArray, list_lookup_fmap, Hi. }
    destruct (updateList_projection createdE _ _ _ _ _ _
                created_markDeleted created_write Hupd Hi') as (e' & He' & Hc).
    exists (toEntity e'). split.
    + by rewrite default_copyArray, list_lookup_fmap, He'.
    + by rewrite created_toEntity, Hc, created_toModel.
  - intros i a Hi Ht.
    assert (Hi' : default [] (copyArray toModel stored) !! i = Some (toModel a)).
    { by rewrite default_copyArray, list_lookup_fmap, Hi. }
    destruct (updateList_kept _ _ _ _ _ _ Hupd Hi') as (e' & He' & _ & _ & Hsame).
    { rewrite deleted_toModel. by destruct (deletedA a). }
    rewrite Hsame in He' by by rewrite deleted_toModel.
    by rewrite default_copyArray, list_lookup_fmap, He'; simpl; rewrite toEntity_toModel.
Qed.
End StoredElements.

Section StoredElementsOfUpdate.
Context `{Collaborators}.

(** X11. A successful [update] never removes or moves a stored alias,
    resource or edge: in each collection the ids stay where they were, what
    follows them are ids of the list passed to the call, in its order;
    every element keeps its [created] epoch; and every element whose
    [deleted] is truthy is stored again exactly as it was. *)
Theorem X11_update_keeps_stored_elements_in_place (svc : Service) (w w' : World)
    (now : N) (id : string) (metadataSchema : option string) (metadata : option Json)
    (aliases resources : option (list ElementInput))
    (edges : option (list EdgeInput)) (identity nodeIdentity : option string)
    (vertexId : string) (e e' : AuditableItemGraphVertex) :
  reachable svc w ->
  update svc w now id metadataSchema metadata aliases resources edges
         identity nodeIdentity = Ok w' ->
  vertexIdOfUrn id = Ok vertexId ->
  _vertexStorage w !! vertexId = Some e ->
  _vertexStorage w' !! vertexId = Some e' ->
  growsBy ae_id ae_created ae_deleted (e_aliases e) (e_aliases e')
          (in_id <$> default [] aliases)
  ∧ growsBy re_id re_created re_deleted (e_resources e) (e_resources e')
            (in_id <$> default [] resources)
  ∧ growsBy ee_id ee_created ee_deleted (e_edges e) (e_edges e')
            (ein_id <$> default [] edges).
Proof.
  intros Hreach Hu Hvid He He'.
  pose proof (reachable_wellKeyed _ _ Hreach) as Hkeys.
  apply update_inv in Hu
    as (vid & e0 & user & nodeId & reconciled & _ & _ & Hvid' & He0 & Hrec & Hw).
  assert (vid = vertexId) as -> by congruence.
  assert (e0 = e) as -> by congruence.
  destruct Hw as [[_ ->] | [Hch ->]].
  { assert (e' = e) as -> by congruence.
    repeat split; eauto;
      exists []; (split; [apply sublist_nil_l|by rewrite app_nil_r]). }
  rewrite (addChangeset_changed _ _ _ _ _ Hch) in He'. simpl in He'.
  rewrite (Hkeys _ _ He), lookup_insert_eq in He'. injection He' as <-.
  apply reconcile_inv in Hrec as (al & rl & el & Hal & Hrl & Hel & ->). simpl.
  split; [|split].
  - by apply (@reconciled_growsBy _ _ _ aliasReconcilable
                aliasEntityToModel aliasModelToEntity
                ae_id ae_created ae_deleted alias_created
                aliasModelToEntity_aliasEntityToModel
                (fun _ => eq_refl) (fun _ => eq_refl) (fun _ => eq_refl)
                (fun _ => eq_refl) (fun _ => eq_refl)
                (fun _ _ => eq_refl) (fun _ _ _ => eq_refl)) in Hal.
  - by apply (@reconciled_growsBy _ _ _ resourceReconcilable
                resourceEntityToModel resourceModelToEntity
                re_id re_created re_deleted resource_created
                resourceModelToEntity_resourceEntityToModel
                (fun _ => eq_refl) (fun _ => eq_refl) (fun _ => eq_refl)
                (fun _ => eq_refl) (fun _ => eq_refl)
                (fun _ _ => eq_refl) (fun _ _ _ => eq_refl)) in Hrl.
  - by apply (@reconciled_growsBy _ _ _ edgeReconcilable
                edgeEntityToModel edgeModelToEntity
                ee_id ee_created ee_deleted edge_created
                edgeModelToEntity_edgeEntityToModel
                (fun _ => eq_refl) (fun _ => eq_refl) (fun _ => eq_refl)
                (fun _ => eq_refl) (fun _ => eq_refl)
                (fun _ _ => eq_refl) (fun _ _ _ => eq_refl)) in Hel.
Qed.
End StoredElementsOfUpdate.

(** ** What get returns *)

Section GetResults.
Context `{Collaborators}.

(** The vertex [get] returns, from the stored entity. *)
Lemma get_inv svc w id options r :
  get svc w id options = Ok r ->
  ∃ vertexId e,
    id ≠ ""
    ∧ vertexIdOfUrn id = Ok vertexId
    ∧ _vertexStorage w !! vertexId = Some e
    ∧ vertex r
      = let vertexModel := vertexEntityToModel e in
        let vertexModel :=
          if negb (default false (options ≫= includeDeleted))
          then
            set_edges (dropDeleted edge_deleted (v_edges vertexModel))
              (set_resources (dropDeleted resource_deleted (v_resources vertexModel))
                 (set_aliases (dropDeleted alias_deleted (v_aliases vertexModel))
                    vertexModel))
          else vertexModel in
        if negb (default false (options ≫= includeChangesets))
        then set_changesets None vertexModel
        else vertexModel.
Proof.
  unfold get. intros Hg.
  invert_bind Hg as id' Hid. apply Guards_stringValue_Ok in Hid as [[= <-] Hid].
  invert_bind Hg as vid Hvid. apply catchWith_Ok in Hg.
  destruct (_vertexStorage w !! vid) as [e|] eqn:He; [|discriminate].
  exists vid, e. do 3 (split; [done|]).
  destruct (options ≫= verifySignatureDepth) as [[]|]; by injection Hg as <-.
Qed.

Lemma dropDeleted_elem_of {A} (deleted : A -> option N) (xs : option (list A)) (a : A) :
  a ∈ default [] (dropDeleted deleted xs) -> a ∈ default [] xs.
Proof.
  unfold dropDeleted. destruct (Is_arrayValue xs); [|done].
  case_bool_decide; [by intros ?%elem_of_nil|].
  simpl. intros Hin%list_elem_of_In%filter_In. apply list_elem_of_In, Hin.
Qed.

(** X12. The [updated] epoch that a reconciler stamps on an alias, a
    resource or an edge is never stored: whatever the options, no element
    of a vertex returned by [get] carries an [updated]. *)
Theorem X12_get_returns_no_element_updated (svc : Service) (w : World) (id : string)
    (options : option GetOptions) (r : GetResult) :
  get svc w id options = Ok r ->
  (∀ a, a ∈ default [] (v_aliases (vertex r)) -> alias_updated a = None)
  ∧ (∀ a, a ∈ default [] (v_resources (vertex r)) -> resource_updated a = None)
  ∧ (∀ a, a ∈ default [] (v_edges (vertex r)) -> edge_updated a = None).
Proof.
  intros (vid & e & _ & _ & _ & ->)%get_inv.
  assert (Ha : ∀ a, a ∈ default [] (v_aliases (vertexEntityToModel e)) ->
                    alias_updated a = None).
  { intros a. simpl. rewrite default_copyArray.
    by intros (? & -> & _)%list_elem_of_fmap. }
  assert (Hr : ∀ a, a ∈ default [] (v_resources (vertexEntityToModel e)) ->
                    resource_updated a = None).
  { intros a. simpl. rewrite default_copyArray.
    by intros (? & -> & _)%list_elem_of_fmap. }
  assert (He : ∀ a, a ∈ default [] (v_edges (vertexEntityToModel e)) ->
                    edge_updated a = None).
  { intros a. simpl. rewrite default_copyArray.
    by intros (? & -> & _)%list_elem_of_fmap. }
  destruct (negb (default false (options ≫= includeDeleted)));
    destruct (negb (default false (options ≫= includeChangesets)));
    cbv zeta; cbn [v_aliases v_resources v_edges set_edges set_resources
                   set_aliases set_changesets];
    (split; [|split]); intros a Hin; try apply dropDeleted_elem_of in Hin; auto.
Qed.
End GetResults.

(** ** A new vertex *)

Section FreshCollection.
Context {E U : Type} `{Reconcilable E U}.

(** On a collection that holds none of their ids, items with distinct ids
    are pushed one by one. *)
Lemma forEachM_updateElement_fresh (now : N) (upd : list U) :
  ∀ (before : list U) (elems : option (list E)),
    NoDup (input_id <$> before ++ upd) ->
    Forall (fun u => input_guard u = Ok ()) upd ->
    default [] elems = elem_new now <$> before ->
    ∃ elems', forEachM (updateElement now) elems upd = Ok elems'
              ∧ default [] elems' = elem_new now <$> before ++ upd.
Proof.
  induction upd as [|u upd IH]; intros before elems Hnd Hg Hel; simpl.
  - exists elems. by rewrite app_nil_r.
  - apply Forall_cons in Hg as [Hu Hg].
    assert (Hfind : list_find (fun a => elem_id a = input_id u) (default [] elems) = None).
    { apply list_find_None, Forall_forall. rewrite Hel.
      intros e (u0 & -> & Hu0)%list_elem_of_fmap. rewrite elem_id_new.
      rewrite fmap_app in Hnd. apply NoDup_app in Hnd as (_ & Hdisj & _).
      intros Heq. apply (Hdisj (input_id u0)); [by apply list_elem_of_fmap_2|].
      rewrite Heq. simpl. left. }
    assert (Hstep : updateElement now elems u
                    = Ok (Some (default [] elems ++ [elem_new now u]))).
    { unfold updateElement. simpl in Hu. rewrite Hu. simpl. by rewrite Hfind. }
    rewrite Hstep. simpl.
    destruct (IH (before ++ [u]) (Some (default [] elems ++ [elem_new now u])))
      as (elems' & Hloop & Hres).
    + by rewrite <- app_assoc.
    + done.
    + simpl. by rewrite Hel, fmap_app.
    + exists elems'. split; [done|]. by rewrite Hres, <- app_assoc.
Qed.

Lemma updateList_fresh (now : N) (upd : option (list U)) :
  NoDup (input_id <$> default [] upd) ->
  Forall (fun u => input_guard u = Ok ()) (default [] upd) ->
  ∃ elems', updateList now None upd = Ok elems'
            ∧ default [] elems' = elem_new now <$> default [] upd.
Proof.
  intros Hnd Hg. unfold updateList. simpl.
  destruct (Is_arrayValue upd) eqn:Harr.
  - by apply (forEachM_updateElement_fresh now (default [] upd) [] None).
  - exists None. split; [done|]. by destruct upd as [[|]|].
Qed.
End FreshCollection.

Section CreatedVertex.
Context `{Collaborators}.

Lemma dropDeleted_live {A} (deleted : A -> option N) (xs : option (list A)) :
  Forall (fun a => deleted a = None) (default [] xs) ->
  default [] (dropDeleted deleted xs) = default [] xs.
Proof.
  intros Hall. unfold dropDeleted. destruct (Is_arrayValue xs) eqn:Harr; [|done].
  assert (Hf : List.filter (fun a => Is_undefined (deleted a)) (default [] xs)
               = default [] xs).
  { induction (default [] xs) as [|a l IH]; [done|].
    apply Forall_cons in Hall as [Ha Hl]. simpl. rewrite Ha. simpl. by rewrite IH. }
  rewrite Hf. case_bool_decide as Hlen; [|done].
  by destruct xs as [[|]|].
Qed.

(** The entity [create] stores. *)
Lemma create_stored svc w now id metadataSchema metadata aliases resources edges
    identity nodeIdentity w' urn :
  create svc w now id metadataSchema metadata aliases resources edges
         identity nodeIdentity = Ok (w', urn) ->
  ∃ user nodeId al rl el c,
    identity = Some user ∧ nodeIdentity = Some nodeId
    ∧ updateList now None aliases = Ok al
    ∧ updateList now None resources = Ok rl
    ∧ updateList now None edges = Ok el
    ∧ _vertexStorage w' !! id
      = Some (vertexModelToEntity
                (mkVertex id nodeId now now metadataSchema metadata al rl el (Some [c]))).
Proof.
  intros (user & nodeId & reconciled & -> & -> & Hrec & Hw & Hch & _)%create_inv.
  rewrite (addChangeset_changed _ _ _ _ _ Hch) in Hw. simpl in Hw.
  apply reconcile_inv in Hrec as (al & rl & el & Hal & Hrl & Hel & ->).
  simpl in Hal, Hrl, Hel.
  exists user, nodeId, al, rl, el. eexists. do 5 (split; [done|]).
  subst w'. simpl. by rewrite lookup_insert_eq.
Qed.

(** X13. What [create] stores is what [get] returns: under the URN that
    [create] hands back, [get] finds a vertex with the id, the node
    identity, the epoch and the metadata of the call, and, when the ids in
    each list are distinct, one live element per item of the list, in the
    order of the list, created at the epoch of the call. *)
Theorem X13_get_returns_the_created_vertex (svc : Service) (w w' : World) (now : N)
    (id urn : string) (metadataSchema : option string) (metadata : option Json)
    (aliases resources : option (list ElementInput))
    (edges : option (list EdgeInput)) (identity nodeIdentity : option string)
    (options : option GetOptions) :
  create svc w now id metadataSchema metadata aliases resources edges
         identity nodeIdentity = Ok (w', urn) ->
  urn ≠ "" ->
  Urn_fromValidString urn = Some (NAMESPACE, id) ->
  NoDup (in_id <$> default [] aliases) ->
  NoDup (in_id <$> default [] resources) ->
  NoDup (ein_id <$> default [] edges) ->
  ∃ r, get svc w' urn options = Ok r
       ∧ v_id (vertex r) = id
       ∧ Some (v_nodeIdentity (vertex r)) = nodeIdentity
       ∧ v_created (vertex r) = now
       ∧ v_updated (vertex r) = now
       ∧ v_metadataSchema (vertex r) = metadataSchema
       ∧ v_metadata (vertex r) = metadata
       ∧ default [] (v_aliases (vertex r))
         = (fun u => mkAlias (in_id u) now None None
                             (in_metadataSchema u) (in_metadata u))
             <$> default [] aliases
       ∧ default [] (v_resources (vertex r))
         = (fun u => mkResource (in_id u) now None None
                                (in_metadataSchema u) (in_metadata u))
             <$> default [] resources
       ∧ default [] (v_edges (vertex r))
         = (fun u => mkEdge (ein_id u) now None None (ein_relationship u)
                            (ein_metadataSchema u) (ein_metadata u))
             <$> default [] edges.
Proof.
  intros Hc Hurn Hparse Hna Hnr Hne.
  apply create_stored in Hc
    as (user & nodeId & al & rl & el & c & -> & -> & Hal & Hrl & Hel & Hstored).
  destruct (@updateList_fresh _ _ aliasReconcilable now aliases Hna)
    as (al' & Hal' & Hals); [by eapply updateList_guards|].
  destruct (@updateList_fresh _ _ resourceReconcilable now resources Hnr)
    as (rl' & Hrl' & Hrls); [by eapply updateList_guards|].
  destruct (@updateList_fresh _ _ edgeReconcilable now edges Hne)
    as (el' & Hel' & Hels); [by eapply updateList_guards|].
  assert (al' = al) as -> by congruence.
  assert (rl' = rl) as -> by congruence.
  assert (el' = el) as -> by congruence.
  apply vertexIdOfUrn_Ok in Hparse.
  destruct (get_ok svc w' urn options id _ Hurn Hparse Hstored) as [r Hr].
  exists r. split; [done|].
  apply get_inv in Hr as (vid & e & _ & Hvid & He & ->).
  assert (vid = id) as -> by congruence.
  rewrite Hstored in He. injection He as <-.
  assert (Hlive_a : default [] (copyArray aliasEntityToModel (copyArray aliasModelToEntity al))
                    = default [] al).
  { rewrite !default_copyArray, <- list_fmap_compose, Hals, <- list_fmap_compose.
    by apply list_fmap_ext. }
  assert (Hlive_r : default [] (copyArray resourceEntityToModel
                                  (copyArray resourceModelToEntity rl))
                    = default [] rl).
  { rewrite !default_copyArray, <- list_fmap_compose, Hrls, <- list_fmap_compose.
    by apply list_fmap_ext. }
  assert (Hlive_e : default [] (copyArray edgeEntityToModel (copyArray edgeModelToEntity el))
                    = default [] el).
  { rewrite !default_copyArray, <- list_fmap_compose, Hels, <- list_fmap_compose.
    by apply list_fmap_ext. }
  destruct (negb (default false (options ≫= includeDeleted)));
    destruct (negb (default false (options ≫= includeChangesets)));
    cbv zeta;
    cbn [v_id v_nodeIdentity v_created v_updated v_metadataSchema v_metadata
         v_aliases v_resources v_edges set_edges set_resources set_aliases
         set_changesets vertexEntityToModel vertexModelToEntity
         e_id e_nodeIdentity e_created e_updated e_metadataSchema e_metadata
         e_aliases e_resources e_edges];
    do 6 (split; [done|]);
    rewrite ?dropDeleted_live; rewrite ?Hlive_a, ?Hlive_r, ?Hlive_e; try done;
    rewrite ?Hals, ?Hrls, ?Hels; try (apply Forall_fmap, Forall_true; done).
Qed.
End CreatedVertex.

(** ** Verification of what the service wrote *)

Section VerifyWritten.
Context `{Collaborators}.

(** [get] with a verification depth on a stored vertex. *)
Lemma get_verify svc w id incDeleted incChangesets depth vertexId e :
  id ≠ "" ->
  vertexIdOfUrn id = Ok vertexId ->
  _vertexStorage w !! vertexId = Some e ->
  depth ≠ VerifyNone ->
  ∃ r,
    get svc w id (Some (mkGetOptions incDeleted incChangesets (Some depth))) = Ok r
    ∧ verified r
      = Some (verifyChangesets svc (_integrityImmutableStorage w)
                (vertexEntityToModel e) depth).1
    ∧ verification r
      = Some (verifyChangesets svc (_integrityImmutableStorage w)
                (vertexEntityToModel e) depth).2.
Proof.
  intros Hid Hvid He Hdepth. unfold get.
  rewrite Guards_stringValue_pass by done. simpl. rewrite Hvid. simpl. rewrite He.
  destruct depth; [done| |]; simpl; eauto.
Qed.

(** The check of a credential that reads back as it was issued. *)
Lemma checkCredential_issued svc imm vertex context c sid digest :
  (∀ k b, vault_decrypt k (vault_encrypt k b) = b) ->
  (∀ b, base64ToBytes (bytesToBase64 b) = b) ->
  v_nodeIdentity vertex = nodeIdentity context ->
  cs_created c = now context ->
  cs_userIdentity c = userIdentity context ->
  checkVerifiableCredential (bytesToUtf8 (imm_get imm sid))
  = (false, Some (credentialData svc context (cs_patches c) digest)) ->
  (checkCredential svc imm vertex c
     (vault_sign (v_nodeIdentity vertex +:+ "/" +:+ _vaultKeyId svc) digest) sid).1.1.1
  = None.
Proof.
  intros Hvault Hb64 Hnode Hcreated Huser Hcheck.
  unfold checkCredential. rewrite Hcheck. simpl.
  rewrite Hnode. rewrite bool_decide_eq_false_2 by (by intros ?).
  destruct (_enableIntegrityCheck svc); simpl; [|done].
  case_bool_decide as Hne; [|done]. simpl.
  rewrite Hb64, Hvault. unfold bytesToUtf8, utf8ToBytes.
  rewrite string_of_list_byte_of_string.
  rewrite bool_decide_eq_false_2; [done|].
  intros Hcan. apply Hcan. by rewrite Hcreated, Huser.
Qed.

(** A turn of the verifier on a changeset whose hash matches and whose
    credential, if it is consulted, raises no failure. *)
Lemma verifyChangeset_clean svc imm vertex depth len i lastHash c :
  let digest := changesetDigest lastHash (cs_created c) (cs_userIdentity c)
                                (cs_patches c) in
  cs_hash c = bytesToBase64 digest ->
  (Is_stringValue (cs_immutableStorageId c) = true ->
   (checkCredential svc imm vertex c
      (vault_sign (v_nodeIdentity vertex +:+ "/" +:+ _vaultKeyId svc) digest)
      (default "" (cs_immutableStorageId c))).1.1.1 = None) ->
  verifyChangeset svc imm vertex depth len i lastHash c
  = (digest, mkVerification (cs_created c) (cs_patches c) None None, false).
Proof.
  intros digest Hhash Hcred. unfold verifyChangeset. fold digest.
  rewrite bool_decide_eq_false_2 by (by intros ?). simpl.
  destruct (match depth with
            | VerifyAll => true
            | VerifyCurrent => bool_decide (i = (len - 1)%nat)
            | VerifyNone => false
            end); [|done].
  destruct (Is_stringValue (cs_immutableStorageId c)); [|done].
  specialize (Hcred eq_refl).
  destruct (checkCredential _ _ _ _ _ _) as [[[failure ?] ?] ?].
  simpl in Hcred. by subst failure.
Qed.

(** X14. A vertex that [create] has just written verifies, at depth
    [current] and at depth [all]: when the credential stored for its
    changeset reads back as it was issued, and decryption and base64
    decoding undo encryption and encoding, [get] reports [verified = true]
    and one entry without a failure.  The verifier thus recomputes the
    digest, the signing key and the integrity payload as [addChangeset]
    built them. *)
Theorem X14_created_vertex_verifies (svc : Service) (w w' : World) (now : N)
    (id urn user nodeId : string) (metadataSchema : option string)
    (metadata : option Json) (aliases resources : option (list ElementInput))
    (edges : option (list EdgeInput)) (incDeleted incChangesets : option bool)
    (depth : VerifyDepth) :
  create svc w now id metadataSchema metadata aliases resources edges
         (Some user) (Some nodeId) = Ok (w', urn) ->
  urn ≠ "" ->
  Urn_fromValidString urn = Some (NAMESPACE, id) ->
  depth ≠ VerifyNone ->
  (∀ k b, vault_decrypt k (vault_encrypt k b) = b) ->
  (∀ b, base64ToBytes (bytesToBase64 b) = b) ->
  (∀ e c sid,
     _vertexStorage w' !! id = Some e ->
     e_changesets e = Some [c] ->
     cs_immutableStorageId c = Some sid ->
     checkVerifiableCredential
       (bytesToUtf8 (imm_get (_integrityImmutableStorage w') sid))
     = (false,
        Some (credentialData svc (mkContext now user nodeId) (cs_patches c)
                (changesetDigest None now user (cs_patches c))))) ->
  ∃ r patches,
    get svc w' urn (Some (mkGetOptions incDeleted incChangesets (Some depth))) = Ok r
    ∧ verified r = Some true
    ∧ verification r = Some [mkVerification now patches None None].
Proof.
  intros Hc Hurn Hparse Hdepth Hvault Hb64 Hissued.
  apply create_inv in Hc as (? & ? & reconciled & [= <-] & [= <-] & Hrec & Hw & Hch & _).
  rewrite (addChangeset_changed _ _ _ _ _ Hch) in Hw. simpl in Hw.
  apply reconcile_inv in Hrec as (al & rl & el & _ & _ & _ & ->).
  apply vertexIdOfUrn_Ok in Hparse.
  match type of Hw with
  | w' = {| _vertexStorage := <[_ := ?ent]> _; _integrityImmutableStorage := _ |} =>
      assert (Hstored : _vertexStorage w' !! id = Some ent)
        by (subst w'; simpl; by rewrite lookup_insert_eq);
      set (e := ent) in *
  end.
  destruct (get_verify svc w' urn incDeleted incChangesets depth id e Hurn Hparse
              Hstored Hdepth) as (r & Hget & Hverified & Hverification).
  assert (Hcs : ∃ c, e_changesets e = Some [c]
                     ∧ cs_created c = now ∧ cs_userIdentity c = user
                     ∧ cs_hash c = bytesToBase64
                                     (changesetDigest None now user (cs_patches c))).
  { eexists. split; [reflexivity|]. done. }
  destruct Hcs as (c & Hcs & Hcreated & Huser & Hhash).
  assert (Hvc : verifyChangesets svc (_integrityImmutableStorage w')
                  (vertexEntityToModel e) depth
                = (true, [mkVerification now (cs_patches c) None None])).
  { unfold verifyChangesets.
    cbn [vertexEntityToModel v_changesets].
    rewrite Hcs. unfold copyArray. simpl.
    rewrite (verifyChangeset_clean _ _ _ _ _ _ _ c).
    - simpl. by rewrite Hcreated.
    - by rewrite Hcreated, Huser.
    - intros Hattached.
      destruct (cs_immutableStorageId c) as [sid|] eqn:Hsid; [|done]. simpl.
      assert (Hcheck :
        checkVerifiableCredential
          (bytesToUtf8 (imm_get (_integrityImmutableStorage w') sid))
        = (false,
           Some (credentialData svc (mkContext now user nodeId) (cs_patches c)
                   (changesetDigest None (cs_created c) (cs_userIdentity c)
                      (cs_patches c))))).
      { rewrite Hcreated, Huser. by eapply Hissued. }
      exact (checkCredential_issued svc (_integrityImmutableStorage w')
               (vertexEntityToModel e) (mkContext now user nodeId) c sid _
               Hvault Hb64 eq_refl Hcreated Huser Hcheck). }
  exists r, (cs_patches c). split; [done|].
  by rewrite Hverified, Hverification, Hvc.
Qed.
End VerifyWritten.

(** ** The entries of a verification *)

Section VerificationEntries.
Context `{Collaborators}.

Lemma verifyChangeset_entry svc imm vertex depth len i lastHash c :
  ver_created (verifyChangeset svc imm vertex depth len i lastHash c).1.2 = cs_created c
  ∧ ver_patches (verifyChangeset svc imm vertex depth len i lastHash c).1.2 = cs_patches c.
Proof.
  unfold verifyChangeset. case_bool_decide; [done|].
  destruct (match depth with
            | VerifyAll => true
            | VerifyCurrent => bool_decide (i = (len - 1)%nat)
            | VerifyNone => false
            end); [|done].
  destruct (if Is_stringValue (cs_immutableStorageId c) then _ else _)
    as [[[failure ?] ?] ?].
  by destruct (Is_stringValue failure).
Qed.

(** X15. The verification lists one entry per changeset, in the order of
    the changesets, and each entry carries the epoch and the patches of its
    changeset, whatever the depth and whatever the outcome of the checks. *)
Theorem X15_verification_mirrors_the_changesets (svc : Service)
    (imm : ImmutableStorage) (vertex : IAuditableItemGraphVertex)
    (depth : VerifyDepth) :
  ver_created <$> (verifyChangesets svc imm vertex depth).2
  = cs_created <$> default [] (v_changesets vertex)
  ∧ ver_patches <$> (verifyChangesets svc imm vertex depth).2
    = cs_patches <$> default [] (v_changesets vertex).
Proof.
  assert (Hloop : ∀ changesets len i lastHash verified,
            ver_created <$> (verifyLoop svc imm vertex depth len i lastHash verified
                               changesets).2
            = cs_created <$> changesets
            ∧ ver_patches <$> (verifyLoop svc imm vertex depth len i lastHash verified
                                 changesets).2
              = cs_patches <$> changesets).
  { induction changesets as [|c cs IH]; intros len i lastHash verified; [done|].
    simpl.
    pose proof (verifyChangeset_entry svc imm vertex depth len i lastHash c) as [Hc Hp].
    destruct (verifyChangeset svc imm vertex depth len i lastHash c) as [[h v] failed].
    specialize (IH len (S i) (Some h) (if failed then false else verified)).
    destruct (verifyLoop _ _ _ _ _ _ _ _ cs) as [verified' entries].
    simpl in *. destruct IH as [IHc IHp]. split; f_equal; done. }
  unfold verifyChangesets. destruct (v_changesets vertex) as [[|c cs]|]; try done.
  apply Hloop.
Qed.

Lemma verifyChangeset_hashOnly svc imm vertex depth len i lastHash c :
  match depth with
  | VerifyAll => false
  | VerifyCurrent => negb (bool_decide (i = (len - 1)%nat))
  | VerifyNone => true
  end = true ->
  (verifyChangeset svc imm vertex depth len i lastHash c).1.2 = hashOnlyEntry lastHash c.
Proof.
  intros Hdepth. unfold verifyChangeset, hashOnlyEntry.
  destruct (bool_decide (bytesToBase64 _ ≠ cs_hash c)) eqn:Hne.
  - apply bool_decide_eq_true in Hne. by rewrite bool_decide_eq_false_2 by done.
  - apply bool_decide_eq_false, dec_stable in Hne.
    rewrite (bool_decide_eq_true_2 _ Hne).
    destruct depth; [done| |done].
    apply negb_true_iff in Hdepth. by rewrite Hdepth.
Qed.

(** X16. At depth [current] only the credential of the last changeset is
    consulted: the entry of every earlier changeset says whether the stored
    hash is the recomputed digest and nothing more, so that it is the same
    for any immutable storage and is the entry of a verification without
    credentials; and [verified] is false exactly when the entry of the last
    changeset carries [failureProperties]. *)
Theorem X16_depth_current_consults_the_last_credential (svc : Service)
    (imm imm' : ImmutableStorage) (vertex : IAuditableItemGraphVertex)
    (changesets : list IAuditableItemGraphChangeset) :
  v_changesets vertex = Some changesets ->
  (∀ j c, changesets !! j = Some c -> (S j < length changesets)%nat ->
          (verifyChangesets svc imm vertex VerifyCurrent).2 !! j
          = Some (hashOnlyEntry
                    match j with
                    | O => None
                    | S j' => chainDigests None changesets !! j'
                    end c)
          ∧ (verifyChangesets svc imm vertex VerifyCurrent).2 !! j
            = (verifyChangesets svc imm' vertex VerifyNone).2 !! j)
  ∧ ((verifyChangesets svc imm vertex VerifyCurrent).1 = false
     ↔ ∃ v, last (verifyChangesets svc imm vertex VerifyCurrent).2 = Some v
            ∧ ver_failureProperties v ≠ None).
Proof.
  intros Hcs. split.
  - intros j c Hj Hlt.
    rewrite !(verifyChangesets_lookup _ _ _ _ _ _ _ Hcs Hj).
    rewrite !verifyChangeset_hashOnly; [done|done|].
    apply negb_true_iff, bool_decide_eq_false. lia.
  - rewrite verifyChangesets_verified.
    set (entries := (verifyChangesets svc imm vertex VerifyCurrent).2).
    assert (Hlen : length entries = length changesets).
    { unfold entries. by rewrite verifyChangesets_length, Hcs. }
    assert (Hearly : ∀ j v, entries !! j = Some v -> (S j < length changesets)%nat ->
                            ver_failureProperties v = None).
    { intros j v Hv Hlt.
      destruct (lookup_lt_is_Some_2 changesets j) as [c Hc]; [lia|].
      unfold entries in Hv.
      rewrite (verifyChangesets_lookup _ _ _ _ _ _ _ Hcs Hc) in Hv.
      rewrite verifyChangeset_hashOnly in Hv.
      - by injection Hv as <-.
      - apply negb_true_iff, bool_decide_eq_false. lia. }
    split.
    + intros Hfalse. apply not_true_iff_false in Hfalse.
      rewrite forallb_forall in Hfalse.
      destruct (last entries) as [v|] eqn:Hlast.
      * exists v. split; [done|]. intros Hnone. apply Hfalse.
        intros v' (j & Hv')%list_elem_of_In%list_elem_of_lookup_1.
        destruct (decide (S j < length changesets)%nat) as [Hlt|Hge].
        { by rewrite (Hearly _ _ Hv' Hlt). }
        rewrite last_lookup in Hlast.
        assert (j = pred (length entries)) as ->.
        { apply lookup_lt_Some in Hv'. lia. }
        assert (v' = v) as -> by congruence. by rewrite Hnone.
      * apply last_None in Hlast. exfalso. apply Hfalse. by rewrite Hlast.
    + intros (v & Hlast & Hprops). apply not_true_iff_false.
      rewrite forallb_forall. intros Hall. apply Hprops.
      rewrite last_lookup in Hlast.
      apply list_elem_of_lookup_2, list_elem_of_In, Hall in Hlast.
      by destruct (ver_failureProperties v).
Qed.
End VerificationEntries.

Section VerifyAfterUpdate.
Context `{Collaborators}.

Lemma last_chainDigests previous changesets c :
  last changesets = Some c ->
  last (chainDigests previous changesets)
  = Some (changesetDigest
            match pred (length changesets) with
            | O => previous
            | S j => chainDigests previous changesets !! j
            end
            (cs_created c) (cs_userIdentity c) (cs_patches c)).
Proof.
  intros Hlast. rewrite last_lookup in Hlast. rewrite last_lookup.
  rewrite length_chainDigests. by apply chainDigests_lookup.
Qed.

(** X17. A vertex that [update] has just extended verifies at depth
    [current]: in a world the service can reach, when the call is made with
    the node identity of the vertex and writes a changeset, and the
    credential stored for that changeset reads back as it was issued, [get]
    reports [verified = true] and one entry without a failure for each
    changeset.  The hashes of the earlier changesets are recomputed along
    the chain; their credentials are not consulted. *)
Theorem X17_updated_vertex_verifies_at_depth_current (svc : Service) (w w' : World)
    (now : N) (id user nodeId vertexId : string)
    (metadataSchema : option string) (metadata : option Json)
    (aliases resources : option (list ElementInput))
    (edges : option (list EdgeInput)) (incDeleted incChangesets : option bool)
    (e e' : AuditableItemGraphVertex) :
  (∀ k b, vault_decrypt k (vault_encrypt k b) = b) ->
  (∀ b, base64ToBytes (bytesToBase64 b) = b) ->
  reachable svc w ->
  update svc w now id metadataSchema metadata aliases resources edges
         (Some user) (Some nodeId) = Ok w' ->
  vertexIdOfUrn id = Ok vertexId ->
  _vertexStorage w !! vertexId = Some e ->
  _vertexStorage w' !! vertexId = Some e' ->
  e_nodeIdentity e = nodeId ->
  e_changesets e' ≠ e_changesets e ->
  (∀ c sid digest,
     last (default [] (e_changesets e')) = Some c ->
     cs_immutableStorageId c = Some sid ->
     last (chainDigests None (default [] (e_changesets e'))) = Some digest ->
     checkVerifiableCredential
       (bytesToUtf8 (imm_get (_integrityImmutableStorage w') sid))
     = (false,
        Some (credentialData svc (mkContext now user nodeId) (cs_patches c) digest))) ->
  ∃ r,
    get svc w' id (Some (mkGetOptions incDeleted incChangesets (Some VerifyCurrent)))
    = Ok r
    ∧ verified r = Some true
    ∧ verification r
      = Some ((fun c => mkVerification (cs_created c) (cs_patches c) None None)
                <$> default [] (e_changesets e')).
Proof.
  intros Hvault Hb64 Hreach Hu Hvid He He' Hnode Hwritten Hissued.
  assert (Hreach' : reachable svc w') by (by eapply reachable_update).
  pose proof (reachable_chainValid svc w' _ _ Hb64 Hreach' He') as Hchain.
  pose proof (reachable_wellKeyed _ _ Hreach) as Hkeys.
  assert (Hid : id ≠ "").
  { unfold update in Hu. invert_bind Hu as id' Hid'.
    by apply Guards_stringValue_Ok in Hid' as [[= <-] ?]. }
  apply update_inv in Hu
    as (vid & e0 & ? & ? & reconciled & [= <-] & [= <-] & Hvid' & He0 & Hrec & Hw).
  assert (vid = vertexId) as -> by congruence.
  assert (e0 = e) as -> by congruence.
  destruct Hw as [[_ ->] | [Hch Hw]]; [congruence|].
  rewrite (addChangeset_changed _ _ _ _ _ Hch) in Hw. simpl in Hw.
  apply reconcile_inv in Hrec as (al & rl & el & _ & _ & _ & ->).
  assert (Hlastc : ∃ c, last (default [] (e_changesets e')) = Some c
                        ∧ cs_created c = now ∧ cs_userIdentity c = user
                        ∧ e_nodeIdentity e' = nodeId).
  { subst w'. simpl in He'. rewrite (Hkeys _ _ He), lookup_insert_eq in He'.
    injection He' as <-. simpl. rewrite copyArray_snoc. simpl.
    eexists. split; [apply last_snoc|]. done. }
  destruct Hlastc as (cl & Hlast & Hcreated & Huser & Hnode').
  clear Hw Hch.
  destruct (get_verify svc w' id incDeleted incChangesets VerifyCurrent vertexId e'
              Hid Hvid He' ltac:(done)) as (r & Hget & Hverified & Hverification).
  exists r. split; [done|].
  set (changesets := default [] (e_changesets e')) in *.
  assert (Hcs : v_changesets (vertexEntityToModel e') = Some changesets).
  { simpl. unfold changesets. destruct (e_changesets e') as [[|c cs]|] eqn:Hec; try done.
    unfold copyArray. simpl. by rewrite list_fmap_id. }
  assert (Hentries : (verifyChangesets svc (_integrityImmutableStorage w')
                        (vertexEntityToModel e') VerifyCurrent).2
                     = (fun c => mkVerification (cs_created c) (cs_patches c) None None)
                         <$> changesets).
  { apply list_eq. intros j. rewrite list_lookup_fmap.
    destruct (changesets !! j) as [c|] eqn:Hj; simpl.
    2:{ apply lookup_ge_None. rewrite verifyChangesets_length, Hcs. simpl.
        by apply lookup_ge_None. }
    rewrite (verifyChangesets_lookup _ _ _ _ _ _ _ Hcs Hj). f_equal.
    pose proof (chainValid_lookup _ _ _ Hchain Hj) as Hhash.
    destruct (decide (j = pred (length changesets))) as [->|Hearly].
    - rewrite verifyChangeset_clean; [done|done|]. intros Hattached.
      rewrite last_lookup in Hlast. assert (c = cl) as -> by congruence.
      destruct (cs_immutableStorageId cl) as [sid|] eqn:Hsid; [|done].
      apply (checkCredential_issued svc (_integrityImmutableStorage w')
               (vertexEntityToModel e') (mkContext now user nodeId) cl sid);
        try done.
      apply Hissued; [by rewrite last_lookup|done|].
      rewrite (last_chainDigests _ _ cl) by by rewrite last_lookup.
      done.
    - rewrite verifyChangeset_hashOnly.
      + unfold hashOnlyEntry. by rewrite bool_decide_eq_true_2.
      + apply negb_true_iff, bool_decide_eq_false. lia. }
  rewrite Hverified, Hverification, verifyChangesets_verified, Hentries.
  split; [|done]. f_equal. apply forallb_forall.
  by intros v (c & -> & _)%list_elem_of_In%list_elem_of_fmap.
Qed.
End VerifyAfterUpdate.

(** ** query *)

Section QueryFacts.
Context `{Collaborators}.

Lemma append_nil_r (s : string) : s +:+ "" = s.
Proof.
  induction s as [|c s IH]; [done|].
  change (String c s +:+ "") with (String c (s +:+ "")). by rewrite IH.
Qed.

Lemma append_assoc (s t u : string) : (s +:+ t) +:+ u = s +:+ (t +:+ u).
Proof.
  induction s as [|c s IH]; [done|].
  change ((String c s +:+ t) +:+ u) with (String c ((s +:+ t) +:+ u)).
  by rewrite IH.
Qed.

Lemma includesString_refl (s : string) : includesString s s.
Proof. exists "", "". by rewrite append_nil_r. Qed.

Lemma includesString_append_l (s t needle : string) :
  includesString s needle -> includesString (s +:+ t) needle.
Proof.
  intros (before & after & ->). exists before, (after +:+ t).
  by rewrite !append_assoc.
Qed.

Lemma includesString_append_r (s t needle : string) :
  includesString t needle -> includesString (s +:+ t) needle.
Proof.
  intros (before & after & ->). exists (s +:+ before), after.
  by rewrite !append_assoc.
Qed.

(** [join] keeps every item in one piece. *)
Lemma join_includes (sep : string) (l : list string) (x : string) :
  x ∈ l -> includesString (join sep l) x.
Proof.
  induction l as [|y l IH]; [by intros ?%elem_of_nil|].
  intros [->|Hin]%elem_of_cons.
  - destruct l as [|z l]; simpl; [apply includesString_refl|].
    apply includesString_append_l, includesString_refl.
  - destruct l as [|z l]; [by apply elem_of_nil in Hin|].
    change (join sep (y :: z :: l)) with (y +:+ sep +:+ join sep (z :: l)).
    by apply includesString_append_r, includesString_append_r, IH.
Qed.

(** X18. Whatever the entity storage, [query] makes one request and maps
    the entities of the answer to models, keeping the cursor, the page size
    and the total.  The request always asks for the [id]: it is put in
    front of the properties asked for when it is not among them.  It sorts
    by one property, [created] in descending order unless told otherwise.
    It carries no condition unless a non-empty id is given; its conditions,
    one or two, are joined by [or], compare with [includes], and look at
    the [id] or at the [aliasIndex]. *)
Theorem X18_query_request (w : World) (options : option QueryOptions)
    (orderBy : option OrderBy) (orderByDirection : option SortDirection)
    (properties : option (list string)) (cursor : option string)
    (pageSize : option N) :
  ∃ request,
    (∀ vertexStorageQuery,
       query vertexStorageQuery w options orderBy orderByDirection properties
             cursor pageSize
       = let results := vertexStorageQuery (_vertexStorage w) request in
         {| qr_entities := partialEntityToModel <$> sr_entities results;
            qr_cursor := sr_cursor results;
            qr_pageSize := sr_pageSize results;
            qr_totalEntities := sr_totalEntities results |})
    ∧ (let requested := default ["id"; "created"; "aliases"; "metadata"] properties in
       "id" ∈ sq_properties request
       ∧ (sq_properties request = requested
          ∨ (("id" ∉ requested) ∧ sq_properties request = "id" :: requested)))
    ∧ sq_sortProperties request
      = [mkSortProperty (orderByKey (default OrderByCreated orderBy))
                        (default Descending orderByDirection)]
    ∧ sq_cursor request = cursor
    ∧ sq_pageSize request = pageSize
    ∧ (sq_conditions request = None ↔ Is_stringValue (options ≫= q_id) = false)
    ∧ (∀ conditions, sq_conditions request = Some conditions ->
         ec_logicalOperator conditions = LogicalOr
         ∧ (0 < length (ec_conditions conditions) <= 2)%nat
         ∧ ∀ c, c ∈ ec_conditions conditions ->
                cond_comparison c = Includes
                ∧ (cond_property c = "id" ∨ cond_property c = "aliasIndex")).
Proof.
  eexists. split; [intros vertexStorageQuery; unfold query; reflexivity|].
  cbn [sq_properties sq_sortProperties sq_cursor sq_pageSize sq_conditions].
  split; [|split; [done|split; [done|split; [done|split]]]].
  - case_bool_decide as Hin; [by split; [|left]|]. split; [left|by right].
  - destruct (Is_stringValue (options ≫= q_id)); [|done].
    destruct (default IdModeBoth (options ≫= q_idMode)); simpl; by split.
  - intros conditions.
    destruct (Is_stringValue (options ≫= q_id)); [|done].
    destruct (default IdModeBoth (options ≫= q_idMode)); simpl;
      intros [= <-]; simpl; (split; [done|]); (split; [lia|]); intros c Hc;
      repeat (apply elem_of_cons in Hc as [->|Hc]; [by eauto|]);
      by apply elem_of_nil in Hc.
Qed.

(** Lower-casing the joined alias ids is joining the lower-cased ids, as
    soon as lower-casing does not look across the separator. *)
Lemma toLowerCase_join (l : list string) :
  (∀ s t, toLowerCase (s +:+ "||" +:+ t) = toLowerCase s +:+ "||" +:+ toLowerCase t) ->
  l ≠ [] ->
  toLowerCase (join "||" l) = join "||" (toLowerCase <$> l).
Proof.
  intros Hlower. induction l as [|x l IH]; [done|]. intros _.
  destruct l as [|y l]; [done|].
  change (join "||" (x :: y :: l)) with (x +:+ "||" +:+ join "||" (y :: l)).
  rewrite Hlower, IH by done. done.
Qed.

(** X19. Looking a vertex up by alias is insensitive to letter case and
    also finds soft-deleted aliases: in every world the service can reach,
    for a stored vertex and any of its aliases, deleted or not, a query by
    alias (or by both) for a string equal to the alias id up to letter case
    asks the storage for the entities whose [aliasIndex] includes a string
    that the stored [aliasIndex] of the vertex does include.  What is
    assumed of [toLowerCase] is that it does not look across the separator
    of the index: lower-casing [s || t] gives the lower-cased [s], the
    separator and the lower-cased [t].  (The one rule of
    [String.prototype.toLowerCase] that reads the neighbours of a letter,
    the final sigma, looks past case-ignorable characters only, and the
    vertical bar is neither a cased letter nor case-ignorable.) *)
Theorem X19_query_by_alias_matches_the_alias_index (svc : Service) (w : World)
    (k needle : string) (e : AuditableItemGraphVertex) (a : AuditableItemGraphAlias)
    (idMode : option IdMode) (orderBy : option OrderBy)
    (orderByDirection : option SortDirection) (properties : option (list string))
    (cursor : option string) (pageSize : option N) :
  (∀ s t, toLowerCase (s +:+ "||" +:+ t) = toLowerCase s +:+ "||" +:+ toLowerCase t) ->
  reachable svc w ->
  _vertexStorage w !! k = Some e ->
  a ∈ default [] (e_aliases e) ->
  needle ≠ "" ->
  toLowerCase needle = toLowerCase (ae_id a) ->
  idMode ≠ Some IdModeId ->
  ∃ request conditions c index,
    (∀ vertexStorageQuery,
       query vertexStorageQuery w (Some (mkQueryOptions (Some needle) idMode))
             orderBy orderByDirection properties cursor pageSize
       = let results := vertexStorageQuery (_vertexStorage w) request in
         {| qr_entities := partialEntityToModel <$> sr_entities results;
            qr_cursor := sr_cursor results;
            qr_pageSize := sr_pageSize results;
            qr_totalEntities := sr_totalEntities results |})
    ∧ sq_conditions request = Some conditions
    ∧ c ∈ ec_conditions conditions
    ∧ cond_property c = "aliasIndex"
    ∧ cond_comparison c = Includes
    ∧ e_aliasIndex e = Some index
    ∧ includesString index (cond_value c).
Proof.
  intros Hlower Hreach Hk Ha Hneedle Hcase Hmode.
  destruct (reachable_stored_shape _ _ _ _ Hreach Hk) as (_ & _ & _ & _ & Hidx).
  destruct (e_aliases e) as [[|a0 l]|] eqn:Hal;
    [by apply elem_of_nil in Ha| |by apply elem_of_nil in Ha].
  simpl in Ha, Hidx.
  assert (Hincl : includesString (toLowerCase (join "||" (ae_id <$> a0 :: l)))
                                 (toLowerCase needle)).
  { rewrite Hcase, (toLowerCase_join _ Hlower) by done.
    apply join_includes. rewrite <- list_fmap_compose.
    by apply (list_elem_of_fmap_2 (toLowerCase ∘ ae_id)). }
  eexists. exists (mkConditions
                     (match default IdModeBoth idMode with
                      | IdModeId | IdModeBoth => [mkCondition "id" Includes needle]
                      | IdModeAlias => []
                      end
                      ++ [mkCondition "aliasIndex" Includes (toLowerCase needle)])
                     LogicalOr),
    (mkCondition "aliasIndex" Includes (toLowerCase needle)). eexists.
  split; [intros vertexStorageQuery; unfold query; reflexivity|].
  cbn [sq_conditions]. simpl.
  rewrite (bool_decide_eq_true_2 (needle ≠ "") Hneedle).
  split.
  - destruct idMode as [[]|]; try done.
  - split; [apply elem_of_app; right; left|]. do 2 (split; [done|]).
    split; [exact Hidx|done].
Qed.
End QueryFacts.

(** ** The REST route of get *)

Section RouteFacts.
Context `{Collaborators}.

(** [get] reads its options member by member. *)
Lemma get_options_members svc w id options :
  get svc w id (Some {| includeDeleted := options ≫= includeDeleted;
                        includeChangesets := options ≫= includeChangesets;
                        verifySignatureDepth := options ≫= verifySignatureDepth |})
  = get svc w id options.
Proof. by destruct options. Qed.

(** X20. Behind the route the service sees the request unchanged: for a
    request with a non-empty id among its path parameters, the route
    answers what [get] of the service answers for that id and for the query
    parameters of the request (the object the route builds from their
    members reads the same), wrapped in a body.  And the route never hands
    an empty id to the component: whatever the request, its answer depends
    on the component only through what the component answers for non-empty
    ids. *)
Theorem X20_route_get_is_service_get (svc : Service) (w : World)
    (request : IAuditableItemGraphGetRequest) (params : GetRequestPathParams)
    (id : string) :
  pathParams request = Some params ->
  pp_id params = Some id ->
  id ≠ "" ->
  auditableItemGraphGet (get svc w) (Some request)
  = (result ← get svc w id (queryParams request); Ok {| body := result |})
  ∧ ∀ component_get component_get' anyRequest,
      (∀ x options, x ≠ "" -> component_get x options = component_get' x options) ->
      auditableItemGraphGet component_get anyRequest
      = auditableItemGraphGet component_get' anyRequest.
Proof.
  intros Hparams Hid Hne. split.
  - unfold auditableItemGraphGet. simpl. rewrite Hparams. simpl. rewrite Hid.
    rewrite Guards_stringValue_pass by done. simpl.
    by rewrite get_options_members.
  - intros component_get component_get' [r|] Hsame;
      unfold auditableItemGraphGet; simpl; [|done].
    destruct (pathParams r) as [pp|]; simpl; [|done].
    destruct (Guards_stringValue "request.pathParams.id" (pp_id pp)) as [x|e1] eqn:Hg;
      simpl; [|done].
    apply Guards_stringValue_Ok in Hg as [_ Hx]. by rewrite Hsame.
Qed.
End RouteFacts.

(** ** The failures a verification reports *)

Section VerificationFailures.
Context `{Collaborators}.

Lemma checkCredential_failures svc imm vertex c signature sid :
  let failure := (checkCredential svc imm vertex c signature sid).1.1.1 in
  failure = None ∨ ∃ f, failure = Some f ∧ f ∈ credentialFailures.
Proof.
  unfold checkCredential, credentialFailures.
  destruct (checkVerifiableCredential _).1; simpl.
  { right. eexists. split; [done|]. repeat constructor. }
  case_bool_decide; simpl.
  { right. eexists. split; [done|]. repeat constructor. }
  destruct (Is_stringValue _); simpl; [|by left].
  case_bool_decide; [|by left].
  right. eexists. split; [done|]. repeat constructor.
Qed.

(** X21. A verification reports nothing but five outcomes for a changeset:
    no failure, [invalidChangesetHash], or one of the three failures of the
    credential check.  The first two carry no [failureProperties]; the
    three others always do, with the stored hash, the epoch and the
    changeset they were found on. *)
Theorem X21_verification_outcomes (svc : Service) (imm : ImmutableStorage)
    (vertex : IAuditableItemGraphVertex) (depth : VerifyDepth) (v : Verification) :
  v ∈ (verifyChangesets svc imm vertex depth).2 ->
  (ver_failure v = None ∧ ver_failureProperties v = None)
  ∨ (ver_failure v = Some "invalidChangesetHash" ∧ ver_failureProperties v = None)
  ∨ (∃ f properties,
       ver_failure v = Some f ∧ f ∈ credentialFailures
       ∧ ver_failureProperties v = Some properties
       ∧ fp_epoch properties = ver_created v
       ∧ cs_created (fp_calculatedChangeset properties) = ver_created v
       ∧ cs_patches (fp_calculatedChangeset properties) = ver_patches v
       ∧ fp_hash properties = cs_hash (fp_calculatedChangeset properties)).
Proof.
  intros (len & i & lastHash & c & ->)%verifyChangesets_entries.
  unfold verifyChangeset. case_bool_decide; [right; by left|].
  destruct (match depth with
            | VerifyAll => true
            | VerifyCurrent => bool_decide (i = (len - 1)%nat)
            | VerifyNone => false
            end); [|by left].
  destruct (Is_stringValue (cs_immutableStorageId c)); [|by left].
  pose proof (checkCredential_failures svc imm vertex c
                (vault_sign (v_nodeIdentity vertex +:+ "/" +:+ _vaultKeyId svc)
                   (changesetDigest lastHash (cs_created c) (cs_userIdentity c)
                      (cs_patches c)))
                (default "" (cs_immutableStorageId c))) as Hf.
  destruct (checkCredential _ _ _ _ _ _) as [[[failure p] n] u]. simpl in Hf.
  destruct Hf as [-> | (f & -> & Hf)]; [by left|].
  assert (Hne : f ≠ "").
  { unfold credentialFailures in Hf.
    repeat (apply elem_of_cons in Hf as [->|Hf]; [done|]). by apply elem_of_nil in Hf. }
  simpl. rewrite (bool_decide_eq_true_2 _ Hne). simpl.
  right. right. eexists _, _. repeat split; done.
Qed.
End VerificationFailures.

(** ** Names of the stored elements *)

Section ReconcilerPredicates.
Context {E U : Type} `{Reconcilable E U}.

(** A property of the elements that the assignments of a reconciler keep,
    and that holds of the elements it pushes. *)
Lemma updateList_Forall (Q : E -> Prop) (now : N) (elems elems' : option (list E))
    (upd : option (list U)) :
  (∀ n e, Q e -> Q (elem_markDeleted n e)) ->
  (∀ n u e, input_guard u = Ok () -> Q e -> Q (elem_write n u e)) ->
  (∀ n u, input_guard u = Ok () -> Q (elem_new n u)) ->
  Forall Q (default [] elems) ->
  updateList now elems upd = Ok elems' ->
  Forall Q (default [] elems').
Proof.
  intros Hmark Hwrite Hnew Hall Hupd.
  assert (Hall1 : Forall Q (default [] (tombstoneMissing now elems upd))).
  { unfold tombstoneMissing. destruct elems as [l|]; simpl in *; [|done].
    apply Forall_fmap. eapply Forall_impl; [done|].
    intros e He. simpl. unfold markMissing. case_match; auto. }
  assert (Hloop : ∀ l elems1 elems2,
            Forall Q (default [] elems1) ->
            forEachM (updateElement now) elems1 l = Ok elems2 ->
            Forall Q (default [] elems2)).
  { induction l as [|u l IH]; intros elems1 elems2 Hq; simpl.
    - by intros [= <-].
    - destruct (updateElement now elems1 u) as [elems3|] eqn:Hu; simpl; [|discriminate].
      apply IH.
      apply updateElement_inv in Hu
        as (Hg & [(j & existing & Hj & _ & _ & [-> | ->]) | ->]); [done| |]; simpl.
      + apply Forall_insert; [done|]. apply Hwrite; [done|].
        rewrite Forall_lookup in Hq. by eapply Hq.
      + apply Forall_app. split; [done|]. constructor; [by apply Hnew|constructor]. }
  unfold updateList in Hupd. destruct (Is_arrayValue upd).
  - by eapply Hloop.
  - by injection Hupd as <-.
Qed.
End ReconcilerPredicates.

Section NamedElements.
Context `{Collaborators}.

Lemma alias_guard_Ok (u : ElementInput) :
  input_guard (E := IAuditableItemGraphAlias) u = Ok () ↔ in_id u ≠ "".
Proof.
  simpl. unfold Guards_stringValue. case_bool_decide; simpl; split; done.
Qed.

Lemma resource_guard_Ok (u : ElementInput) :
  input_guard (E := IAuditableItemGraphResource) u = Ok () ↔ in_id u ≠ "".
Proof.
  simpl. unfold Guards_stringValue. case_bool_decide; simpl; split; done.
Qed.

Lemma edge_guard_Ok (u : EdgeInput) :
  input_guard (E := IAuditableItemGraphEdge) u = Ok ()
  ↔ ein_id u ≠ "" ∧ ein_relationship u ≠ "".
Proof.
  simpl. unfold Guards_stringValue.
  repeat (case_bool_decide; simpl); split; try done; by intros [? ?].
Qed.

(** The entity written from a reconciled model whose elements are named. *)
Lemma namedElements_reconciled context v metadataSchema metadata aliases resources edges
    v' written :
  Forall (fun a => alias_id a ≠ "") (default [] (v_aliases v)) ->
  Forall (fun r => resource_id r ≠ "") (default [] (v_resources v)) ->
  Forall (fun x => edge_id x ≠ "" ∧ edge_relationship x ≠ "") (default [] (v_edges v)) ->
  reconcile context v metadataSchema metadata aliases resources edges = Ok v' ->
  v_aliases written = v_aliases v' ->
  v_resources written = v_resources v' ->
  v_edges written = v_edges v' ->
  namedElements (vertexModelToEntity written).
Proof.
  intros Ha Hr He (al & rl & el & Hal & Hrl & Hel & ->)%reconcile_inv Hwa Hwr Hwe.
  simpl in Hwa, Hwr, Hwe. unfold namedElements. simpl. rewrite Hwa, Hwr, Hwe.
  rewrite !default_copyArray. split; [|split]; apply Forall_fmap.
  - eapply (updateList_Forall (fun a => alias_id a ≠ "")); [..|exact Ha|exact Hal]; try done.
    intros n u Hg. by apply alias_guard_Ok.
  - eapply (updateList_Forall (fun r => resource_id r ≠ ""));
      [..|exact Hr|exact Hrl]; try done.
    intros n u Hg. by apply resource_guard_Ok.
  - eapply (updateList_Forall (fun x => edge_id x ≠ "" ∧ edge_relationship x ≠ ""));
      [..|exact He|exact Hel]; try done.
    + intros n u e Hg [Hid _]. apply edge_guard_Ok in Hg as [_ Hrel]. done.
    + intros n u Hg. by apply edge_guard_Ok.
Qed.

Lemma namedElements_model e :
  namedElements e ->
  Forall (fun a => alias_id a ≠ "") (default [] (v_aliases (vertexEntityToModel e)))
  ∧ Forall (fun r => resource_id r ≠ "")
           (default [] (v_resources (vertexEntityToModel e)))
  ∧ Forall (fun x => edge_id x ≠ "" ∧ edge_relationship x ≠ "")
           (default [] (v_edges (vertexEntityToModel e))).
Proof.
  intros (Ha & Hr & He). simpl. rewrite !default_copyArray.
  split; [|split]; by apply Forall_fmap.
Qed.

(** The names of the stored elements. *)
Lemma reachable_namedElements (svc : Service) (w : World)
    (k : string) (e : AuditableItemGraphVertex) :
  reachable svc w ->
  _vertexStorage w !! k = Some e ->
  namedElements e.
Proof.
  intros Hreach. revert k e.
  induction Hreach as [imm
    | w now xid ms m al rl el identity nodeIdentity w' urn _ IH Hc
    | w now xid ms m al rl el identity nodeIdentity w' _ IH Hu
    | w xid nodeIdentity w' _ IH Hr]; intros k e Hk.
  - simpl in Hk. by rewrite lookup_empty in Hk.
  - apply create_inv in Hc as (user & nodeId & reconciled & _ & _ & Hrec & -> & Hch & _).
    simpl in Hk. rewrite lookup_insert in Hk. case_decide; [|by eapply IH].
    injection Hk as <-. rewrite (addChangeset_changed _ _ _ _ _ Hch). simpl.
    eapply namedElements_reconciled; [..|exact Hrec| | |]; done.
  - apply update_inv in Hu
      as (vid & e0 & user & nodeId & reconciled & _ & _ & _ & He0 & Hrec & Hw).
    destruct Hw as [[_ ->] | [Hch ->]]; [by eapply IH|].
    simpl in Hk. rewrite lookup_insert in Hk. case_decide; [|by eapply IH].
    injection Hk as <-. rewrite (addChangeset_changed _ _ _ _ _ Hch). simpl.
    destruct (namedElements_model e0 (IH _ _ He0)) as (Ha & Hr & He).
    eapply namedElements_reconciled; [exact Ha|exact Hr|exact He|exact Hrec| | |]; done.
  - apply removeImmutable_inv in Hr as (vid & e0 & nodeId & _ & _ & He0 & Hw).
    simpl in Hw. destruct Hw as [[_ ->] | [_ ->]]; [by eapply IH|].
    simpl in Hk. rewrite lookup_insert in Hk. case_decide; [|by eapply IH].
    injection Hk as <-. by apply (IH _ _ He0).
Qed.

(** X22. The guards of the reconcilers make an invariant: in every world
    the service can reach, each stored alias, resource and edge has a
    non-empty id, and each stored edge a non-empty relationship. *)
Theorem X22_stored_elements_are_named (svc : Service) (w : World)
    (k : string) (e : AuditableItemGraphVertex) :
  reachable svc w ->
  _vertexStorage w !! k = Some e ->
  namedElements e.
Proof. apply reachable_namedElements. Qed.
End NamedElements.

(** ** Feeding back what get returned *)

Section ReconcilerFixpoint.
Context {E U : Type} `{Reconcilable E U}.

(** A reconciler leaves a collection with distinct ids as it is when the
    update list names every element without a [deleted], and each of its
    items names such an element from which it does not differ. *)
Lemma updateList_noop (now : N) (elems : option (list E)) (upd : option (list U)) :
  NoDup (idsOf elems) ->
  (∀ e, e ∈ default [] elems -> elem_deleted e = None ->
        inUpdateList upd (elem_id e) = true) ->
  (∀ u, u ∈ default [] upd ->
        input_guard u = Ok ()
        ∧ ∃ e, e ∈ default [] elems ∧ elem_id e = input_id u
               ∧ elem_deleted e = None ∧ elem_differs e u = false) ->
  updateList now elems upd = Ok elems.
Proof.
  intros Hnd Hlive Hitems.
  assert (Htomb : tombstoneMissing now elems upd = elems).
  { unfold tombstoneMissing. destruct elems as [l|]; simpl in *; [|done].
    f_equal. rewrite <- (list_fmap_id l) at 2. apply list_fmap_ext.
    intros i e Hi. unfold markMissing.
    destruct (elem_deleted e) as [d|] eqn:Hd; simpl; [done|].
    rewrite Hlive; [done| |done]. by eapply list_elem_of_lookup_2. }
  assert (Hstep : ∀ u, u ∈ default [] upd -> updateElement now elems u = Ok elems).
  { intros u (Hg & e & (i & Hi)%list_elem_of_lookup_1 & Hid & Hd & Hsame)%Hitems.
    unfold updateElement. rewrite Hg. simpl.
    destruct (list_find _ _) as [[j e0]|] eqn:Hfind.
    - apply list_find_Some in Hfind as (Hj & Hid0 & _).
      assert (j = i) as ->.
      { eapply (NoDup_lookup _ _ _ _ Hnd); unfold idsOf;
          rewrite list_lookup_fmap; [by rewrite Hj|]. rewrite Hi. simpl. congruence. }
      assert (e0 = e) as -> by congruence.
      by rewrite Hd, Hsame.
    - apply list_find_None in Hfind. rewrite Forall_forall in Hfind.
      destruct (Hfind e); [by eapply list_elem_of_lookup_2|done]. }
  unfold updateList. rewrite Htomb.
  destruct (Is_arrayValue upd); [|done].
  clear Hitems Hlive Htomb. revert Hstep.
  induction (default [] upd) as [|u l IH]; intros Hstep; [done|].
  simpl. rewrite Hstep by left. simpl. apply IH.
  intros u' Hu'. apply Hstep. by right.
Qed.
End ReconcilerFixpoint.

Section FeedBack.
Context {E U : Type} `{Reconcilable E U}.
Variable toInput : E -> U.
Hypothesis id_toInput : ∀ e, input_id (toInput e) = elem_id e.
Hypothesis same_toInput : ∀ e, elem_differs e (toInput e) = false.

Lemma dropDeleted_elem_of_iff {A} (deleted : A -> option N) (xs : option (list A))
    (a : A) :
  a ∈ default [] (dropDeleted deleted xs) ↔ a ∈ default [] xs ∧ deleted a = None.
Proof.
  unfold dropDeleted. destruct (Is_arrayValue xs) eqn:Harr.
  - set (live := List.filter (fun a => Is_undefined (deleted a)) (default [] xs)).
    assert (Hfilter : ∀ b, b ∈ live ↔ b ∈ default [] xs ∧ deleted b = None).
    { intros b. unfold live. rewrite list_elem_of_In, filter_In, <- list_elem_of_In.
      unfold Is_undefined. destruct (deleted b); split; intros [? ?]; done. }
    case_bool_decide as Hlen; [|apply Hfilter].
    apply length_zero_iff_nil in Hlen. split; [by intros ?%elem_of_nil|].
    intros Ha%Hfilter. rewrite Hlen in Ha. by apply elem_of_nil in Ha.
  - destruct xs as [[|x l]|]; try discriminate;
      (split; [by intros ?%elem_of_nil|by intros [?%elem_of_nil _]]).
Qed.

(** The live elements of a collection, passed as its update list, leave it
    as it is. *)
Lemma updateList_feedback (now : N) (elems : option (list E)) :
  NoDup (idsOf elems) ->
  Forall (fun e => input_guard (toInput e) = Ok ()) (default [] elems) ->
  updateList now elems (inputsOf toInput (dropDeleted elem_deleted elems))
  = Ok elems.
Proof.
  intros Hnd Hguards.
  assert (Hupd : ∀ u,
            u ∈ default [] (inputsOf toInput (dropDeleted elem_deleted elems))
            ↔ ∃ e, u = toInput e ∧ e ∈ default [] elems ∧ elem_deleted e = None).
  { intros u. unfold inputsOf.
    destruct (dropDeleted elem_deleted elems) as [l|] eqn:Hl; simpl.
    - rewrite list_elem_of_fmap. split; intros (e & -> & He); exists e; (split; [done|]).
      + apply (dropDeleted_elem_of_iff elem_deleted elems). by rewrite Hl.
      + apply (dropDeleted_elem_of_iff elem_deleted elems) in He. by rewrite Hl in He.
    - split; [by intros ?%elem_of_nil|]. intros (e & -> & He).
      apply (dropDeleted_elem_of_iff elem_deleted elems) in He. rewrite Hl in He.
      by apply elem_of_nil in He. }
  apply updateList_noop; [done| |].
  - intros e He Hd. rewrite <- id_toInput. apply inUpdateList_true, Hupd. eauto.
  - intros u (e & -> & He & Hd)%Hupd. split.
    + rewrite Forall_forall in Hguards. by apply Hguards.
    + exists e. by rewrite id_toInput.
Qed.
End FeedBack.

Section FeedBackToUpdate.
Context `{Collaborators}.

Lemma bool_decide_ne_refl {A} `{EqDecision A} (x : A) : bool_decide (x ≠ x) = false.
Proof. by apply bool_decide_eq_false_2; intros ?. Qed.

(** The reconcilers on the live elements of the vertex itself. *)
Lemma reconcile_feedback context v :
  NoDup (idsOf (v_aliases v)) ->
  NoDup (idsOf (v_resources v)) ->
  NoDup (idsOf (v_edges v)) ->
  Forall (fun a => alias_id a ≠ "") (default [] (v_aliases v)) ->
  Forall (fun r => resource_id r ≠ "") (default [] (v_resources v)) ->
  Forall (fun x => edge_id x ≠ "" ∧ edge_relationship x ≠ "") (default [] (v_edges v)) ->
  reconcile context v (v_metadataSchema v) (v_metadata v)
            (inputsOf aliasInput (dropDeleted alias_deleted (v_aliases v)))
            (inputsOf resourceInput (dropDeleted resource_deleted (v_resources v)))
            (inputsOf edgeInput (dropDeleted edge_deleted (v_edges v)))
  = Ok v.
Proof.
  intros Hna Hnr Hne Hnamed_a Hnamed_r Hnamed_e.
  assert (Hua : updateList (now context) (v_aliases v)
                  (inputsOf aliasInput (dropDeleted alias_deleted (v_aliases v)))
                = Ok (v_aliases v)).
  { apply (@updateList_feedback _ _ aliasReconcilable aliasInput (fun _ => eq_refl));
      [|done|].
    - intros x. simpl. by rewrite !bool_decide_ne_refl.
    - eapply Forall_impl; [exact Hnamed_a|]. intros x Hx.
      by apply (alias_guard_Ok (aliasInput x)). }
  assert (Hur : updateList (now context) (v_resources v)
                  (inputsOf resourceInput
                     (dropDeleted resource_deleted (v_resources v)))
                = Ok (v_resources v)).
  { apply (@updateList_feedback _ _ resourceReconcilable resourceInput
             (fun _ => eq_refl)); [|done|].
    - intros x. simpl. by rewrite !bool_decide_ne_refl.
    - eapply Forall_impl; [exact Hnamed_r|]. intros x Hx.
      by apply (resource_guard_Ok (resourceInput x)). }
  assert (Hue : updateList (now context) (v_edges v)
                  (inputsOf edgeInput (dropDeleted edge_deleted (v_edges v)))
                = Ok (v_edges v)).
  { apply (@updateList_feedback _ _ edgeReconcilable edgeInput (fun _ => eq_refl));
      [|done|].
    - intros x. simpl. by rewrite !bool_decide_ne_refl.
    - eapply Forall_impl; [exact Hnamed_e|]. intros x Hx.
      by apply (edge_guard_Ok (edgeInput x)). }
  destruct v as [vid vnode vc vu vms vm al rl el cl].
  cbn [v_aliases v_resources v_edges v_metadataSchema v_metadata] in *.
  unfold reconcile.
  rewrite updateAliasList_updateList. simpl. rewrite Hua. simpl.
  rewrite updateResourceList_updateList. simpl. rewrite Hur. simpl.
  rewrite updateEdgeList_updateList. simpl. rewrite Hue. reflexivity.
Qed.

(** X23. Feeding back what [get] returned changes nothing: in a world the
    service can reach, for a vertex whose ids are distinct within each
    collection, an [update] with the metadata and the aliases, resources and
    edges of the vertex that [get] returns (without the deleted elements)
    tombstones nothing, writes nothing, adds no changeset and returns the
    world as it is.  What is assumed of [JsonHelper.diff] is that it finds
    no difference between a vertex and itself. *)
Theorem X23_update_with_what_get_returned_is_a_noop (svc : Service) (w : World)
    (now : N) (id user nodeId : string) (options : option GetOptions) (r : GetResult) :
  (∀ v, diff v v = []) ->
  reachable svc w ->
  get svc w id options = Ok r ->
  options ≫= includeDeleted ≠ Some true ->
  (∀ vertexId e, vertexIdOfUrn id = Ok vertexId ->
                 _vertexStorage w !! vertexId = Some e -> uniqueIds e) ->
  user ≠ "" -> nodeId ≠ "" ->
  update svc w now id (v_metadataSchema (vertex r)) (v_metadata (vertex r))
         (inputsOf aliasInput (v_aliases (vertex r)))
         (inputsOf resourceInput (v_resources (vertex r)))
         (inputsOf edgeInput (v_edges (vertex r)))
         (Some user) (Some nodeId)
  = Ok w.
Proof.
  intros Hdiff Hreach Hget Hopt Huniq Huser Hnode.
  apply get_inv in Hget as (vid & e & Hid & Hvid & He & Hvertex).
  destruct (Huniq _ _ Hvid He) as (Hna & Hnr & Hne).
  destruct (namedElements_model e (reachable_namedElements _ _ _ _ Hreach He))
    as (Hnamed_a & Hnamed_r & Hnamed_e).
  destruct (reachable_changeset_epochs _ _ _ _ Hreach He) as (first & _ & Hhead & _).
  assert (Hdel : negb (default false (options ≫= includeDeleted)) = true).
  { by destruct (options ≫= includeDeleted) as [[]|]. }
  rewrite Hdel in Hvertex. cbv zeta in Hvertex.
  set (v := vertexEntityToModel e) in *.
  assert (Hms : v_metadataSchema (vertex r) = v_metadataSchema v)
    by (rewrite Hvertex; by destruct (negb _)).
  assert (Hm : v_metadata (vertex r) = v_metadata v)
    by (rewrite Hvertex; by destruct (negb _)).
  assert (Hal : v_aliases (vertex r) = dropDeleted alias_deleted (v_aliases v))
    by (rewrite Hvertex; by destruct (negb _)).
  assert (Hrl : v_resources (vertex r) = dropDeleted resource_deleted (v_resources v))
    by (rewrite Hvertex; by destruct (negb _)).
  assert (Hel : v_edges (vertex r) = dropDeleted edge_deleted (v_edges v))
    by (rewrite Hvertex; by destruct (negb _)).
  rewrite Hms, Hm, Hal, Hrl, Hel. clear Hvertex Hms Hm Hal Hrl Hel.
  assert (Hrec : reconcile (mkContext now user nodeId) v
                   (v_metadataSchema v) (v_metadata v)
                   (inputsOf aliasInput (dropDeleted alias_deleted (v_aliases v)))
                   (inputsOf resourceInput
                      (dropDeleted resource_deleted (v_resources v)))
                   (inputsOf edgeInput (dropDeleted edge_deleted (v_edges v)))
                 = Ok v).
  { apply reconcile_feedback; try done; unfold idsOf, v; simpl;
      by rewrite default_copyArray, <- list_fmap_compose. }
  rewrite (update_reconciled svc w now id _ _ _ _ _ user nodeId vid e v
             Hid Huser Hnode Hvid He Hrec).
  assert (Hch : (addChangeset svc (_integrityImmutableStorage w)
                   (mkContext now user nodeId) v v).2 = false).
  { apply not_true_iff_false. rewrite addChangeset_changes_iff.
    intros [Hd | Hnone]; [by rewrite Hdiff in Hd|].
    unfold v in Hnone. simpl in Hnone. rewrite copyArray_id in Hnone.
    by rewrite Hnone in Hhead. }
  fold v. by rewrite Hch.
Qed.
End FeedBackToUpdate.

(** ** The properties on the scenarios *)

Lemma lowerString_app (s t : string) :
  TestEnv.lowerString (s +:+ t) = TestEnv.lowerString s +:+ TestEnv.lowerString t.
Proof.
  induction s as [|c s IH]; [done|].
  change (String c s +:+ t) with (String c (s +:+ t)).
  simpl. rewrite IH. done.
Qed.

Lemma lowerString_separator (s t : string) :
  TestEnv.lowerString (s +:+ "||" +:+ t)
  = TestEnv.lowerString s +:+ "||" +:+ TestEnv.lowerString t.
Proof. by rewrite !lowerString_app. Qed.

Lemma diffVertex_refl (v : IAuditableItemGraphVertex) : TestEnv.diffVertex v v = [].
Proof.
  assert (Hp : ∀ p x, TestEnv.diffProperty p x x = []).
  { intros p [a|]; simpl; [|done]. by rewrite bool_decide_eq_true_2. }
  unfold TestEnv.diffVertex. by rewrite !Hp.
Qed.

Lemma swapped_is_update_of_created :
  update TestEnv.service Scenarios.created TestEnv.SECOND_TICK Scenarios.VERTEX_URN
         None None (Some [Scenarios.foo321; Scenarios.bar456]) None None
         Scenarios.user Scenarios.node
  = Ok Scenarios.swapped.
Proof. vm_compute. reflexivity. Qed.

Lemma created_is_create_of_empty :
  create TestEnv.service TestEnv.emptyWorld TestEnv.FIRST_TICK TestEnv.VERTEX_ID
         None None (Some [Scenarios.foo123; Scenarios.bar456]) None None
         Scenarios.user Scenarios.node
  = Ok (Scenarios.created, Scenarios.VERTEX_URN).
Proof. vm_compute. reflexivity. Qed.

Lemma detached_is_removeImmutable_of_swapped :
  removeImmutable Scenarios.swapped Scenarios.VERTEX_URN Scenarios.node
  = Ok Scenarios.detached.
Proof. vm_compute. reflexivity. Qed.

Section ScenarioInstances.
#[local] Existing Instance TestEnv.collaborators.

(** X1 (instance). The aliases foo123 and bar456, reconciled with the list
    foo321, bar456. *)
Lemma X1_alias_swap_leaves_supplied_ids_live :
  match updateList TestEnv.SECOND_TICK
          (Some [mkAlias "foo123" TestEnv.FIRST_TICK None None None None;
                 mkAlias "bar456" TestEnv.FIRST_TICK None None None None])
          (Some [Scenarios.foo321; Scenarios.bar456]) with
  | Ok elems' =>
      (∀ e, e ∈ default [] elems' -> elem_deleted e = None ->
            inUpdateList (Some [Scenarios.foo321; Scenarios.bar456]) (elem_id e) = true)
      ∧ (∀ u, u ∈ [Scenarios.foo321; Scenarios.bar456] ->
              ∃ e, e ∈ default [] elems'
                   ∧ elem_id e = input_id u ∧ truthy (elem_deleted e) = false)
  | Err _ => False
  end.
Proof.
  destruct (updateList _ _ _) as [elems'|err] eqn:Hu;
    [exact (X1_reconciler_leaves_supplied_ids_live _ _ _ _ Hu)
    |vm_compute in Hu; discriminate Hu].
Defined.

(** X3 (instance). A URN of the namespace xyz, on the world of the create
    call. *)
Lemma X3_foreign_namespace_on_created :
  get TestEnv.service Scenarios.created "xyz:0101" None = Err namespaceMismatch
  ∧ update TestEnv.service Scenarios.created TestEnv.SECOND_TICK "xyz:0101"
           None None None None None
           (Some TestEnv.TEST_USER_IDENTITY) (Some TestEnv.TEST_NODE_IDENTITY)
    = Err namespaceMismatch
  ∧ removeImmutable Scenarios.created "xyz:0101" (Some TestEnv.TEST_NODE_IDENTITY)
    = Err namespaceMismatch.
Proof.
  apply (X3_namespace_mismatch_is_not_wrapped TestEnv.service Scenarios.created
           TestEnv.SECOND_TICK "xyz:0101" "xyz" "0101"
           TestEnv.TEST_USER_IDENTITY TestEnv.TEST_NODE_IDENTITY);
    [discriminate|discriminate|discriminate|vm_compute; reflexivity|discriminate].
Defined.

(** X4 (instance). A create with a valid alias and an edge without
    relationship, by no user: the missing identity is reported; by a user,
    the edge is. *)
Lemma X4_create_without_identity_or_relationship :
  create TestEnv.service TestEnv.emptyWorld TestEnv.FIRST_TICK TestEnv.VERTEX_ID
         None None (Some [Scenarios.foo123]) None
         (Some [mkEdgeInput "edge1" "" None None]) None Scenarios.node
  = Err (guardViolation "identity")
  ∧ (create TestEnv.service TestEnv.emptyWorld TestEnv.FIRST_TICK TestEnv.VERTEX_ID
            None None (Some [Scenarios.foo123]) None
            (Some [mkEdgeInput "edge1" "" None None]) Scenarios.user Scenarios.node
     = Err (createFailed (guardViolation "edge.id"))
     ∨ create TestEnv.service TestEnv.emptyWorld TestEnv.FIRST_TICK TestEnv.VERTEX_ID
              None None (Some [Scenarios.foo123]) None
              (Some [mkEdgeInput "edge1" "" None None]) Scenarios.user Scenarios.node
       = Err (createFailed (guardViolation "edge.relationship"))).
Proof.
  split.
  - apply (X4_create_checks_its_arguments_first TestEnv.service TestEnv.emptyWorld
             TestEnv.FIRST_TICK TestEnv.VERTEX_ID None None (Some [Scenarios.foo123]) None
             (Some [mkEdgeInput "edge1" "" None None]) None Scenarios.node).
    reflexivity.
  - apply (X4_create_checks_its_arguments_first TestEnv.service TestEnv.emptyWorld
             TestEnv.FIRST_TICK TestEnv.VERTEX_ID None None (Some [Scenarios.foo123]) None
             (Some [mkEdgeInput "edge1" "" None None]) Scenarios.user Scenarios.node);
      reflexivity.
Defined.

(** X5 (instance). An update of the created vertex with a resource without
    id fails on that resource, although the edge list is faulty too. *)
Lemma X5_update_with_a_nameless_resource :
  update TestEnv.service Scenarios.created TestEnv.SECOND_TICK Scenarios.VERTEX_URN
         None None (Some [Scenarios.foo123]) (Some [mkElementInput "" None None])
         (Some [mkEdgeInput "" "" None None]) Scenarios.user Scenarios.node
  = Err (updateFailed (guardViolation "resource.id")).
Proof.
  apply (proj2 (proj2 (proj2 (proj2
           (X5_update_checks_its_arguments_first TestEnv.service Scenarios.created
              TestEnv.SECOND_TICK Scenarios.VERTEX_URN None None
              (Some [Scenarios.foo123]) (Some [mkElementInput "" None None])
              (Some [mkEdgeInput "" "" None None]) Scenarios.user Scenarios.node))))
           ltac:(discriminate) eq_refl eq_refl) with (vertexId := TestEnv.VERTEX_ID).
  - vm_compute. reflexivity.
  - vm_compute. eauto.
  - reflexivity.
  - reflexivity.
Defined.

(** X6 (instance). A get of the alias swap that asks for deleted elements
    and changesets but for no verification. *)
Lemma X6_get_of_the_alias_swap_without_verification :
  ∃ r, get TestEnv.service Scenarios.swapped Scenarios.VERTEX_URN
           (Some (mkGetOptions (Some true) (Some true) (Some VerifyNone))) = Ok r
       ∧ verified r = None ∧ verification r = None.
Proof.
  apply (proj2 (proj2 (proj2 (proj2 (proj2
           (X6_get_without_verification_succeeds_iff_stored TestEnv.service
              Scenarios.swapped Scenarios.VERTEX_URN
              (Some (mkGetOptions (Some true) (Some true) (Some VerifyNone)))
              Scenarios.node)))))
           ltac:(discriminate) (or_intror eq_refl) TestEnv.VERTEX_ID).
  - vm_compute. reflexivity.
  - vm_compute. eauto.
Defined.

(** X7 (instance). The vertex of the alias swap: two changesets, the first
    at the epoch of the create call, the last at the epoch of the update. *)
Lemma X7_changesets_of_the_alias_swap :
  match _vertexStorage Scenarios.swapped !! TestEnv.VERTEX_ID with
  | Some e =>
      ∃ first final,
        head (default [] (e_changesets e)) = Some first
        ∧ last (default [] (e_changesets e)) = Some final
        ∧ cs_created first = e_created e
        ∧ cs_created final = e_updated e
  | None => False
  end.
Proof.
  destruct (_vertexStorage Scenarios.swapped !! TestEnv.VERTEX_ID) as [e|] eqn:He;
    [exact (X7_changesets_anchor_created_and_updated _ _ _ _ reachable_swapped He)
    |vm_compute in He; discriminate He].
Defined.

(** X8 (instance). The vertex of the alias swap, loaded and stored back. *)
Lemma X8_round_trip_of_the_alias_swap :
  match _vertexStorage Scenarios.swapped !! TestEnv.VERTEX_ID with
  | Some e => vertexModelToEntity (vertexEntityToModel e) = e
  | None => False
  end.
Proof.
  destruct (_vertexStorage Scenarios.swapped !! TestEnv.VERTEX_ID) as [e|] eqn:He;
    [exact (X8_stored_entity_survives_the_round_trip _ _ _ _ reachable_swapped He)
    |vm_compute in He; discriminate He].
Defined.

(** X9 (instance). The update of the alias swap. *)
Lemma X9_alias_swap_keeps_identity_and_history :
  ∃ vertexId e e',
    vertexIdOfUrn Scenarios.VERTEX_URN = Ok vertexId
    ∧ _vertexStorage Scenarios.created !! vertexId = Some e
    ∧ _vertexStorage Scenarios.swapped !! vertexId = Some e'
    ∧ e_id e' = e_id e
    ∧ e_created e' = e_created e
    ∧ e_nodeIdentity e' = e_nodeIdentity e
    ∧ default [] (e_changesets e) `prefix_of` default [] (e_changesets e')
    ∧ (∀ k, k ≠ vertexId ->
            _vertexStorage Scenarios.swapped !! k = _vertexStorage Scenarios.created !! k).
Proof.
  exact (X9_update_keeps_identity_history_and_frame _ _ _ _ _ _ _ _ _ _ _ _
           reachable_created swapped_is_update_of_created).
Defined.

(** X10 (instance). [removeImmutable] a second time on the alias swap. *)
Lemma X10_second_removeImmutable_of_the_alias_swap :
  removeImmutable Scenarios.detached Scenarios.VERTEX_URN Scenarios.node
  = Ok Scenarios.detached.
Proof.
  apply (X10_removeImmutable_is_idempotent TestEnv.service Scenarios.swapped
           Scenarios.detached Scenarios.VERTEX_URN Scenarios.node Scenarios.node
           reachable_swapped detached_is_removeImmutable_of_swapped).
  reflexivity.
Defined.

(** X11 (instance). The stored aliases across the alias swap, then across
    the update that supplies foo123 again after its deletion. *)
Lemma X11_stored_aliases_across_the_alias_swap :
  match _vertexStorage Scenarios.created !! TestEnv.VERTEX_ID,
        _vertexStorage Scenarios.swapped !! TestEnv.VERTEX_ID with
  | Some e, Some e' =>
      growsBy ae_id ae_created ae_deleted (e_aliases e) (e_aliases e')
              ["foo321"; "bar456"]
      ∧ growsBy re_id re_created re_deleted (e_resources e) (e_resources e') []
      ∧ growsBy ee_id ee_created ee_deleted (e_edges e) (e_edges e') []
  | _, _ => False
  end.
Proof.
  destruct (_vertexStorage Scenarios.created !! TestEnv.VERTEX_ID) as [e|] eqn:He;
    [|vm_compute in He; discriminate He].
  destruct (_vertexStorage Scenarios.swapped !! TestEnv.VERTEX_ID) as [e'|] eqn:He';
    [|vm_compute in He'; discriminate He'].
  apply (X11_update_keeps_stored_elements_in_place TestEnv.service
           Scenarios.created Scenarios.swapped TestEnv.SECOND_TICK Scenarios.VERTEX_URN
           None None (Some [Scenarios.foo321; Scenarios.bar456]) None None
           Scenarios.user Scenarios.node TestEnv.VERTEX_ID e e'
           reachable_created swapped_is_update_of_created);
    [vm_compute; reflexivity|exact He|exact He'].
Defined.

(** X12 (instance). [get] on the alias swap, deleted elements included. *)
Lemma X12_get_of_the_alias_swap_has_no_updated :
  match get TestEnv.service Scenarios.swapped Scenarios.VERTEX_URN Scenarios.verifyAll with
  | Ok r =>
      (∀ a, a ∈ default [] (v_aliases (vertex r)) -> alias_updated a = None)
      ∧ (∀ a, a ∈ default [] (v_resources (vertex r)) -> resource_updated a = None)
      ∧ (∀ a, a ∈ default [] (v_edges (vertex r)) -> edge_updated a = None)
  | Err _ => False
  end.
Proof.
  destruct (get _ _ _ _) as [r|err] eqn:Hg;
    [exact (X12_get_returns_no_element_updated _ _ _ _ _ Hg)
    |vm_compute in Hg; discriminate Hg].
Defined.

(** X13 (instance). [get] after the create call with foo123 and bar456. *)
Lemma X13_get_after_create :
  ∃ r, get TestEnv.service Scenarios.created Scenarios.VERTEX_URN None = Ok r
       ∧ v_id (vertex r) = TestEnv.VERTEX_ID
       ∧ Some (v_nodeIdentity (vertex r)) = Scenarios.node
       ∧ v_created (vertex r) = TestEnv.FIRST_TICK
       ∧ v_updated (vertex r) = TestEnv.FIRST_TICK
       ∧ v_metadataSchema (vertex r) = None
       ∧ v_metadata (vertex r) = None
       ∧ default [] (v_aliases (vertex r))
         = (fun u => mkAlias (in_id u) TestEnv.FIRST_TICK None None
                             (in_metadataSchema u) (in_metadata u))
             <$> [Scenarios.foo123; Scenarios.bar456]
       ∧ default [] (v_resources (vertex r))
         = (fun u => mkResource (in_id u) TestEnv.FIRST_TICK None None
                                (in_metadataSchema u) (in_metadata u))
             <$> []
       ∧ default [] (v_edges (vertex r))
         = (fun u => mkEdge (ein_id u) TestEnv.FIRST_TICK None None (ein_relationship u)
                            (ein_metadataSchema u) (ein_metadata u))
             <$> [].
Proof.
  apply (X13_get_returns_the_created_vertex TestEnv.service TestEnv.emptyWorld
           Scenarios.created TestEnv.FIRST_TICK TestEnv.VERTEX_ID Scenarios.VERTEX_URN
           None None (Some [Scenarios.foo123; Scenarios.bar456]) None None
           Scenarios.user Scenarios.node None created_is_create_of_empty);
    [discriminate|vm_compute; reflexivity| | |];
    apply (bool_decide_unpack _); vm_compute; reflexivity.
Defined.

(** X14 (instance). The vertex of the create call verifies in full. *)
Lemma X14_created_scenario_verifies :
  ∃ r patches,
    get TestEnv.service Scenarios.created Scenarios.VERTEX_URN
        (Some (mkGetOptions None None (Some VerifyAll))) = Ok r
    ∧ verified r = Some true
    ∧ verification r = Some [mkVerification TestEnv.FIRST_TICK patches None None].
Proof.
  apply (X14_created_vertex_verifies TestEnv.service TestEnv.emptyWorld
           Scenarios.created TestEnv.FIRST_TICK TestEnv.VERTEX_ID Scenarios.VERTEX_URN
           TestEnv.TEST_USER_IDENTITY TestEnv.TEST_NODE_IDENTITY
           None None (Some [Scenarios.foo123; Scenarios.bar456]) None None
           None None VerifyAll created_is_create_of_empty).
  - discriminate.
  - vm_compute. reflexivity.
  - discriminate.
  - reflexivity.
  - exact TestEnv_base64_roundtrip.
  - intros e c sid He Hc Hsid.
    vm_compute in He. injection He as <-.
    vm_compute in Hc. injection Hc as <-.
    vm_compute in Hsid. injection Hsid as <-.
    vm_compute. reflexivity.
Defined.

(** X16 (instance). The alias swap at depth [current]: the entry of the
    first changeset. *)
Lemma X16_first_entry_of_the_alias_swap :
  match _vertexStorage Scenarios.swapped !! TestEnv.VERTEX_ID with
  | Some e =>
      match v_changesets (vertexEntityToModel e) with
      | Some changesets =>
          let imm := _integrityImmutableStorage Scenarios.swapped in
          let imm' := _integrityImmutableStorage TestEnv.emptyWorld in
          let vertex := vertexEntityToModel e in
          (∀ j c, changesets !! j = Some c -> (S j < length changesets)%nat ->
                  (verifyChangesets TestEnv.service imm vertex VerifyCurrent).2 !! j
                  = Some (hashOnlyEntry
                            match j with
                            | O => None
                            | S j' => chainDigests None changesets !! j'
                            end c)
                  ∧ (verifyChangesets TestEnv.service imm vertex VerifyCurrent).2 !! j
                    = (verifyChangesets TestEnv.service imm' vertex VerifyNone).2 !! j)
          ∧ ((verifyChangesets TestEnv.service imm vertex VerifyCurrent).1 = false
             ↔ ∃ v, last (verifyChangesets TestEnv.service imm vertex VerifyCurrent).2
                    = Some v
                    ∧ ver_failureProperties v ≠ None)
      | None => False
      end
  | None => False
  end.
Proof.
  destruct (_vertexStorage Scenarios.swapped !! TestEnv.VERTEX_ID) as [e|] eqn:He;
    [|vm_compute in He; discriminate He].
  destruct (v_changesets (vertexEntityToModel e)) as [changesets|] eqn:Hcs.
  - exact (X16_depth_current_consults_the_last_credential TestEnv.service
             (_integrityImmutableStorage Scenarios.swapped)
             (_integrityImmutableStorage TestEnv.emptyWorld)
             (vertexEntityToModel e) changesets Hcs).
  - vm_compute in He. injection He as <-. vm_compute in Hcs. discriminate Hcs.
Defined.

(** X17 (instance). The alias swap verifies at depth [current]. *)
Lemma X17_alias_swap_verifies_at_depth_current :
  match _vertexStorage Scenarios.created !! TestEnv.VERTEX_ID,
        _vertexStorage Scenarios.swapped !! TestEnv.VERTEX_ID with
  | Some e, Some e' =>
      ∃ r,
        get TestEnv.service Scenarios.swapped Scenarios.VERTEX_URN
            (Some (mkGetOptions None None (Some VerifyCurrent))) = Ok r
        ∧ verified r = Some true
        ∧ verification r
          = Some ((fun c => mkVerification (cs_created c) (cs_patches c) None None)
                    <$> default [] (e_changesets e'))
  | _, _ => False
  end.
Proof.
  destruct (_vertexStorage Scenarios.created !! TestEnv.VERTEX_ID) as [e|] eqn:He;
    [|vm_compute in He; discriminate He].
  destruct (_vertexStorage Scenarios.swapped !! TestEnv.VERTEX_ID) as [e'|] eqn:He';
    [|vm_compute in He'; discriminate He'].
  apply (X17_updated_vertex_verifies_at_depth_current TestEnv.service
           Scenarios.created Scenarios.swapped TestEnv.SECOND_TICK Scenarios.VERTEX_URN
           TestEnv.TEST_USER_IDENTITY TestEnv.TEST_NODE_IDENTITY TestEnv.VERTEX_ID
           None None (Some [Scenarios.foo321; Scenarios.bar456]) None None
           None None e e').
  - reflexivity.
  - exact TestEnv_base64_roundtrip.
  - exact reachable_created.
  - exact swapped_is_update_of_created.
  - vm_compute. reflexivity.
  - exact He.
  - exact He'.
  - vm_compute in He. injection He as <-. reflexivity.
  - vm_compute in He. injection He as <-. vm_compute in He'. injection He' as <-.
    vm_compute. discriminate.
  - intros c sid digest Hc Hsid Hdigest.
    vm_compute in He'. injection He' as <-.
    vm_compute in Hc. injection Hc as <-.
    vm_compute in Hsid. injection Hsid as <-.
    vm_compute in Hdigest. injection Hdigest as <-.
    vm_compute. reflexivity.
Defined.

(** X19 (instance). After the alias swap, a query by alias for FOO123 asks
    for an index that includes foo123, as the stored index does, although
    the alias foo123 is soft-deleted. *)
Lemma X19_query_for_a_deleted_alias_in_upper_case :
  match _vertexStorage Scenarios.swapped !! TestEnv.VERTEX_ID with
  | Some e =>
      ∃ request conditions c index,
        (∀ vertexStorageQuery,
           query vertexStorageQuery Scenarios.swapped
                 (Some (mkQueryOptions (Some "FOO123") (Some IdModeAlias)))
                 None None None None None
           = let results :=
               vertexStorageQuery (_vertexStorage Scenarios.swapped) request in
             {| qr_entities := partialEntityToModel <$> sr_entities results;
                qr_cursor := sr_cursor results;
                qr_pageSize := sr_pageSize results;
                qr_totalEntities := sr_totalEntities results |})
        ∧ sq_conditions request = Some conditions
        ∧ c ∈ ec_conditions conditions
        ∧ cond_property c = "aliasIndex"
        ∧ cond_comparison c = Includes
        ∧ e_aliasIndex e = Some index
        ∧ includesString index (cond_value c)
  | None => False
  end.
Proof.
  destruct (_vertexStorage Scenarios.swapped !! TestEnv.VERTEX_ID) as [e|] eqn:He;
    [|vm_compute in He; discriminate He].
  apply (X19_query_by_alias_matches_the_alias_index TestEnv.service Scenarios.swapped
           TestEnv.VERTEX_ID "FOO123" e
           (mkAliasEntity "foo123" TestEnv.FIRST_TICK (Some TestEnv.SECOND_TICK) None None)
           (Some IdModeAlias) None None None None None).
  - exact lowerString_separator.
  - exact reachable_swapped.
  - exact He.
  - vm_compute in He. injection He as <-. vm_compute. left.
  - discriminate.
  - vm_compute. reflexivity.
  - discriminate.
Defined.

(** X20 (instance). The route on the alias swap, with no query parameter. *)
Lemma X20_route_get_on_the_alias_swap :
  auditableItemGraphGet (get TestEnv.service Scenarios.swapped)
    (Some (mkGetRequest (Some (mkGetRequestPathParams (Some Scenarios.VERTEX_URN))) None))
  = (result ← get TestEnv.service Scenarios.swapped Scenarios.VERTEX_URN None;
     Ok {| body := result |})
  ∧ ∀ component_get component_get' anyRequest,
      (∀ x options, x ≠ "" -> component_get x options = component_get' x options) ->
      auditableItemGraphGet component_get anyRequest
      = auditableItemGraphGet component_get' anyRequest.
Proof.
  apply (X20_route_get_is_service_get TestEnv.service Scenarios.swapped
           (mkGetRequest (Some (mkGetRequestPathParams (Some Scenarios.VERTEX_URN))) None)
           (mkGetRequestPathParams (Some Scenarios.VERTEX_URN)) Scenarios.VERTEX_URN);
    [reflexivity|reflexivity|discriminate].
Defined.

(** X21 (instance). The first entry of the verification of the alias swap
    whose first hash was overwritten. *)
Lemma X21_outcome_of_the_tampered_changeset :
  match _vertexStorage Scenarios.tampered !! TestEnv.VERTEX_ID with
  | Some e =>
      match (verifyChangesets TestEnv.service
               (_integrityImmutableStorage Scenarios.tampered)
               (vertexEntityToModel e) VerifyAll).2 with
      | v :: _ =>
          (ver_failure v = None ∧ ver_failureProperties v = None)
          ∨ (ver_failure v = Some "invalidChangesetHash"
             ∧ ver_failureProperties v = None)
          ∨ (∃ f properties,
               ver_failure v = Some f ∧ f ∈ credentialFailures
               ∧ ver_failureProperties v = Some properties
               ∧ fp_epoch properties = ver_created v
               ∧ cs_created (fp_calculatedChangeset properties) = ver_created v
               ∧ cs_patches (fp_calculatedChangeset properties) = ver_patches v
               ∧ fp_hash properties = cs_hash (fp_calculatedChangeset properties))
      | [] => False
      end
  | None => False
  end.
Proof.
  destruct (_vertexStorage Scenarios.tampered !! TestEnv.VERTEX_ID) as [e|] eqn:He;
    [|vm_compute in He; discriminate He].
  destruct (verifyChangesets _ _ _ _).2 as [|v l] eqn:Hv.
  - vm_compute in He. injection He as <-. vm_compute in Hv. discriminate Hv.
  - apply (X21_verification_outcomes TestEnv.service
             (_integrityImmutableStorage Scenarios.tampered)
             (vertexEntityToModel e) VerifyAll v).
    rewrite Hv. left.
Defined.

(** X22 (instance). The elements of the vertex of the alias swap. *)
Lemma X22_elements_of_the_alias_swap_are_named :
  match _vertexStorage Scenarios.swapped !! TestEnv.VERTEX_ID with
  | Some e => namedElements e
  | None => False
  end.
Proof.
  destruct (_vertexStorage Scenarios.swapped !! TestEnv.VERTEX_ID) as [e|] eqn:He;
    [exact (X22_stored_elements_are_named _ _ _ _ reachable_swapped He)
    |vm_compute in He; discriminate He].
Defined.

(** X23 (instance). After the alias swap, an update with what [get]
    returns. *)
Lemma X23_feeding_back_the_alias_swap :
  match get TestEnv.service Scenarios.swapped Scenarios.VERTEX_URN None with
  | Ok r =>
      update TestEnv.service Scenarios.swapped TestEnv.THIRD_TICK Scenarios.VERTEX_URN
             (v_metadataSchema (vertex r)) (v_metadata (vertex r))
             (inputsOf aliasInput (v_aliases (vertex r)))
             (inputsOf resourceInput (v_resources (vertex r)))
             (inputsOf edgeInput (v_edges (vertex r)))
             (Some TestEnv.TEST_USER_IDENTITY) (Some TestEnv.TEST_NODE_IDENTITY)
      = Ok Scenarios.swapped
  | Err _ => False
  end.
Proof.
  destruct (get _ _ _ _) as [r|err] eqn:Hg; [|vm_compute in Hg; discriminate Hg].
  apply (X23_update_with_what_get_returned_is_a_noop TestEnv.service Scenarios.swapped
           TestEnv.THIRD_TICK Scenarios.VERTEX_URN
           TestEnv.TEST_USER_IDENTITY TestEnv.TEST_NODE_IDENTITY None r).
  - exact diffVertex_refl.
  - exact reachable_swapped.
  - exact Hg.
  - discriminate.
  - intros vertexId e Hvid He.
    vm_compute in Hvid. injection Hvid as <-.
    vm_compute in He. injection He as <-.
    repeat split; apply (bool_decide_unpack _); vm_compute; reflexivity.
  - discriminate.
  - discriminate.
Defined.
End ScenarioInstances.
